(** * get_yt_transcript: a shallow embedding of the transcript renderer

    The program under study is [src/py/scripts/get_yt_transcript.py].  Its
    pure part consists of [extract_video_id], [format_time_srt],
    [create_srt], [create_markdown] and [create_json]; [main] glues them
    to the transcript service and to the file system.

    Python values are embedded as follows.
    - [str] is a sequence of Unicode code points ([list N]).
    - [float] is IEEE-754 binary64.  Every finite binary64 number is an
      integer multiple of 2^-1074, so a finite value is stored as that
      integer; arithmetic is the exact operation followed by rounding to
      nearest, ties to even.
    - exceptions are values of type [exn]; a computation that may raise
      has type [exc A].
    - the parts of the Python runtime that are tables rather than code
      (the Unicode database, the address parser used for bracketed
      hosts) are fields of a record [runtime] over which the URL code is
      parametric. *)

From Stdlib Require Import ZArith NArith Lia List String Ascii Bool.
From stdpp Require Import base option list gmap.

Local Open Scope Z_scope.

(** ** Strings *)

Module Str.

Abbreviation char := N (only parsing).
Abbreviation str := (list N) (only parsing).

(** [u "abc"] is the Python literal ['abc']. *)
Fixpoint u (s : string) : str :=
  match s with
  | EmptyString => []
  | String a r => N_of_ascii a :: u r
  end.
Arguments u s%_string.

Definition chr (a : ascii) : char := N_of_ascii a.
Arguments chr a%_char.

Definition str_eqb (a b : str) : bool := bool_decide (a = b).

Definition in_range (lo hi c : N) : bool := ((lo <=? c) && (c <=? hi))%N.

Definition is_ascii_char (c : char) : bool := (c <? 128)%N.
Definition is_ascii_digit (c : char) : bool := in_range 48 57 c.
Definition is_ascii_upper (c : char) : bool := in_range 65 90 c.
Definition is_ascii_lower (c : char) : bool := in_range 97 122 c.
Definition is_ascii_alpha (c : char) : bool := is_ascii_upper c || is_ascii_lower c.
Definition is_ascii_alnum (c : char) : bool := is_ascii_alpha c || is_ascii_digit c.

(** [str.isascii()] *)
Definition isascii (s : str) : bool := forallb is_ascii_char s.

(** The code points for which [str.isspace()] holds; [str.strip()]
    without argument removes exactly these. *)
Definition is_space (c : char) : bool :=
  in_range 9 13 c || in_range 28 32 c || (c =? 133)%N || (c =? 160)%N
  || (c =? 5760)%N || in_range 8192 8202 c || (c =? 8232)%N || (c =? 8233)%N
  || (c =? 8239)%N || (c =? 8287)%N || (c =? 12288)%N.

Fixpoint lstrip_by (p : char -> bool) (s : str) : str :=
  match s with
  | c :: r => if p c then lstrip_by p r else s
  | [] => []
  end.

Definition rstrip_by (p : char -> bool) (s : str) : str :=
  rev (lstrip_by p (rev s)).

(** [s.strip()] *)
Definition strip (s : str) : str := rstrip_by is_space (lstrip_by is_space s).

(** [sep.join(l)] *)
Fixpoint join (sep : str) (l : list str) : str :=
  match l with
  | [] => []
  | [x] => x
  | x :: r => x ++ sep ++ join sep r
  end.

(** [s.startswith(p)] *)
Fixpoint startswith (s p : str) {struct p} : bool :=
  match p, s with
  | [], _ => true
  | a :: p', b :: s' => (a =? b)%N && startswith s' p'
  | _ :: _, [] => false
  end.

(** [c in s] for a one-character [c] *)
Definition contains (c : char) (s : str) : bool := existsb (N.eqb c) s.

(** [s.replace(c, '')] for a one-character [c] *)
Definition remove_char (c : char) (s : str) : str :=
  filter (fun x => x <> c) s.

(** [s.replace(a, b)] for one-character [a] and [b] *)
Definition replace_char (a b : char) (s : str) : str :=
  map (fun x => if (x =? a)%N then b else x) s.

(** [s.partition(c)]: the text before the first [c], whether [c] was
    found, and the text after it. *)
Fixpoint partition (c : char) (s : str) : str * bool * str :=
  match s with
  | [] => ([], false, [])
  | x :: r =>
      if (x =? c)%N then ([], true, r)
      else let '(a, f, b) := partition c r in (x :: a, f, b)
  end.

(** [s.rpartition(c)]: as [partition] but for the last [c]; when [c] is
    absent the whole text is the third component. *)
Definition rpartition (c : char) (s : str) : str * bool * str :=
  let '(b, f, a) := partition c (rev s) in
  if f then (rev a, true, rev b) else ([], false, s).

(** [s.split(c)] *)
Fixpoint split (c : char) (s : str) : list str :=
  match s with
  | [] => [[]]
  | x :: r =>
      if (x =? c)%N then [] :: split c r
      else match split c r with
           | w :: ws => (x :: w) :: ws
           | [] => [[x]]
           end
  end.

(** [s.split(c, 1)] *)
Definition split1 (c : char) (s : str) : list str :=
  let '(a, f, b) := partition c s in if f then [a; b] else [a].

(** Decimal digits of a natural number, most significant first. *)
Fixpoint digits_aux (fuel : nat) (n : N) (acc : str) : str :=
  match fuel with
  | O => acc
  | S f =>
      let acc' := (48 + n mod 10)%N :: acc in
      if (n <? 10)%N then acc' else digits_aux f (n / 10)%N acc'
  end.

Definition digits (n : N) : str := digits_aux (S (N.to_nat (N.log2 n))) n [].

(** [str(i)] for an [int] *)
Definition str_of_int (z : Z) : str :=
  if z <? 0 then chr "-" :: digits (Z.abs_N z) else digits (Z.abs_N z).

(** [f"{z:0{w}d}"]: sign, then the digits padded with zeros so that the
    whole field has at least [w] characters. *)
Definition zfill (w : nat) (s : str) : str := repeat (chr "0") (w - length s) ++ s.

Definition format_0d (w : nat) (z : Z) : str :=
  if z <? 0 then chr "-" :: zfill (w - 1) (digits (Z.abs_N z))
  else zfill w (digits (Z.abs_N z)).

#[global] Arguments contains c%_N s.
#[global] Arguments remove_char c%_N s.
#[global] Arguments replace_char (a b)%_N s.
#[global] Arguments partition c%_N s.
#[global] Arguments rpartition c%_N s.
#[global] Arguments split c%_N s.
#[global] Arguments split1 c%_N s.

End Str.
Export Str.

(** ** Exceptions *)

Inductive exn_class :=
  | ValueError | OverflowError | ZeroDivisionError | IndexError
  | ImportError | OSError | OtherException.

(** An exception object: its class and the text [str(e)].  All the
    classes here derive from [Exception]; the exceptions that do not
    ([KeyboardInterrupt], [SystemExit] raised by a callee) are not
    modelled. *)
Record exn := Exn { exn_class_of : exn_class; exn_msg : str }.

Inductive exc (A : Type) :=
  | Ok (a : A)
  | Raise (e : exn).
Arguments Ok {A} a.
Arguments Raise {A} e.

Definition exc_bind {A B} (m : exc A) (k : A -> exc B) : exc B :=
  match m with Ok a => k a | Raise e => Raise e end.

#[global] Instance exc_ret : MRet exc := fun A a => Ok a.
#[global] Instance exc_mbind : MBind exc := fun A B k m => exc_bind m k.

(** ** Floating point: IEEE-754 binary64 *)

Module Float.

(** [Fin n] is the finite number n * 2^-1074 (the two zeros are not
    distinguished: every value computed below is consumed by [int()]).
    [Inf false] is +inf, [Inf true] is -inf. *)
Inductive float :=
  | Fin (n : Z)
  | Inf (neg : bool)
  | NaN.

Definition unit_exp : Z := 1074.
(** 1.0, that is 2^1074 units, and 2^1024, that is 2^2098 units *)
Definition one : Z := Eval vm_compute in 2 ^ unit_exp.
Definition overflow_threshold : Z := Eval vm_compute in 2 ^ 2098.

(** Binary exponent of the spacing between consecutive binary64 numbers
    around [t], in units of 2^-1074: 0 below 2^53 (subnormals and the
    first normal binade), then one more per binade. *)
Definition shift_of (t : Z) : Z := Z.max 0 (Z.log2 t - 52).

(** [p/q] rounded to the nearest integer, ties to the even one;
    [0 <= p], [0 < q]. *)
Definition rne_quot (p q : Z) : Z :=
  let d := p / q in
  let r := p mod q in
  if 2 * r <? q then d
  else if q <? 2 * r then d + 1
  else if Z.even d then d else d + 1.

(** [p/q] rounded to a 53-bit significand in the binade of [p/q]. *)
Definition round_pos (p q : Z) : Z :=
  let s := shift_of (p / q) in
  rne_quot p (q * 2 ^ s) * 2 ^ s.

(** The binary64 number nearest to [p/q] units ([0 < q]). *)
Definition fl (p q : Z) : float :=
  let n := round_pos (Z.abs p) q in
  if overflow_threshold <=? n then Inf (p <? 0)
  else Fin (if p <? 0 then - n else n).

(** [n] units is a binary64 number. *)
Definition representable (n : Z) : bool :=
  (Z.abs n mod 2 ^ shift_of (Z.abs n) =? 0) && (Z.abs n <? overflow_threshold).

(** The value of an integer literal such as [3600] or of [float(z)]
    for a [z] below 2^53. *)
Definition of_int (z : Z) : float := fl (z * one) 1.

(** The value of a decimal literal [num/den], e.g. [of_ratio 3661999 1000]
    for [3661.999]: the nearest binary64 number. *)
Definition of_ratio (num den : Z) : float := fl (num * one) den.

Definition fneg (x : float) : float :=
  match x with Fin n => Fin (- n) | Inf s => Inf (negb s) | NaN => NaN end.

(** [x + y] *)
Definition fadd (x y : float) : float :=
  match x, y with
  | NaN, _ | _, NaN => NaN
  | Inf a, Inf b => if Bool.eqb a b then Inf a else NaN
  | Inf a, Fin _ | Fin _, Inf a => Inf a
  | Fin a, Fin b => fl (a + b) 1
  end.

(** [x - y] *)
Definition fsub (x y : float) : float := fadd x (fneg y).

(** [x * y] *)
Definition fmul (x y : float) : float :=
  match x, y with
  | NaN, _ | _, NaN => NaN
  | Inf a, Inf b => Inf (xorb a b)
  | Inf a, Fin n | Fin n, Inf a =>
      if n =? 0 then NaN else Inf (xorb a (n <? 0))
  | Fin a, Fin b => fl (a * b) one
  end.

(** [x / y] in C (no exception: division by zero gives an infinity or
    NaN; the sign of a zero divisor is taken to be positive). *)
Definition fdiv (x y : float) : float :=
  match x, y with
  | NaN, _ | _, NaN => NaN
  | Inf _, Inf _ => NaN
  | Inf a, Fin n => Inf (xorb a (n <? 0))
  | Fin _, Inf _ => Fin 0
  | Fin a, Fin b =>
      if b =? 0 then (if a =? 0 then NaN else Inf (a <? 0))
      else if b <? 0 then fl (- a * one) (- b) else fl (a * one) b
  end.

(** C's [fmod]: exact; the result has the sign of [x]. *)
Definition fmod (x y : float) : float :=
  match x, y with
  | NaN, _ | _, NaN => NaN
  | Inf _, _ => NaN
  | Fin a, Inf _ => Fin a
  | Fin a, Fin b => if b =? 0 then NaN else Fin (Z.rem a b)
  end.

(** C's [floor]: exact. *)
Definition ffloor (x : float) : float :=
  match x with
  | Fin n => Fin (n / one * one)
  | _ => x
  end.

Definition is_zero (x : float) : bool :=
  match x with Fin n => n =? 0 | _ => false end.

(** [x < 0] and [x > y] in C: false as soon as a NaN is involved. *)
Definition lt0 (x : float) : bool :=
  match x with Fin n => n <? 0 | Inf s => s | NaN => false end.

Definition fgt (x y : float) : bool :=
  match x, y with
  | NaN, _ | _, NaN => false
  | Inf a, Inf b => negb a && b
  | Inf a, Fin _ => negb a
  | Fin _, Inf b => b
  | Fin a, Fin b => b <? a
  end.

Definition half : float := Eval vm_compute in Fin (2 ^ (unit_exp - 1)).

(** CPython, [Objects/floatobject.c], [float_rem]: the [%] of two floats. *)
Definition float_rem (vx wx : float) : exc float :=
  if is_zero wx then Raise (Exn ZeroDivisionError (u "float modulo"))
  else
    let mod_ := fmod vx wx in
    if negb (is_zero mod_) then
      (* ensure the remainder has the same sign as the denominator *)
      if negb (Bool.eqb (lt0 wx) (lt0 mod_)) then Ok (fadd mod_ wx)
      else Ok mod_
    else Ok (Fin 0).

(** CPython, [Objects/floatobject.c], [float_floor_div] with
    [_float_div_mod]: the [//] of two floats. *)
Definition float_floor_div (vx wx : float) : exc float :=
  if is_zero wx then
    Raise (Exn ZeroDivisionError (u "float floor division by zero"))
  else
    let mod_ := fmod vx wx in
    let div := fdiv (fsub vx mod_) wx in
    let div :=
      if negb (is_zero mod_) && negb (Bool.eqb (lt0 wx) (lt0 mod_))
      then fsub div (Fin one) else div in
    (* snap quotient to nearest integral value *)
    if negb (is_zero div) then
      let floordiv := ffloor div in
      if fgt (fsub div floordiv) half then Ok (fadd floordiv (Fin one))
      else Ok floordiv
    else Ok (Fin 0).

(** [int(x)]: truncation towards zero. *)
Definition int_of_float (x : float) : exc Z :=
  match x with
  | Fin n => Ok (Z.quot n one)
  | Inf _ => Raise (Exn OverflowError (u "cannot convert float infinity to integer"))
  | NaN => Raise (Exn ValueError (u "cannot convert float NaN to integer"))
  end.

End Float.
Export Float.

(** ** format_time_srt (source lines 30-36)

    The integer literals of the source meet a float operand and are
    converted to float; their values are stored in evaluated form. *)

Definition float_3600 : float := Eval vm_compute in of_int 3600.
Definition float_60 : float := Eval vm_compute in of_int 60.
Definition float_1 : float := Eval vm_compute in of_int 1.
Definition float_1000 : float := Eval vm_compute in of_int 1000.

Definition format_time_srt (seconds : float) : exc str :=
  hours ← float_floor_div seconds float_3600 ≫= int_of_float;
  minutes ← (r ← float_rem seconds float_3600;
             float_floor_div r float_60 ≫= int_of_float);
  secs ← float_rem seconds float_60 ≫= int_of_float;
  millis ← (r ← float_rem seconds float_1;
            int_of_float (fmul r float_1000));
  Ok (format_0d 2 hours ++ u ":" ++ format_0d 2 minutes ++ u ":"
      ++ format_0d 2 secs ++ u "," ++ format_0d 3 millis).

(** ** The renderers' machine

    A transcript is a Python list of dicts with the keys ['text'],
    ['start'] and ['duration'].  Lists and dicts are mutable objects that
    the caller keeps a reference to, so a renderer is a transformer of a
    store that holds the caller's list next to the list the renderer
    builds.  The loop [for entry in transcript_data] is the list
    iterator: at step [i] it looks up position [i] in the list as it is
    then and stops when there is none. *)

Record entry := Entry { text : str; start : float; duration : float }.

Section Machine.
Context {X : Type}.

Record store := Store { transcript_data : list entry; local : list X }.

Inductive outcome (A : Type) :=
  | Done (a : A) (st : store)
  | Raised (e : exn) (st : store)
  | OutOfFuel.
#[global] Arguments Done {A} a st.
#[global] Arguments Raised {A} e st.
#[global] Arguments OutOfFuel {A}.

Definition M (A : Type) := store -> outcome A.

Definition ret {A} (a : A) : M A := fun st => Done a st.

Definition bind {A B} (m : M A) (k : A -> M B) : M B := fun st =>
  match m st with
  | Done a st' => k a st'
  | Raised e st' => Raised e st'
  | OutOfFuel => OutOfFuel
  end.

Definition lift {A} (r : exc A) : M A := fun st =>
  match r with Ok a => Done a st | Raise e => Raised e st end.

(** [entry[key]] for the entry object at position [i] of the list *)
Definition read {A} (i : nat) (field : entry -> A) : M A := fun st =>
  match transcript_data st !! i with
  | Some e => Done (field e) st
  | None => Raised (Exn IndexError (u "list index out of range")) st
  end.

(** [lines.append(x)] on the renderer's own list *)
Definition append (x : X) : M unit := fun st =>
  Done tt (Store (transcript_data st) (local st ++ [x])).

(** [for entry in transcript_data: body], from position [i] on *)
Fixpoint for_in (fuel : nat) (i : nat) (body : nat -> M unit) : M unit :=
  fun st =>
    match fuel with
    | O => OutOfFuel
    | S fuel' =>
        match transcript_data st !! i with
        | None => Done tt st
        | Some _ => bind (body i) (fun _ => for_in fuel' (S i) body) st
        end
    end.
End Machine.
Arguments store : clear implicits.
Arguments M : clear implicits.

Notation "x <~ m ;; k" := (bind m (fun x => k))
  (at level 100, m at next level, right associativity,
   format "'[v' x  <~  m  ;;  '/' k ']'").
Notation "m ;;; k" := (bind m (fun _ => k))
  (at level 100, right associativity, format "'[v' m  ;;;  '/' k ']'").

Definition newline : str := [10%N].

(** ** create_srt (source lines 38-51) *)

Definition create_srt_body (i : nat) : M str unit :=
  s <~ read i start ;;
  start_time <~ lift (format_time_srt s) ;;
  s' <~ read i start ;;
  d <~ read i duration ;;
  end_time <~ lift (format_time_srt (fadd s' d)) ;;
  t <~ read i text ;;
  let text := strip t in
  append (str_of_int (Z.of_nat i + 1)) ;;;
  append (start_time ++ u " --> " ++ end_time) ;;;
  append text ;;;
  append [].

Definition create_srt (fuel : nat) : M str str :=
  for_in fuel 0 create_srt_body ;;;
  fun st => Done (join newline (local st)) st.

(** ** create_markdown (source lines 53-61) *)

Definition create_markdown_body (i : nat) : M str unit :=
  t <~ read i text ;;
  let text := strip t in
  match text with
  | [] => ret tt
  | _ :: _ => append text
  end.

Definition create_markdown (fuel : nat) : M str str :=
  for_in fuel 0 create_markdown_body ;;;
  fun st => Done (join newline (local st)) st.

(** ** JSON

    [json] is the part of Python's value universe that [json.dumps]
    meets in this program and that [json.loads] can give back: [None],
    [True], [False], [str], [list] and [dict] with [str] keys (a [dict]
    keeps its insertion order, so it is a list of pairs). *)

Module Json.

#[local] Set Warnings "-register-all".
Inductive json :=
  | JNull
  | JTrue
  | JFalse
  | JStr (s : str)
  | JArr (items : list json)
  | JObj (members : list (str * json)).

Definition hex_digit (n : N) : char :=
  if (n <? 10)%N then (48 + n)%N else (87 + n)%N.

(** [json.encoder.ESCAPE_DCT]: the replacement for the characters matched
    by [ESCAPE]; every other character stands for itself. *)
Definition escape_char (c : char) : str :=
  if (c =? 92)%N then [92; 92]%N
  else if (c =? 34)%N then [92; 34]%N
  else if (c =? 8)%N then [92; 98]%N
  else if (c =? 12)%N then [92; 102]%N
  else if (c =? 10)%N then [92; 110]%N
  else if (c =? 13)%N then [92; 114]%N
  else if (c =? 9)%N then [92; 116]%N
  else if (c <? 32)%N then
    [92; 117; 48; 48; hex_digit (c / 16); hex_digit (c mod 16)]%N
  else [c].

(** [json.encoder.encode_basestring], the encoder of [ensure_ascii=False] *)
Definition encode_basestring (s : str) : str :=
  [34%N] ++ flat_map escape_char s ++ [34%N].

Section Encoder.
Variable indent : nat.

Definition newline_indent (level : nat) : str :=
  newline ++ repeat 32%N (indent * level).

(** [_make_iterencode] with [_indent = ' ' * indent],
    [_item_separator = ','] and [_key_separator = ': '], the chunks
    already joined. *)
Fixpoint iterencode (level : nat) (o : json) : str :=
  match o with
  | JNull => u "null"
  | JTrue => u "true"
  | JFalse => u "false"
  | JStr s => encode_basestring s
  | JArr [] => u "[]"
  | JArr ((_ :: _) as lst) =>
      u "[" ++ newline_indent (S level)
      ++ join (u "," ++ newline_indent (S level))
              (map (iterencode (S level)) lst)
      ++ newline_indent level ++ u "]"
  | JObj [] => u "{}"
  | JObj ((_ :: _) as dct) =>
      u "{" ++ newline_indent (S level)
      ++ join (u "," ++ newline_indent (S level))
              (map (fun kv => encode_basestring (fst kv) ++ u ": "
                              ++ iterencode (S level) (snd kv)) dct)
      ++ newline_indent level ++ u "}"
  end.
End Encoder.

(** [json.dumps(o, indent=indent, ensure_ascii=False)] *)
Definition dumps (indent : nat) (o : json) : str := iterencode indent 0 o.

(** *** Decoder: [json.loads]

    The grammar of [json.decoder] and [json.scanner] for the values
    above.  A document that contains a number (or [NaN], [Infinity]) is
    outside the modelled fragment and is answered like a malformed one,
    by [None]. *)

Definition is_ws (c : char) : bool :=
  (c =? 32)%N || (c =? 9)%N || (c =? 10)%N || (c =? 13)%N.

Definition skip_ws (s : str) : str := lstrip_by is_ws s.

Definition hex_val (c : char) : option N :=
  if in_range 48 57 c then Some (c - 48)%N
  else if in_range 97 102 c then Some (c - 87)%N
  else if in_range 65 70 c then Some (c - 55)%N
  else None.

Definition decode_hex4 (a b c d : char) : option N :=
  x ← hex_val a; y ← hex_val b; z ← hex_val c; w ← hex_val d;
  Some (((x * 16 + y) * 16 + z) * 16 + w)%N.

#[global] Arguments hex_val c%_N.
#[global] Arguments decode_hex4 (a b c d)%_N.

(** [json.decoder.BACKSLASH] *)
Definition backslash (c : char) : option char :=
  if (c =? 34)%N then Some 34%N
  else if (c =? 92)%N then Some 92%N
  else if (c =? 47)%N then Some 47%N
  else if (c =? 98)%N then Some 8%N
  else if (c =? 102)%N then Some 12%N
  else if (c =? 110)%N then Some 10%N
  else if (c =? 114)%N then Some 13%N
  else if (c =? 116)%N then Some 9%N
  else None.

(** The second half of a surrogate pair that follows [\\uXXXX] with
    [hi] in D800..DBFF: the combined code point and the rest of the
    input, when it is there ([Some None] when it is not, [None] for a
    malformed escape). *)
Definition low_surrogate (hi : N) (s : str) : option (option (N * str)) :=
  match s with
  | b0 :: u0 :: r =>
      if (b0 =? 92)%N && (u0 =? 117)%N then
        match r with
        | a :: b :: c :: d :: r' =>
            lo ← decode_hex4 a b c d;
            if in_range 56320 57343 lo
            then Some (Some (65536 + ((hi - 55296) * 1024 + (lo - 56320)), r')%N)
            else Some None
        | _ => None
        end
      else Some None
  | _ => Some None
  end.

(** [scanstring] in strict mode, started after the opening quote: the
    decoded text and the input after the closing quote. *)
Fixpoint scanstring (s : str) : option (str * str) :=
  match s with
  | [] => None
  | c :: r =>
      if (c =? 34)%N then Some ([], r)
      else if (c =? 92)%N then
        match r with
        | [] => None
        | e :: r1 =>
            if (e =? 117)%N then
              match r1 with
              | a :: b :: c' :: d :: r2 =>
                  uni ← decode_hex4 a b c' d;
                  match (if in_range 55296 56319 uni then low_surrogate uni r2
                         else Some None) with
                  | None => None
                  | Some None => '(x, k) ← scanstring r2; Some (uni :: x, k)
                  | Some (Some (cp, _)) =>
                      match r2 with
                      | _ :: _ :: _ :: _ :: _ :: _ :: r3 =>
                          '(x, k) ← scanstring r3; Some (cp :: x, k)
                      | _ => None
                      end
                  end
              | _ => None
              end
            else
              ch ← backslash e;
              '(x, k) ← scanstring r1; Some (ch :: x, k)
        end
      else if (c <? 32)%N then None
      else '(x, k) ← scanstring r; Some (c :: x, k)
  end.

(** [dict(pairs)]: a key that comes again keeps its place and takes the
    new value. *)
Fixpoint dict_set (k : str) (v : json) (d : list (str * json)) : list (str * json) :=
  match d with
  | [] => [(k, v)]
  | (k', v') :: r =>
      if bool_decide (k' = k) then (k, v) :: r else (k', v') :: dict_set k v r
  end.

Definition dict_of_pairs (pairs : list (str * json)) : list (str * json) :=
  fold_left (fun d kv => dict_set (fst kv) (snd kv) d) pairs [].

Fixpoint scan_once (fuel : nat) (s : str) : option (json * str) :=
  match fuel with
  | O => None
  | S fuel =>
      match s with
      | [] => None
      | c :: r =>
          if (c =? 34)%N then '(x, k) ← scanstring r; Some (JStr x, k)
          else if (c =? 123)%N then
            match skip_ws r with
            | [] => None
            | c' :: k =>
                if (c' =? 125)%N then Some (JObj [], k)
                else if (c' =? 34)%N then
                  '(pairs, k') ← parse_members fuel k;
                  Some (JObj (dict_of_pairs pairs), k')
                else None
            end
          else if (c =? 91)%N then
            match skip_ws r with
            | [] => None
            | c' :: k =>
                if (c' =? 93)%N then Some (JArr [], k)
                else '(values, k') ← parse_items fuel (c' :: k);
                     Some (JArr values, k')
            end
          else if startswith s (u "null") then Some (JNull, drop 4 s)
          else if startswith s (u "true") then Some (JTrue, drop 4 s)
          else if startswith s (u "false") then Some (JFalse, drop 5 s)
          else None
      end
  end
(** the loop of [JSONArray], entered before a value *)
with parse_items (fuel : nat) (s : str) : option (list json * str) :=
  match fuel with
  | O => None
  | S fuel =>
      '(value, k) ← scan_once fuel s;
      match skip_ws k with
      | [] => None
      | c :: k' =>
          if (c =? 93)%N then Some ([value], k')
          else if (c =? 44)%N then
            '(values, k'') ← parse_items fuel (skip_ws k');
            Some (value :: values, k'')
          else None
      end
  end
(** the loop of [JSONObject], entered after the quote that opens a key *)
with parse_members (fuel : nat) (s : str) : option (list (str * json) * str) :=
  match fuel with
  | O => None
  | S fuel =>
      '(key, k) ← scanstring s;
      match skip_ws k with
      | [] => None
      | c :: k1 =>
          if (c =? 58)%N then
            '(value, k2) ← scan_once fuel (skip_ws k1);
            match skip_ws k2 with
            | [] => None
            | c2 :: k3 =>
                if (c2 =? 125)%N then Some ([(key, value)], k3)
                else if (c2 =? 44)%N then
                  match skip_ws k3 with
                  | [] => None
                  | c3 :: k4 =>
                      if (c3 =? 34)%N then
                        '(pairs, k5) ← parse_members fuel k4;
                        Some ((key, value) :: pairs, k5)
                      else None
                  end
                else None
            end
          else None
      end
  end.

(** [json.loads(s)]; [None] stands for [JSONDecodeError]. *)
Definition loads (s : str) : option json :=
  '(obj, k) ← scan_once (S (length s)) (skip_ws s);
  match skip_ws k with
  | [] => Some obj
  | _ :: _ => None
  end.

End Json.
Export Json.

(** ** create_json (source lines 63-75) *)

Definition create_json_body (i : nat) : M json unit :=
  s <~ read i start ;;
  start_time <~ lift (format_time_srt s) ;;
  s' <~ read i start ;;
  d <~ read i duration ;;
  end_time <~ lift (format_time_srt (fadd s' d)) ;;
  t <~ read i text ;;
  append (JObj [(u "in_ts", JStr start_time);
                (u "out_ts", JStr end_time);
                (u "text", JStr (strip t))]).

Definition create_json (fuel : nat) : M json str :=
  for_in fuel 0 create_json_body ;;;
  fun st => Done (dumps 2 (JArr (local st))) st.

(** ** urllib.parse

    [urlparse], the [hostname] property of its result and [parse_qs], as
    they are in CPython 3.11's [Lib/urllib/parse.py], for [str]
    arguments and the default keyword arguments.  What the library
    takes from tables or from other modules is a field of [runtime]. *)

Record runtime := Runtime {
  (** [c.isalnum()] for a character outside ASCII (the Unicode database) *)
  rt_isalnum : char -> bool;
  (** [s.lower()] for a string with characters outside ASCII *)
  rt_lower : str -> str;
  (** [unicodedata.normalize('NFKC', s)] *)
  rt_nfkc : str -> str;
  (** [_check_bracketed_netloc(netloc)], which returns nothing or
      raises (it relies on the [ipaddress] module) *)
  rt_check_bracketed_netloc : str -> exc unit;
  (** [bytes.decode('utf-8', 'replace')], bytes given by their values *)
  rt_utf8_decode : list N -> str
}.

Module Url.
Section WithRuntime.
Variable rt : runtime.

Definition isalnum_char (c : char) : bool :=
  if is_ascii_char c then is_ascii_alnum c else rt_isalnum rt c.

(** [s.isalnum()]: every character is alphanumeric and there is at
    least one. *)
Definition isalnum (s : str) : bool :=
  match s with [] => false | _ :: _ => forallb isalnum_char s end.

Definition ascii_lower_char (c : char) : char :=
  if is_ascii_upper c then (c + 32)%N else c.

(** [s.lower()] *)
Definition lower (s : str) : str :=
  if isascii s then map ascii_lower_char s else rt_lower rt s.

Definition scheme_chars : str :=
  u "abcdefghijklmnopqrstuvwxyzABCDEFGHIJKLMNOPQRSTUVWXYZ0123456789+-.".

Definition uses_params : list str :=
  [[]; u "ftp"; u "hdl"; u "prospero"; u "http"; u "imap"; u "https";
   u "shttp"; u "rtsp"; u "rtspu"; u "sip"; u "sips"; u "mms"; u "sftp";
   u "tel"].

(** [s.find(c)] as the text before and after the first [c], when there
    is one. *)
Definition cut (c : char) (s : str) : option (str * str) :=
  let '(a, found, b) := partition c s in
  if found then Some (a, b) else None.
#[local] Arguments cut c%_N s.

(** [_splitnetloc(url, 2)] applied to [//rest]: [rest] up to the first
    of [/], [?], [#], and what follows from that delimiter on. *)
Fixpoint splitnetloc (rest : str) : str * str :=
  match rest with
  | [] => ([], [])
  | c :: r =>
      if (c =? 47)%N || (c =? 63)%N || (c =? 35)%N then ([], rest)
      else let '(n, k) := splitnetloc r in (c :: n, k)
  end.

(** [_checknetloc(netloc)] returns instead of raising. *)
Definition checknetloc_ok (netloc : str) : bool :=
  match netloc with
  | [] => true
  | _ :: _ =>
      if isascii netloc then true
      else
        let n := remove_char 63 (remove_char 35
                   (remove_char 58 (remove_char 64 netloc))) in
        let netloc2 := rt_nfkc rt n in
        if bool_decide (n = netloc2) then true
        else negb (existsb (fun c => contains c netloc2) (u "/?#@:"))
  end.

Definition invalid_ipv6 : exn := Exn ValueError (u "Invalid IPv6 URL").

Record SplitResult := mkSplit {
  sr_scheme : str; sr_netloc : str; sr_path : str;
  sr_query : str; sr_fragment : str
}.

(** The scheme block of [urlsplit]: [i = url.find(':')] and what
    follows, giving the scheme and the rest of the text. *)
Definition split_scheme (url : str) : str * str :=
  match url, cut 58 url with
  | c0 :: _, Some (a :: pre, post) =>
      if is_ascii_char c0 && is_ascii_alpha c0
         && forallb (fun c => contains c scheme_chars) (a :: pre)
      then (lower (a :: pre), post) else ([], url)
  | _, _ => ([], url)
  end.

(** The netloc block of [urlsplit]: [if url[:2] == '//'] and what
    follows, giving the netloc and the rest of the text. *)
Definition split_netloc (url : str) : exc (str * str) :=
  if startswith url (u "//") then
    let '(netloc, url') := splitnetloc (drop 2 url) in
    let ob := contains 91 netloc in
    let cb := contains 93 netloc in
    if (ob && negb cb) || (cb && negb ob) then Raise invalid_ipv6
    else if ob && cb then
      _ ← rt_check_bracketed_netloc rt netloc; Ok (netloc, url')
    else Ok (netloc, url')
  else Ok ([], url).

(** [url.split(c, 1)] when [c in url], as the pair of the two parts *)
Definition split_at (c : char) (url : str) : str * str :=
  match cut c url with Some (a, b) => (a, b) | None => (url, []) end.

(** [urlsplit(url)] *)
Definition urlsplit (url : str) : exc SplitResult :=
  let url := lstrip_by (fun c => (c <=? 32)%N) url in
  let url := remove_char 10 (remove_char 13 (remove_char 9 url)) in
  let '(scheme, url) := split_scheme url in
  '(netloc, url) ← split_netloc url;
  let '(url, fragment) := split_at 35 url in
  let '(url, query) := split_at 63 url in
  if checknetloc_ok netloc
  then Ok (mkSplit scheme netloc url query fragment)
  else Raise (Exn ValueError
                (u "netloc '" ++ netloc
                 ++ u "' contains invalid characters under NFKC normalization")).

(** [_splitparams(url)] for a [url] that contains [;] *)
Definition splitparams (url : str) : str * str :=
  let '(dir, has_slash, last) := rpartition 47 url in
  if has_slash then
    match cut 59 last with
    | Some (a, b) => (dir ++ [47%N] ++ a, b)
    | None => (url, [])
    end
  else
    match cut 59 url with
    | Some (a, b) => (a, b)
    | None => (url, [])
    end.

Record ParseResult := mkParse {
  scheme : str; netloc : str; path : str;
  params : str; query : str; fragment : str
}.

(** [urlparse(url)] *)
Definition urlparse (url : str) : exc ParseResult :=
  sr ← urlsplit url;
  let '(path, params) :=
    if bool_decide (sr_scheme sr ∈ uses_params) && contains 59 (sr_path sr)
    then splitparams (sr_path sr) else (sr_path sr, []) in
  Ok (mkParse (sr_scheme sr) (sr_netloc sr) path params
              (sr_query sr) (sr_fragment sr)).

(** [parsed._hostinfo[0]] *)
Definition hostinfo_host (netloc : str) : str :=
  let '(_, _, hostinfo) := rpartition 64 netloc in
  let '(_, have_open_br, bracketed) := partition 91 hostinfo in
  if have_open_br then
    let '(hostname, _, _) := partition 93 bracketed in hostname
  else
    let '(hostname, _, _) := partition 58 hostinfo in hostname.

(** [parsed.hostname]; [None] is Python's [None]. *)
Definition hostname (p : ParseResult) : option str :=
  match hostinfo_host (netloc p) with
  | [] => None
  | h =>
      let '(host, percent, zone) := partition 37 h in
      Some (lower host ++ (if percent then [37%N] else []) ++ zone)
  end.

(** [unquote_to_bytes] of an ASCII text *)
Definition unquote_item (item : str) : list N :=
  match item with
  | a :: b :: r =>
      match hex_val a, hex_val b with
      | Some x, Some y => (x * 16 + y)%N :: r
      | _, _ => 37%N :: item
      end
  | _ => 37%N :: item
  end.

Definition unquote_to_bytes (s : str) : list N :=
  match split 37 s with
  | [] => s
  | [_] => s
  | first :: items => first ++ flat_map unquote_item items
  end.

(** The leading run of characters that satisfy [p], and the rest. *)
Fixpoint span (p : char -> bool) (s : str) : str * str :=
  match s with
  | c :: r => if p c then let '(a, b) := span p r in (c :: a, b) else ([], s)
  | [] => ([], [])
  end.

(** The loop of [unquote] over the pieces of [_asciire.split]: a run
    outside ASCII is kept, a run of ASCII is decoded. *)
Fixpoint unquote_runs (fuel : nat) (s : str) : str :=
  match fuel, s with
  | _, [] => []
  | O, _ => []
  | S fuel, _ =>
      let '(other, r) := span (fun c => negb (is_ascii_char c)) s in
      let '(run, r') := span is_ascii_char r in
      other
      ++ match run with
         | [] => []
         | _ => rt_utf8_decode rt (unquote_to_bytes run)
         end
      ++ unquote_runs fuel r'
  end.

(** [unquote(s)] *)
Definition unquote (s : str) : str :=
  if contains 37 s then unquote_runs (length s) s else s.

(** [parse_qsl(qs)] *)
Definition parse_qsl (qs : str) : list (str * str) :=
  let query_args := match qs with [] => [] | _ => split 38 qs end in
  flat_map
    (fun name_value =>
       match name_value with
       | [] => []
       | _ =>
           match split1 61 name_value with
           | [n; v] =>
               match v with
               | [] => []
               | _ => [(unquote (replace_char 43 32 n),
                        unquote (replace_char 43 32 v))]
               end
           | _ => []
           end
       end)
    query_args.

(** [parse_qs(qs)]: a [dict] from names to the list of their values *)
Definition parse_qs (qs : str) : gmap str (list str) :=
  fold_left
    (fun parsed_result nv =>
       match parsed_result !! fst nv with
       | Some vs => <[fst nv := vs ++ [snd nv]]> parsed_result
       | None => <[fst nv := [snd nv]]> parsed_result
       end)
    (parse_qsl qs) ∅.

(** ** extract_video_id (source lines 14-28)

    The result [Ok None] is the function's [return None]. *)
Definition extract_video_id (url_or_id : str) : exc (option str) :=
  if (length url_or_id =? 11)%nat && isalnum url_or_id then Ok (Some url_or_id)
  else
    parsed ← urlparse url_or_id;
    if bool_decide (hostname parsed ∈
         [Some (u "www.youtube.com"); Some (u "youtube.com");
          Some (u "m.youtube.com")])
    then
      if bool_decide (path parsed = u "/watch") then
        match default [None] (fmap (M := list) Some <$> parse_qs (query parsed) !! u "v") !! 0%nat with
        | Some r => Ok r
        | None => Raise (Exn IndexError (u "list index out of range"))
        end
      else if startswith (path parsed) (u "/embed/") then
        match split 47 (path parsed) !! 2%nat with
        | Some r => Ok (Some r)
        | None => Raise (Exn IndexError (u "list index out of range"))
        end
      else Ok None
    else if bool_decide (hostname parsed ∈ [Some (u "youtu.be")]) then
      Ok (Some (drop 1 (path parsed)))
    else Ok None.

End WithRuntime.
End Url.
Export Url.

(** ** main (source lines 77-143)

    What [main] asks of its environment is a [world]: the command line,
    whether the transcript library can be imported, the file system and
    the transcript service.  The objects handed out by the service are
    opaque handles. *)

Definition handle := nat.

Record world := World {
  argv : list str;
  (** [from youtube_transcript_api import YouTubeTranscriptApi] *)
  import_api : exc unit;
  (** [outdir = Path.home() / "Desktop" / "youtube_transcripts"]: the
      text [str(outdir)], and [str(outdir / name)] for a file name *)
  outdir : str;
  joinpath : str -> str;
  (** [outdir.mkdir(exist_ok=True)] *)
  mkdir : exc unit;
  (** [os.path.isfile(p)] and [Path(p).stem] *)
  isfile : str -> bool;
  stem : str -> str;
  (** [YouTubeTranscriptApi().list(vid)] *)
  api_list : str -> exc handle;
  (** [transcript_list.find_transcript(['en'])] *)
  find_transcript : handle -> exc handle;
  (** [transcript_list.find_generated_transcript(['en'])] *)
  find_generated_transcript : handle -> exc handle;
  (** [transcript.fetch().to_raw_data()] *)
  fetch_raw_data : handle -> exc (list entry);
  (** [file.write_text(content, encoding='utf-8')] *)
  write_text : str -> str -> exc unit
}.

(** The lines the program prints. *)
Inductive message :=
  | Usage                 (* Usage: get-yt-transcript <YouTube-URL-or-ID> ... *)
  | NotInstalled          (* youtube-transcript-api not installed. Run: ... *)
  | NoVideoId (src : str) (* Couldn't extract video ID from '{src}' *)
  | Downloading (src : str)
  | Target (file : str)
  | TryingGenerated       (* No manual English subtitles found, trying ... *)
  | Saved (dir : str)
  | ErrorLine (text : str) (* Error: {e} *)
  | Traceback (e : exn).   (* the interpreter's report of an uncaught exception *)

(** What can be observed of a run: the exit status, both output streams
    and the files written, each in order. *)
Record run := Run {
  status : Z;
  stdout : list message;
  stderr : list message;
  files : list (str * str)
}.

(** A call [create_xxx(raw_data)] from [main]: the renderer runs on a
    store that holds [raw_data]; [None] when the fuel given to the loop
    did not suffice. *)
Definition call {X} (renderer : nat -> M X str) (raw_data : list entry)
  : option (exc str) :=
  match renderer (S (length raw_data)) (Store raw_data []) with
  | Done s _ => Some (Ok s)
  | Raised e _ => Some (Raise e)
  | OutOfFuel => None
  end.

(** The interpreter ends a run on an uncaught exception with a
    traceback on stderr and status 1. *)
Definition uncaught (out err : list message) (fs : list (str * str)) (e : exn) : run :=
  Run 1 out (err ++ [Traceback e]) fs.

(** [sys.exit(1)] after [print(msg, file=sys.stderr)] *)
Definition exit1 (out err : list message) (fs : list (str * str)) (msg : message) : run :=
  Run 1 out (err ++ [msg]) fs.

Section Main.
Variable rt : runtime.
Variable w : world.

(** Lines 99-101: the name the three files share. *)
Definition basename (vid : str) : str :=
  match argv w with
  | _ :: _ :: f :: _ => if isfile w f then stem w f else vid
  | _ => vid
  end.

(** Lines 103-105: [outdir / f"{basename}{suffix}"] *)
Definition target (vid suffix : str) : str := joinpath w (basename vid ++ suffix).

(** Lines 112-139, the body of the outer [try]: the lines printed, the
    files written and how the block ended. *)
Definition try_body (vid : str) (srt_file md_file json_file : str)
  : option (list message * list (str * str) * exc unit) :=
  match api_list w vid with
  | Raise e => Some ([], [], Raise e)
  | Ok transcript_list =>
      let '(out, found) :=
        match find_transcript w transcript_list with
        | Ok t => ([], Ok t)
        | Raise _ =>
            ([TryingGenerated], find_generated_transcript w transcript_list)
        end in
      match found with
      | Raise e => Some (out, [], Raise e)
      | Ok transcript =>
          match fetch_raw_data w transcript with
          | Raise e => Some (out, [], Raise e)
          | Ok raw_data =>
              srt ← call create_srt raw_data;
              match srt with
              | Raise e => Some (out, [], Raise e)
              | Ok srt_content =>
                  match write_text w srt_file srt_content with
                  | Raise e => Some (out, [], Raise e)
                  | Ok _ =>
                      let fs1 := [(srt_file, srt_content)] in
                      md ← call create_markdown raw_data;
                      match md with
                      | Raise e => Some (out, fs1, Raise e)
                      | Ok md_content =>
                          match write_text w md_file md_content with
                          | Raise e => Some (out, fs1, Raise e)
                          | Ok _ =>
                              let fs2 := fs1 ++ [(md_file, md_content)] in
                              js ← call create_json raw_data;
                              match js with
                              | Raise e => Some (out, fs2, Raise e)
                              | Ok json_content =>
                                  match write_text w json_file json_content with
                                  | Raise e => Some (out, fs2, Raise e)
                                  | Ok _ =>
                                      Some (out ++ [Saved (outdir w)],
                                            fs2 ++ [(json_file, json_content)],
                                            Ok tt)
                                  end
                              end
                          end
                      end
                  end
              end
          end
      end
  end.

Definition main : option run :=
  match argv w with
  | [] | [_] => Some (exit1 [] [] [] Usage)
  | _ :: src :: _ =>
      match import_api w with
      | Raise e =>
          match exn_class_of e with
          | ImportError => Some (exit1 [] [] [] NotInstalled)
          | _ => Some (uncaught [] [] [] e)
          end
      | Ok _ =>
          match extract_video_id rt src with
          | Raise e => Some (uncaught [] [] [] e)
          | Ok None | Ok (Some []) => Some (exit1 [] [] [] (NoVideoId src))
          | Ok (Some vid) =>
              match mkdir w with
              | Raise e => Some (uncaught [] [] [] e)
              | Ok _ =>
                  let srt_file := target vid (u ".en.srt") in
                  let md_file := target vid (u ".md") in
                  let json_file := target vid (u ".json") in
                  let out := [Downloading src; Target srt_file;
                              Target md_file; Target json_file] in
                  '(out', fs, r) ← try_body vid srt_file md_file json_file;
                  match r with
                  | Ok _ => Some (Run 0 (out ++ out') [] fs)
                  | Raise e => Some (exit1 (out ++ out') [] fs (ErrorLine (exn_msg e)))
                  end
              end
          end
      end
  end.
End Main.

(** ** The specification's vocabulary

    The definitions below do not come from the source: they say what the
    specification says, and the theorems compare them with the code. *)

(** Specification 4.2, on the exact value of an offset of [a] units of
    2^-1074 seconds: hours = floor(seconds/3600), minutes =
    floor(remainder/60), seconds = floor(remainder), milliseconds =
    floor(fractional part * 1000). *)
Definition hours_of (a : Z) : Z := a / (3600 * one).
Definition minutes_of (a : Z) : Z := (a mod (3600 * one)) / (60 * one).
Definition seconds_of (a : Z) : Z := (a mod (60 * one)) / one.
Definition millis_floor (a : Z) : Z := (1000 * (a mod one)) / one.

(** The text [HH:MM:SS,mmm] of four fields. *)
Definition hhmmss (h m s ms : Z) : str :=
  format_0d 2 h ++ u ":" ++ format_0d 2 m ++ u ":" ++ format_0d 2 s
  ++ u "," ++ format_0d 3 ms.

(** The units of a finite float. *)
Definition units_of (x : float) : Z :=
  match x with Fin n => n | _ => 0 end.

(** 3661.999 seconds, the offset of the specification's example, in
    units. *)
Definition example_offset : Z := units_of (of_ratio 3661999 1000).

(** A text of exactly [w] decimal digits. *)
Definition digits_of_width (w : nat) (s : str) : bool :=
  (length s =? w)%nat && forallb is_ascii_digit s.

(** The time formatter's text for an offset it accepts. *)
Definition time_str (x : float) : str :=
  match format_time_srt x return str with Ok s => s | Raise _ => [] end.

Definition is_Ok {A} (r : exc A) : Prop := exists a, r = Ok a.

(** The time formatter accepts the start and the end of the entry. *)
Definition formattable (e : entry) : Prop :=
  is_Ok (format_time_srt (start e))
  /\ is_Ok (format_time_srt (fadd (start e) (duration e))).

(** Specification 4.3: the four lines of the block with the given counter. *)
Definition srt_block (counter : nat) (e : entry) : list str :=
  [ str_of_int (Z.of_nat counter);
    time_str (start e) ++ u " --> " ++ time_str (fadd (start e) (duration e));
    strip (text e);
    [] ].

Definition srt_lines (data : list entry) : list str :=
  concat (imap (fun i e => srt_block (S i) e) data).

(** Specification 4.4: the trimmed texts that are not empty. *)
Definition md_lines (data : list entry) : list str :=
  filter (fun t => t <> []) (map (fun e => strip (text e)) data).

(** Specification 4.5: the record of an entry. *)
Definition json_record (e : entry) : json :=
  JObj [ (u "in_ts", JStr (time_str (start e)));
         (u "out_ts", JStr (time_str (fadd (start e) (duration e))));
         (u "text", JStr (strip (text e))) ].

(** No object of the value has the same key twice. *)
Fixpoint distinct_keys (o : json) : bool :=
  match o with
  | JArr items => forallb distinct_keys items
  | JObj members =>
      bool_decide (NoDup (map fst members))
      && forallb (fun kv => distinct_keys (snd kv)) members
  | _ => true
  end.

(** The host names of the long URL shapes and of the short link. *)
Definition youtube_hosts : list str :=
  [u "www.youtube.com"; u "youtube.com"; u "m.youtube.com"].
Definition short_host : str := u "youtu.be".

(** The raw-ID shape: 11 alphanumeric characters. *)
Definition raw_id (rt : runtime) (s : str) : bool :=
  (length s =? 11)%nat && isalnum rt s.

(** The characters of video identifiers: ASCII letters and digits,
    [-] and [_]. *)
Definition id_char (c : char) : bool :=
  is_ascii_alnum c || (c =? 45)%N || (c =? 95)%N.

(** A character that means nothing to [urlparse] and [parse_qs]: above
    the space, and none of [# % & + / : ; ?]. *)
Definition url_inert (c : char) : bool :=
  (32 <? c)%N && negb (existsb (N.eqb c) [35; 37; 38; 43; 47; 58; 59; 63]%N).

(** A text whose characters all satisfy [url_inert]. *)
Definition inert (s : str) : Prop := forallb url_inert s = true.

(** The shape [scheme://host/path?query] in its plainest form: a host of
    printable ASCII without [/ ? # [ ] @ : %], a path that is empty or
    begins with [/] and has no [? # ;], a query without [#]; no blanks
    or control characters anywhere. *)
Definition host_plain (h : str) : bool :=
  forallb (fun c => is_ascii_char c && (32 <? c)%N
                    && negb (existsb (N.eqb c) [47; 63; 35; 91; 93; 64; 58; 37]%N)) h.
Definition path_plain (p : str) : bool :=
  match p with [] => true | c :: _ => (c =? 47)%N end
  && forallb (fun c => (32 <? c)%N && negb (existsb (N.eqb c) [63; 35; 59]%N)) p.
Definition query_plain (q : str) : bool :=
  forallb (fun c => (32 <? c)%N && negb (c =? 35)%N) q.

(** [path?query], or [path] alone when there is no query. *)
Definition with_query (path : str) (q : option str) : str :=
  match q with Some query => path ++ 63%N :: query | None => path end.

(** The store a run ends with, if it ends. *)
Definition final_store {X A} (o : @outcome X A) : option (store X) :=
  match o with
  | Done _ st | Raised _ st => Some st
  | OutOfFuel => None
  end.

(** The example of specification section 8. *)
Definition example_entries : list entry :=
  [ Entry (u " hi ") (of_int 0) (of_int 2);
    Entry [] (of_int 2) (of_ratio 15 10) ].

(** The runtime on texts that need none of its tables: ASCII text
    without a bracketed host.  No character outside ASCII is
    alphanumeric, nothing outside ASCII is folded or normalised, a
    bracketed host is refused and bytes below 128 decode to themselves.
    The examples use it on such texts only. *)
Definition ascii_runtime : runtime :=
  Runtime (fun _ => false) (fun s => s) (fun s => s)
          (fun _ => Raise invalid_ipv6) (fun b => b).

(** Two identifiers for the examples, the second with a [-] and a [_]. *)
Definition example_id : str := u "dQw4w9WgXcQ".
Definition example_dashed_id : str := u "a-c_e1g2i3k".

Definition is_Raise {A} (r : exc A) : Prop := exists e, r = Raise e.

(** The steps of lines 112-137 all succeed, the transcript being found
    by the lookup of manual subtitles or, when that raises, by the
    lookup of generated captions; [fs] are the files written. *)
Definition try_succeeds (w : world) (vid srt_file md_file json_file : str)
    (fs : list (str * str)) : Prop :=
  exists tl t data srt md js,
    api_list w vid = Ok tl
    /\ (find_transcript w tl = Ok t
        \/ is_Raise (find_transcript w tl) /\ find_generated_transcript w tl = Ok t)
    /\ fetch_raw_data w t = Ok data
    /\ call create_srt data = Some (Ok srt)
    /\ write_text w srt_file srt = Ok tt
    /\ call create_markdown data = Some (Ok md)
    /\ write_text w md_file md = Ok tt
    /\ call create_json data = Some (Ok js)
    /\ write_text w json_file js = Ok tt
    /\ fs = [(srt_file, srt); (md_file, md); (json_file, js)].

(** Every step of the run succeeds: there is a reference, the library
    is imported, the reference gives a video ID that is not empty, the
    directory is made, and the steps above succeed. *)
Definition run_succeeds (rt : runtime) (w : world) (fs : list (str * str)) : Prop :=
  exists prog src rest vid,
    argv w = prog :: src :: rest
    /\ import_api w = Ok tt
    /\ extract_video_id rt src = Ok (Some vid) /\ vid <> []
    /\ mkdir w = Ok tt
    /\ try_succeeds w vid (target w vid (u ".en.srt")) (target w vid (u ".md"))
         (target w vid (u ".json")) fs.

(** A world for the examples: the reference is a raw ID, every step
    succeeds and the transcript is that of specification section 8. *)
Definition example_world : world :=
  World [u "get-yt-transcript"; example_id] (Ok tt)
        (u "/home/u/Desktop/youtube_transcripts")
        (fun name => u "/home/u/Desktop/youtube_transcripts/" ++ name)
        (Ok tt) (fun _ => false) (fun f => f)
        (fun _ => Ok 0%nat) (fun _ => Ok 1%nat) (fun _ => Ok 2%nat)
        (fun _ => Ok example_entries) (fun _ _ => Ok tt).

(** The same world, but the lookup of manual subtitles fails for a
    reason of its own. *)
Definition fallback_world : world :=
  World [u "get-yt-transcript"; example_id] (Ok tt)
        (u "/home/u/Desktop/youtube_transcripts")
        (fun name => u "/home/u/Desktop/youtube_transcripts/" ++ name)
        (Ok tt) (fun _ => false) (fun f => f)
        (fun _ => Ok 0%nat)
        (fun _ => Raise (Exn OSError (u "connection reset by peer")))
        (fun _ => Ok 2%nat)
        (fun _ => Ok example_entries) (fun _ _ => Ok tt).

(** What a run shows: its status and its two streams. *)
Definition shown (r : run) : Z * list message * list message :=
  (status r, stdout r, stderr r).

(** The four lines [main] prints before it fetches (source lines
    107-110). *)
Definition progress (w : world) (src vid : str) : list message :=
  [ Downloading src; Target (target w vid (u ".en.srt"));
    Target (target w vid (u ".md")); Target (target w vid (u ".json")) ].

(** The run reaches the [try] block with the reference [src] and the
    video ID [vid]. *)
Definition reaches_try (rt : runtime) (w : world) (src vid : str) : Prop :=
  exists prog rest,
    argv w = prog :: src :: rest
    /\ import_api w = Ok tt
    /\ extract_video_id rt src = Ok (Some vid) /\ vid <> []
    /\ mkdir w = Ok tt.

(** The fetch phase gives the transcript [data] after printing [out]:
    nothing when the manual subtitles are found, the fallback notice
    when their lookup raised and the generated captions are found. *)
Definition fetches (w : world) (vid : str) (out : list message)
    (data : list entry) : Prop :=
  exists tl t,
    api_list w vid = Ok tl
    /\ (find_transcript w tl = Ok t /\ out = []
        \/ is_Raise (find_transcript w tl)
           /\ find_generated_transcript w tl = Ok t /\ out = [TryingGenerated])
    /\ fetch_raw_data w t = Ok data.

(** How the [try] block fails: the exception [e] of the first step that
    raises, the lines printed inside the block until then and the files
    written until then.  The steps are the listing of the transcripts,
    the lookup (of manual subtitles, then, if that raises, of generated
    captions: only the exception of the second lookup ends the block),
    the fetch, and for each of the three files its rendering and its
    writing, in the order subtitle, Markdown, JSON. *)
Inductive try_failure (w : world) (vid srt_file md_file json_file : str)
  : exn -> list message -> list (str * str) -> Prop :=
  | fail_list e :
      api_list w vid = Raise e ->
      try_failure w vid srt_file md_file json_file e [] []
  | fail_lookups tl e :
      api_list w vid = Ok tl ->
      is_Raise (find_transcript w tl) ->
      find_generated_transcript w tl = Raise e ->
      try_failure w vid srt_file md_file json_file e [TryingGenerated] []
  | fail_fetch tl t out e :
      api_list w vid = Ok tl ->
      (find_transcript w tl = Ok t /\ out = []
       \/ is_Raise (find_transcript w tl)
          /\ find_generated_transcript w tl = Ok t /\ out = [TryingGenerated]) ->
      fetch_raw_data w t = Raise e ->
      try_failure w vid srt_file md_file json_file e out []
  | fail_srt out data e :
      fetches w vid out data ->
      call create_srt data = Some (Raise e) ->
      try_failure w vid srt_file md_file json_file e out []
  | fail_srt_write out data srt e :
      fetches w vid out data ->
      call create_srt data = Some (Ok srt) ->
      write_text w srt_file srt = Raise e ->
      try_failure w vid srt_file md_file json_file e out []
  | fail_md out data srt e :
      fetches w vid out data ->
      call create_srt data = Some (Ok srt) ->
      write_text w srt_file srt = Ok tt ->
      call create_markdown data = Some (Raise e) ->
      try_failure w vid srt_file md_file json_file e out [(srt_file, srt)]
  | fail_md_write out data srt md e :
      fetches w vid out data ->
      call create_srt data = Some (Ok srt) ->
      write_text w srt_file srt = Ok tt ->
      call create_markdown data = Some (Ok md) ->
      write_text w md_file md = Raise e ->
      try_failure w vid srt_file md_file json_file e out [(srt_file, srt)]
  | fail_json out data srt md e :
      fetches w vid out data ->
      call create_srt data = Some (Ok srt) ->
      write_text w srt_file srt = Ok tt ->
      call create_markdown data = Some (Ok md) ->
      write_text w md_file md = Ok tt ->
      call create_json data = Some (Raise e) ->
      try_failure w vid srt_file md_file json_file e out
        [(srt_file, srt); (md_file, md)]
  | fail_json_write out data srt md js e :
      fetches w vid out data ->
      call create_srt data = Some (Ok srt) ->
      write_text w srt_file srt = Ok tt ->
      call create_markdown data = Some (Ok md) ->
      write_text w md_file md = Ok tt ->
      call create_json data = Some (Ok js) ->
      write_text w json_file js = Raise e ->
      try_failure w vid srt_file md_file json_file e out
        [(srt_file, srt); (md_file, md)].

(** How a run fails: the one message on stderr, the lines on stdout and
    the files written.  Without a reference the message is the usage
    line; a library that cannot be imported gives the install hint (an
    [ImportError]) or a traceback (any other exception); an exception of
    [extract_video_id] or of [mkdir] gives a traceback; a reference
    without a video ID gives the warning that names it; a failure inside
    the [try] block gives the error line with the message of its
    exception, after the progress lines. *)
Inductive failure (rt : runtime) (w : world)
  : message -> list message -> list (str * str) -> Prop :=
  | fail_no_reference :
      (length (argv w) < 2)%nat -> failure rt w Usage [] []
  | fail_not_installed prog src rest e :
      argv w = prog :: src :: rest ->
      import_api w = Raise e -> exn_class_of e = ImportError ->
      failure rt w NotInstalled [] []
  | fail_import prog src rest e :
      argv w = prog :: src :: rest ->
      import_api w = Raise e -> exn_class_of e <> ImportError ->
      failure rt w (Traceback e) [] []
  | fail_extract prog src rest e :
      argv w = prog :: src :: rest -> import_api w = Ok tt ->
      extract_video_id rt src = Raise e ->
      failure rt w (Traceback e) [] []
  | fail_no_video_id prog src rest :
      argv w = prog :: src :: rest -> import_api w = Ok tt ->
      extract_video_id rt src = Ok None \/ extract_video_id rt src = Ok (Some []) ->
      failure rt w (NoVideoId src) [] []
  | fail_mkdir prog src rest vid e :
      argv w = prog :: src :: rest -> import_api w = Ok tt ->
      extract_video_id rt src = Ok (Some vid) -> vid <> [] ->
      mkdir w = Raise e ->
      failure rt w (Traceback e) [] []
  | fail_in_try src vid e out fs :
      reaches_try rt w src vid ->
      try_failure w vid (target w vid (u ".en.srt")) (target w vid (u ".md"))
        (target w vid (u ".json")) e out fs ->
      failure rt w (ErrorLine (exn_msg e)) (progress w src vid ++ out) fs.

(** The largest finite binary64 number, and a transcript of one entry
    that starts there and lasts as long: start and duration are finite
    and not negative, their sum is not finite. *)
Definition largest_finite : float := Eval vm_compute in Fin (2 ^ 2098 - 2 ^ 2045).

Definition overflow_entries : list entry :=
  [ Entry (u "late") largest_finite largest_finite ].

(** A transcript of one entry whose text has two lines. *)
Definition two_line_entries : list entry :=
  [ Entry (u "a" ++ newline ++ u "b") (of_int 0) (of_int 1) ].

(** ** Notions of the proofs *)

(** [n] units is a multiple of the spacing of the floats at [n]. *)
Definition on_grid (n : Z) : Prop := n mod 2 ^ shift_of n = 0.

(** A computation that ends, and leaves the caller's list as it was. *)
Definition keeps_input {X A} (m : M X A) : Prop :=
  forall st, exists st',
    final_store (m st) = Some st' /\ transcript_data st' = transcript_data st.

Section JsonInd.
Variable P : json -> Prop.
Hypothesis Hnull : P JNull.
Hypothesis Htrue : P JTrue.
Hypothesis Hfalse : P JFalse.
Hypothesis Hstr : forall s, P (JStr s).
Hypothesis Harr : forall items, Forall P items -> P (JArr items).
Hypothesis Hobj : forall members, Forall (fun kv => P (snd kv)) members -> P (JObj members).

(** Induction on a value with the hypothesis for every item and member. *)
Fixpoint json_nested_ind (o : json) : P o :=
  match o with
  | JNull => Hnull
  | JTrue => Htrue
  | JFalse => Hfalse
  | JStr s => Hstr s
  | JArr items =>
      Harr items
        ((fix go (l : list json) : Forall P l :=
            match l with
            | [] => Forall_nil_2 P
            | x :: r => Forall_cons_2 P x r (json_nested_ind x) (go r)
            end) items)
  | JObj members =>
      Hobj members
        ((fix go (l : list (str * json)) : Forall (fun kv => P (snd kv)) l :=
            match l with
            | [] => Forall_nil_2 _
            | kv :: r => Forall_cons_2 _ kv r (json_nested_ind (snd kv)) (go r)
            end) members)
  end.
End JsonInd.

(** A text that begins like a JSON value of the fragment. *)
Definition value_head (s : str) : Prop :=
  exists c k, s = c :: k
    /\ (c = 34 \/ c = 91 \/ c = 123 \/ c = 110 \/ c = 116 \/ c = 102)%N.

(** What the induction proves of a value: the decoder reads its
    encoding, whatever follows, when given more fuel than the encoding
    has characters. *)
Definition reads_back (ind : nat) (o : json) : Prop :=
  forall level rest fuel,
    (length (iterencode ind level o) < fuel)%nat ->
    scan_once fuel (iterencode ind level o ++ rest) = Some (o, rest).

(** The text between two items of a list or two members of an object,
    and the text of a member, at nesting depth [level]. *)
Definition item_sep (ind level : nat) : str :=
  44%N :: newline_indent ind (S level).

Definition member_text (ind level : nat) (kv : str * json) : str :=
  encode_basestring (fst kv) ++ u ": " ++ iterencode ind (S level) (snd kv).

(** ** Vocabulary of the further properties *)

(** The values a query string gives to the parameter [name], in the
    order of the query. *)
Definition query_values (rt : runtime) (name qs : str) : list str :=
  map snd (filter (fun nv => fst nv = name) (parse_qsl rt qs)).

(** A text without blanks, control characters and [:]. *)
Definition no_colon (s : str) : bool :=
  forallb (fun c => (32 <? c)%N && negb (c =? 58)%N) s.

(** Worlds for the examples: the command line, the result of making
    the directory, of the lookup of manual subtitles, of the lookup of
    generated captions and of the fetch, and the file system's answer
    to a write, are given; the rest is as in [example_world]. *)
Definition world_of (args : list str) (mk : exc unit)
    (manual generated : exc handle) (data : exc (list entry))
    (write : str -> str -> exc unit) : world :=
  World args (Ok tt)
        (u "/home/u/Desktop/youtube_transcripts")
        (fun name => u "/home/u/Desktop/youtube_transcripts/" ++ name)
        mk (fun _ => false) (fun f => f)
        (fun _ => Ok 0%nat) (fun _ => manual) (fun _ => generated)
        (fun _ => data) write.

Definition example_args : list str := [u "get-yt-transcript"; example_id].

(** A file system on which only Markdown files cannot be written. *)
Definition refuses_md (file content : str) : exc unit :=
  if bool_decide (file = u "/home/u/Desktop/youtube_transcripts/dQw4w9WgXcQ.md")
  then Raise (Exn OSError (u "No space left on device"))
  else Ok tt.

(** The text of one subtitle block: the counter, the timing line and the
    trimmed text, each followed by a newline. *)
Definition srt_block_text (counter : nat) (e : entry) : str :=
  str_of_int (Z.of_nat counter) ++ newline
  ++ (time_str (start e) ++ u " --> " ++ time_str (fadd (start e) (duration e)))
  ++ newline ++ strip (text e) ++ newline.

(** A text that is not empty and has no whitespace at either end. *)
Definition trimmed (t : str) : Prop :=
  t <> []
  /\ (forall c, head t = Some c -> is_space c = false)
  /\ (forall c, last t = Some c -> is_space c = false).

(** The exception the formatter raises on the start or, failing that,
    on the end of an entry. *)
Definition time_error (e : entry) : option exn :=
  match format_time_srt (start e) with
  | Raise x => Some x
  | Ok _ =>
      match format_time_srt (fadd (start e) (duration e)) with
      | Raise x => Some x
      | Ok _ => None
      end
  end.

(** A transcript whose second entry has no start the formatter
    accepts. *)
Definition bad_entries : list entry :=
  [ Entry (u " hi ") (of_int 0) (of_int 2);
    Entry (u "lost") NaN (of_int 1);
    Entry (u "never read") (of_int 3) (of_int 1) ].

Definition md_full_world : world :=
  world_of example_args (Ok tt) (Ok 1%nat) (Ok 2%nat) (Ok example_entries) refuses_md.

Definition no_captions_world : world :=
  world_of example_args (Ok tt)
    (Raise (Exn OtherException (u "no manual transcript")))
    (Raise (Exn OtherException (u "no generated transcript")))
    (Ok example_entries) (fun _ _ => Ok tt).

Definition bad_time_world : world :=
  world_of example_args (Ok tt) (Ok 1%nat) (Ok 2%nat) (Ok bad_entries)
    (fun _ _ => Ok tt).

Definition malformed_world : world :=
  world_of [u "get-yt-transcript"; u "http://["] (Ok tt) (Ok 1%nat) (Ok 2%nat)
    (Ok example_entries) (fun _ _ => Ok tt).

Definition no_desktop_world : world :=
  world_of example_args (Raise (Exn OSError (u "No such file or directory")))
    (Ok 1%nat) (Ok 2%nat) (Ok example_entries) (fun _ _ => Ok tt).

(** A text between double quotes. *)
Definition quoted (s : str) : str := [34%N] ++ s ++ [34%N].

(** A character the JSON encoder writes as it is. *)
Definition json_plain (c : char) : bool :=
  (32 <=? c)%N && negb (c =? 34)%N && negb (c =? 92)%N.

(** The text of one record of the structured output, at the nesting
    depth of the records. *)
Definition json_record_text (e : entry) : str :=
  u "{" ++ newline ++ u "    "
  ++ quoted (u "in_ts") ++ u ": " ++ quoted (time_str (start e))
  ++ u "," ++ newline ++ u "    "
  ++ quoted (u "out_ts") ++ u ": "
  ++ quoted (time_str (fadd (start e) (duration e)))
  ++ u "," ++ newline ++ u "    "
  ++ quoted (u "text") ++ u ": " ++ encode_basestring (strip (text e))
  ++ newline ++ u "  }".


(** ** Rounding to binary64 *)

Section Rounding.
Local Open Scope Z_scope.

Lemma shift_of_nonneg t : 0 <= shift_of t.
Proof. unfold shift_of. lia. Qed.

Lemma shift_of_mono t t' : t <= t' -> shift_of t <= shift_of t'.
Proof. intros H. unfold shift_of. pose proof (Z.log2_le_mono t t' H). lia. Qed.

(** Below 2^(e+53) the spacing is at most 2^e. *)
Lemma shift_of_le e n : 0 <= e -> n < 2 ^ (e + 53) -> shift_of n <= e.
Proof.
  intros He Hn. unfold shift_of.
  destruct (Z.le_gt_cases n 0) as [H0|H0].
  - rewrite Z.log2_nonpos by assumption. lia.
  - apply Z.log2_lt_pow2 in Hn; lia.
Qed.

(** From 2^(s+52) on, with [s = shift_of t > 0]. *)
Lemma shift_of_lower t : 0 < shift_of t -> 2 ^ (shift_of t + 52) <= t.
Proof.
  unfold shift_of. intros H.
  assert (0 < t) as Ht.
  { destruct (Z.le_gt_cases t 0) as [H0|H0]; [|done].
    rewrite Z.log2_nonpos in H by assumption. lia. }
  replace (Z.max 0 (Z.log2 t - 52) + 52) with (Z.log2 t) by lia.
  apply Z.log2_spec. exact Ht.
Qed.

Lemma shift_of_upper t : 0 <= t -> t < 2 ^ (shift_of t + 53).
Proof.
  intros Ht. unfold shift_of.
  destruct (Z.eq_dec t 0) as [->|Hne].
  - cbn. lia.
  - pose proof (Z.log2_spec t ltac:(lia)) as [_ Hu].
    eapply Z.lt_le_trans; [exact Hu|].
    apply Z.pow_le_mono_r; lia.
Qed.

Lemma on_grid_multiple e n :
  0 <= e -> 0 <= n < 2 ^ (e + 53) -> (2 ^ e | n) -> on_grid n.
Proof.
  intros He [Hn0 Hn] [m ->]. unfold on_grid.
  pose proof (shift_of_le e _ He Hn) as Hs.
  pose proof (shift_of_nonneg (m * 2 ^ e)) as Hs0.
  apply Z.mod_divide; [apply Z.pow_nonzero; lia|].
  exists (m * 2 ^ (e - shift_of (m * 2 ^ e))).
  rewrite <- Z.mul_assoc, <- Z.pow_add_r by lia. do 2 f_equal. lia.
Qed.

Lemma on_grid_divide n s : on_grid n -> 0 <= s <= shift_of n -> (2 ^ s | n).
Proof.
  unfold on_grid. intros H Hs.
  apply Z.mod_divide in H; [|apply Z.pow_nonzero; lia].
  destruct H as [m ->]. exists (m * 2 ^ (shift_of n - s)).
  rewrite <- Z.mul_assoc, <- Z.pow_add_r by lia. do 2 f_equal. lia.
Qed.

Lemma representable_spec n :
  representable n = true <-> on_grid (Z.abs n) /\ Z.abs n < overflow_threshold.
Proof.
  unfold representable, on_grid.
  rewrite andb_true_iff, Z.eqb_eq, Z.ltb_lt. reflexivity.
Qed.

(** *** Rounding a quotient to an integer *)

Lemma rne_quot_lower p q c : 0 < q -> c * q <= p -> c <= rne_quot p q.
Proof.
  intros Hq Hc. unfold rne_quot.
  assert (c <= p / q) by (apply Z.div_le_lower_bound; lia).
  repeat case_match; lia.
Qed.

(** Anything below [c + 1/2] is rounded to [c] at most. *)
Lemma rne_quot_upper_half p q c : 0 < q -> 2 * p < (2 * c + 1) * q -> rne_quot p q <= c.
Proof.
  intros Hq Hc. unfold rne_quot.
  pose proof (Z.div_mod p q ltac:(lia)) as E.
  pose proof (Z.mod_pos_bound p q Hq) as B.
  assert (p / q < c + 1) by (apply Z.div_lt_upper_bound; nia).
  destruct (Z.ltb_spec (2 * (p mod q)) q); [lia|].
  assert (p / q < c) by nia.
  repeat case_match; lia.
Qed.

Lemma rne_quot_upper p q c : 0 < q -> p <= c * q -> rne_quot p q <= c.
Proof. intros Hq Hc. apply rne_quot_upper_half; lia. Qed.

Lemma rne_quot_exact q m : 0 < q -> rne_quot (m * q) q = m.
Proof.
  intros Hq. apply Z.le_antisymm.
  - apply rne_quot_upper; lia.
  - apply rne_quot_lower; lia.
Qed.

(** *** Rounding to a 53-bit significand *)

Section RoundPos.
Variables p q : Z.
Hypothesis Hp : 0 <= p.
Hypothesis Hq : 0 < q.

Local Abbreviation t := (p / q).
Local Abbreviation s := (shift_of (p / q)).

Lemma quotient_nonneg : 0 <= t.
Proof. apply Z.div_pos; assumption. Qed.

Lemma grid_pos : 0 < 2 ^ s.
Proof. apply Z.pow_pos_nonneg; [lia | apply shift_of_nonneg]. Qed.

(** A number of the grid that is not below [p/q] is not below its
    rounding. *)
Lemma round_pos_upper c : on_grid c -> p <= c * q -> round_pos p q <= c.
Proof.
  intros Hc Hpc. unfold round_pos. fold t s.
  pose proof grid_pos as Hg. pose proof quotient_nonneg as Ht.
  assert (t <= c) as Htc by (apply Z.div_le_upper_bound; lia).
  destruct (on_grid_divide c s Hc) as [m ->].
  { split; [apply shift_of_nonneg | by apply shift_of_mono]. }
  apply Z.mul_le_mono_nonneg_r; [lia|].
  apply rne_quot_upper; nia.
Qed.

(** A number of the grid that is not above [p/q] is not above its
    rounding. *)
Lemma round_pos_lower c : 0 <= c -> on_grid c -> c * q <= p -> c <= round_pos p q.
Proof.
  intros Hc0 Hc Hpc. unfold round_pos. fold t s.
  pose proof grid_pos as Hg. pose proof quotient_nonneg as Ht.
  assert (c <= t) as Hct by (apply Z.div_le_lower_bound; lia).
  pose proof (shift_of_mono _ _ Hct) as Hs. fold s in Hs.
  assert (t / 2 ^ s <= rne_quot p (q * 2 ^ s)) as Hr.
  { apply rne_quot_lower; [nia|].
    pose proof (Z.mul_div_le t (2 ^ s) Hg).
    pose proof (Z.mul_div_le p q Hq). fold t in H0. nia. }
  destruct (Z.eq_dec (shift_of c) s) as [E|E].
  - destruct (on_grid_divide c s Hc) as [m ->];
      [split; [apply shift_of_nonneg | lia]|].
    apply Z.mul_le_mono_nonneg_r; [lia|].
    etransitivity; [|exact Hr]. apply Z.div_le_lower_bound; lia.
  - assert (0 < s) as Hs0 by (pose proof (shift_of_nonneg c); lia).
    pose proof (shift_of_lower t Hs0) as Hlow. fold s in Hlow.
    pose proof (shift_of_upper c Hc0) as Hup.
    assert (2 ^ (shift_of c + 53) <= 2 ^ (s + 52)) as Hle
      by (apply Z.pow_le_mono_r; lia).
    assert (2 ^ (s + 52) = 2 ^ 52 * 2 ^ s) as Hpow
      by (rewrite <- Z.pow_add_r by lia; f_equal; lia).
    assert (2 ^ 52 <= t / 2 ^ s) as H52
      by (apply Z.div_le_lower_bound; lia).
    assert (2 ^ 52 * 2 ^ s <= rne_quot p (q * 2 ^ s) * 2 ^ s)
      by (apply Z.mul_le_mono_nonneg_r; lia).
    lia.
Qed.

(** Within the binade of [p/q], anything below [m + 1/2] spacings
    is rounded to [m] spacings at most. *)
Lemma round_pos_upper_half m :
  2 * p < (2 * m + 1) * (q * 2 ^ s) -> round_pos p q <= m * 2 ^ s.
Proof.
  intros H. unfold round_pos. fold t s. pose proof grid_pos as Hg.
  apply Z.mul_le_mono_nonneg_r; [lia|].
  apply rne_quot_upper_half; [nia | exact H].
Qed.
End RoundPos.

(** A number of the grid is its own rounding. *)
Lemma round_pos_exact n q : 0 <= n -> 0 < q -> on_grid n -> round_pos (n * q) q = n.
Proof.
  intros Hn Hq Hg. apply Z.le_antisymm.
  - apply round_pos_upper; [nia | lia | done | lia].
  - apply round_pos_lower; [nia | lia | done | done | lia].
Qed.

Lemma fl_exact n q :
  0 <= n -> 0 < q -> on_grid n -> n < overflow_threshold -> fl (n * q) q = Fin n.
Proof.
  intros Hn Hq Hg Ht. unfold fl.
  assert (0 <= n * q) by nia.
  rewrite Z.abs_eq by assumption. rewrite round_pos_exact by assumption.
  destruct (Z.leb_spec overflow_threshold n); [lia|].
  destruct (Z.ltb_spec (n * q) 0); [lia|]. reflexivity.
Qed.
End Rounding.

(** ** Python's float operators on non-negative operands *)

Section FloatOps.
Local Open Scope Z_scope.

Lemma one_eq : one = 2 ^ 1074.
Proof. vm_compute. reflexivity. Qed.

Lemma threshold_eq : overflow_threshold = 2 ^ 2098.
Proof. vm_compute. reflexivity. Qed.

Lemma one_pos : 0 < one.
Proof. rewrite one_eq. apply Z.pow_pos_nonneg; lia. Qed.

Lemma one_lt_threshold : 2 ^ 53 * one < overflow_threshold.
Proof.
  rewrite one_eq, threshold_eq, <- Z.pow_add_r by lia.
  apply Z.pow_lt_mono_r; lia.
Qed.

(** A whole number of seconds below 2^53 is a binary64 number. *)
Lemma on_grid_seconds k : 0 <= k -> k * one < 2 ^ 53 * one -> on_grid (k * one).
Proof.
  intros Hk Hlt. apply (on_grid_multiple 1074); [lia | |].
  - split; [pose proof one_pos; nia|].
    rewrite Z.pow_add_r, <- one_eq by lia. lia.
  - exists k. by rewrite one_eq.
Qed.

Lemma float_rem_nonneg a w :
  0 <= a -> 0 < w -> float_rem (Fin a) (Fin w) = Ok (Fin (a mod w)).
Proof.
  intros Ha Hw. unfold float_rem, is_zero, fmod, lt0.
  destruct (Z.eqb_spec w 0); [lia|].
  rewrite Z.rem_mod_nonneg by lia.
  pose proof (Z.mod_pos_bound a w Hw).
  destruct (Z.eqb_spec (a mod w) 0) as [->|]; cbn; [reflexivity|].
  destruct (Z.ltb_spec w 0); [lia|].
  destruct (Z.ltb_spec (a mod w) 0); [lia|]. reflexivity.
Qed.

Lemma fl_zero : fl 0 1 = Fin 0.
Proof. vm_compute. reflexivity. Qed.

Lemma fsub_self n : fsub (Fin n) (Fin n) = Fin 0.
Proof. unfold fsub, fneg, fadd. rewrite Z.add_opp_diag_r. apply fl_zero. Qed.

(** [a // w] for [w] a whole number [c] of seconds: the floor of the
    exact quotient, as a float. *)
Lemma float_floor_div_seconds a c :
  0 <= a < 2 ^ 53 * one -> 0 < c ->
  float_floor_div (Fin a) (Fin (c * one))
  = Ok (Fin (a / (c * one) * one)).
Proof.
  intros [Ha Hlt] Hc. pose proof one_pos as H1. pose proof one_lt_threshold as Ht.
  set (w := c * one). assert (0 < w) as Hw by (subst w; nia).
  set (k := a / w).
  assert (0 <= k) as Hk by (apply Z.div_pos; lia).
  pose proof (Z.mul_div_le a w Hw) as Hkw. fold k in Hkw.
  assert (k * one <= w * k) as Hle by (subst w; nia).
  assert (on_grid (k * one)) as Gk by (apply on_grid_seconds; lia).
  assert (on_grid (w * k)) as Gw.
  { replace (w * k) with (c * k * one) by (subst w; lia).
    apply on_grid_seconds; [nia | subst w; nia]. }
  unfold float_floor_div, is_zero, fmod, lt0.
  destruct (Z.eqb_spec w 0); [lia|].
  rewrite Z.rem_mod_nonneg by lia.
  pose proof (Z.mod_pos_bound a w Hw) as Hm.
  destruct (Z.ltb_spec w 0); [lia|].
  destruct (Z.ltb_spec (a mod w) 0); [lia|].
  rewrite andb_false_r.
  assert (fsub (Fin a) (Fin (a mod w)) = Fin (w * k)) as ->.
  { unfold fsub, fneg, fadd.
    replace (a + - (a mod w)) with (w * k * 1)
      by (pose proof (Z.div_mod a w ltac:(lia)); subst k; lia).
    apply fl_exact; [nia | lia | done | lia]. }
  assert (fdiv (Fin (w * k)) (Fin w) = Fin (k * one)) as ->.
  { unfold fdiv. destruct (Z.eqb_spec w 0); [lia|].
    destruct (Z.ltb_spec w 0); [lia|].
    replace (w * k * one) with (k * one * w) by lia.
    apply fl_exact; [nia | lia | done | lia]. }
  destruct (Z.eqb_spec (k * one) 0) as [E|E]; cbn [negb].
  - by rewrite E.
  - unfold ffloor. rewrite Z.div_mul by lia. rewrite fsub_self.
    reflexivity.
Qed.

Lemma int_of_float_seconds k : 0 <= k -> int_of_float (Fin (k * one)) = Ok k.
Proof.
  intros Hk. pose proof one_pos. cbn. by rewrite Z.quot_mul by lia.
Qed.

Lemma int_of_float_nonneg n : 0 <= n -> int_of_float (Fin n) = Ok (n / one).
Proof.
  intros Hn. pose proof one_pos. cbn. by rewrite Z.quot_div_nonneg by lia.
Qed.
End FloatOps.

Section Millis.
Local Open Scope Z_scope.

Lemma float_consts :
  float_3600 = Fin (3600 * one) /\ float_60 = Fin (60 * one)
  /\ float_1 = Fin (1 * one) /\ float_1000 = Fin (1000 * one).
Proof. repeat apply conj; vm_compute; reflexivity. Qed.

(** The fractional part of a binary64 number is at least 2^-53 below 1. *)
Lemma fraction_gap a :
  0 <= a -> on_grid a -> a mod one <= one - 2 ^ 1021.
Proof.
  intros Ha Hg. pose proof one_pos as H1.
  assert (one = 2 ^ 53 * 2 ^ 1021) as E1
    by (rewrite one_eq, <- Z.pow_add_r by lia; reflexivity).
  assert (0 < 2 ^ 1021) as HG by (apply Z.pow_pos_nonneg; lia).
  set (G := 2 ^ 1021) in *.
  destruct (Z.lt_ge_cases a (2 ^ 52 * G)) as [Hlt|Hge].
  - rewrite Z.mod_small by lia. lia.
  - assert (1021 <= shift_of a) as Hs.
    { unfold shift_of.
      assert (1073 <= Z.log2 a); [|lia].
      apply Z.log2_le_pow2; [lia|].
      replace (2 ^ 1073) with (2 ^ 52 * G)
        by (subst G; rewrite <- Z.pow_add_r by lia; reflexivity).
      lia. }
    destruct (on_grid_divide a 1021 Hg ltac:(lia)) as [m Hm]. fold G in Hm.
    pose proof (Z.div_mod a one ltac:(lia)) as Hdm.
    pose proof (Z.mod_pos_bound a one H1) as Hb.
    set (q := a / one) in *. set (r := a mod one) in *.
    set (d := m - 2 ^ 53 * q).
    assert (r = d * G) as Hr by (subst d; lia).
    assert (d < 2 ^ 53) as Hd.
    { apply (Z.mul_lt_mono_pos_r G); lia. }
    assert (d * G <= (2 ^ 53 - 1) * G) by (apply Z.mul_le_mono_nonneg_r; lia).
    lia.
Qed.

(** The binary64 product of a fractional part and 1000: within one of
    the floor of the exact product, and below 1000. *)
Lemma fmul_millis r :
  0 <= r <= one - 2 ^ 1021 ->
  exists n,
    fmul (Fin r) float_1000 = Fin n
    /\ (1000 * r / one) * one <= n <= (1000 * r / one + 1) * one
    /\ n < 1000 * one
    /\ (on_grid (1000 * r) -> n = 1000 * r).
Proof.
  intros [Hr0 Hr]. pose proof one_pos as H1. pose proof one_lt_threshold as Ht.
  assert (one = 2 ^ 53 * 2 ^ 1021) as E1
    by (rewrite one_eq, <- Z.pow_add_r by lia; reflexivity).
  assert (0 < 2 ^ 1021) as HG by (apply Z.pow_pos_nonneg; lia).
  destruct float_consts as (_ & _ & _ & ->).
  set (m := 1000 * r / one).
  assert (0 <= m) as Hm0 by (apply Z.div_pos; lia).
  pose proof (Z.mul_div_le (1000 * r) one H1) as Hlo. fold m in Hlo.
  pose proof (Z.mul_succ_div_gt (1000 * r) one H1) as Hhi. fold m in Hhi.
  assert (m < 1000) as Hm by nia.
  set (p := r * (1000 * one)).
  assert (0 <= p) as Hp by (subst p; nia).
  assert (m * one <= round_pos p one) as Hlow.
  { apply round_pos_lower; [done | done | nia | | subst p; nia].
    apply on_grid_seconds; [done | nia]. }
  assert (round_pos p one <= (m + 1) * one) as Hupp.
  { apply round_pos_upper; [done | done | | subst p; nia].
    apply on_grid_seconds; [lia | nia]. }
  assert (round_pos p one < 1000 * one) as Hlt.
  { destruct (Z.lt_ge_cases (1000 * r) (512 * one)) as [Hs|Hs].
    - assert (round_pos p one <= 512 * one); [|lia].
      apply round_pos_upper; [done | done | | subst p; nia].
      apply on_grid_seconds; [lia | nia].
    - assert (p / one = 1000 * r) as Hq
        by (subst p; replace (r * (1000 * one)) with (1000 * r * one) by lia;
            apply Z.div_mul; lia).
      assert (shift_of (p / one) = 1031) as Hsh.
      { rewrite Hq. unfold shift_of.
        assert (Z.log2 (1000 * r) = 1083); [|lia].
        apply Z.log2_unique; [lia|].
        rewrite one_eq in *. change (Z.succ 1083) with (1084).
        replace (2 ^ 1083) with (512 * 2 ^ 1074)
          by (change 512 with (2 ^ 9); rewrite <- Z.pow_add_r by lia; reflexivity).
        replace (2 ^ 1084) with (1024 * 2 ^ 1074)
          by (change 1024 with (2 ^ 10); rewrite <- Z.pow_add_r by lia; reflexivity).
        lia. }
      pose proof (round_pos_upper_half p one H1 (1000 * 2 ^ 43 - 1)) as U.
      rewrite Hsh in U.
      assert (2 ^ 1031 = 1024 * 2 ^ 1021) as E2
        by (change 1024 with (2 ^ 10); rewrite <- Z.pow_add_r by lia; reflexivity).
      assert (2 ^ 53 = 1024 * 2 ^ 43) as E3
        by (change 1024 with (2 ^ 10); rewrite <- Z.pow_add_r by lia; reflexivity).
      rewrite E2 in U. rewrite E1, E3 in U, Hr |- *.
      set (G := 2 ^ 1021) in *. set (K := 2 ^ 43) in *.
      assert (0 < K) by (subst K; lia).
      assert (round_pos p (1024 * K * G) <= (1000 * K - 1) * (1024 * G)); [|nia].
      apply U. subst p. nia. }
  exists (round_pos p one). split; [|split; [|split]].
  - unfold fmul, fl. fold p. rewrite Z.abs_eq by done.
    destruct (Z.leb_spec overflow_threshold (round_pos p one)); [lia|].
    destruct (Z.ltb_spec p 0); [lia|]. reflexivity.
  - lia.
  - exact Hlt.
  - intros Hg. subst p.
    replace (r * (1000 * one)) with (1000 * r * one) by lia.
    apply round_pos_exact; [lia | lia | done].
Qed.
End Millis.

(** ** format_time_srt on non-negative offsets *)

Lemma exc_bind_Ok {A B} (a : A) (k : A -> exc B) : (Ok a ≫= k) = k a.
Proof. reflexivity. Qed.

Section FormatTime.
Local Open Scope Z_scope.

(** The fields the formatter computes for a binary64 offset of [a]
    units below 2^53 seconds. *)
Lemma format_time_srt_fields a :
  0 <= a < 2 ^ 53 * one -> on_grid a ->
  exists ms,
    format_time_srt (Fin a)
    = Ok (hhmmss (hours_of a) (minutes_of a) (seconds_of a) ms)
    /\ int_of_float (fmul (Fin (a mod one)) float_1000) = Ok ms
    /\ millis_floor a <= ms <= millis_floor a + 1
    /\ 0 <= ms <= 999
    /\ (on_grid (1000 * (a mod one)) -> ms = millis_floor a).
Proof.
  intros [Ha Hlt] Hg. pose proof one_pos as H1.
  pose proof (Z.mod_pos_bound a (3600 * one) ltac:(lia)) as B1.
  pose proof (Z.mod_pos_bound a (60 * one) ltac:(lia)) as B2.
  pose proof (Z.mod_pos_bound a one H1) as B3.
  destruct (fmul_millis (a mod one)) as (n & Hn & [Hn1 Hn2] & Hn3 & Hn4).
  { split; [lia | by apply fraction_gap]. }
  assert (0 <= 1000 * (a mod one) / one) as Hm0 by (apply Z.div_pos; lia).
  assert (0 <= n) as Hn0 by nia.
  exists (n / one).
  assert (millis_floor a <= n / one <= millis_floor a + 1) as Hms.
  { unfold millis_floor. split.
    - apply Z.div_le_lower_bound; lia.
    - apply Z.div_le_upper_bound; lia. }
  assert (int_of_float (fmul (Fin (a mod one)) float_1000) = Ok (n / one)) as Hint
    by (rewrite Hn; by apply int_of_float_nonneg).
  split; [|split; [exact Hint|split; [exact Hms|split]]].
  - unfold format_time_srt.
    destruct float_consts as (E3600 & E60 & E1 & _).
    rewrite E3600, E60, E1. rewrite Z.mul_1_l.
    rewrite (float_rem_nonneg a (3600 * one)), (float_rem_nonneg a (60 * one)),
      (float_rem_nonneg a one) by lia.
    rewrite (float_floor_div_seconds a 3600) by lia.
    repeat (rewrite exc_bind_Ok; cbv beta).
    rewrite (float_floor_div_seconds (a mod (3600 * one)) 60) by lia.
    rewrite (int_of_float_nonneg (a mod (60 * one))) by lia.
    rewrite Hint.
    repeat (first [ rewrite exc_bind_Ok
                  | rewrite int_of_float_seconds by (apply Z.div_pos; lia) ];
            cbv beta).
    reflexivity.
  - split; [apply Z.div_pos; lia|].
    assert (n / one < 1000); [|lia]. apply Z.div_lt_upper_bound; lia.
  - intros G. rewrite (Hn4 G). reflexivity.
Qed.

Lemma representable_on_grid a : 0 <= a -> representable a = true -> on_grid a.
Proof.
  intros Ha Hr. apply representable_spec in Hr as [Hg _].
  by rewrite Z.abs_eq in Hg.
Qed.
End FormatTime.

(** C1 (amended): for a binary64 offset from 0 up to 2^53 seconds the
    formatter's hours, minutes and seconds are the floors of the
    reference definition on the offset's exact value; its milliseconds
    are the integer part of the binary64 product of the fractional part
    and 1000, which is the floor of the exact product or one more, and
    the floor itself when the product is exact.  On the literals 0,
    61.5, 3661.999 and 0.0009 it gives 00:00:00,000, 00:01:01,500,
    01:01:01,998 and 00:00:00,000. *)
Theorem format_time_srt_reference :
  (forall a : Z,
     (0 <= a < 2 ^ 53 * one)%Z -> representable a = true ->
     exists ms : Z,
       format_time_srt (Fin a)
       = Ok (hhmmss (hours_of a) (minutes_of a) (seconds_of a) ms)
       /\ int_of_float (fmul (Fin (a mod one)) float_1000) = Ok ms
       /\ (millis_floor a <= ms <= millis_floor a + 1)%Z
       /\ (on_grid (1000 * (a mod one)) -> ms = millis_floor a))
  /\ format_time_srt (of_int 0) = Ok (u "00:00:00,000")
  /\ format_time_srt (of_ratio 615 10) = Ok (u "00:01:01,500")
  /\ format_time_srt (of_ratio 3661999 1000) = Ok (u "01:01:01,998")
  /\ format_time_srt (of_ratio 9 10000) = Ok (u "00:00:00,000").
Proof.
  split; [|repeat apply conj; vm_compute; reflexivity].
  intros a Ha Hr.
  destruct (format_time_srt_fields a Ha) as (ms & H1 & H2 & H3 & _ & H5).
  { apply representable_on_grid; [lia | done]. }
  exists ms. auto.
Qed.

(** The fields of 3661.999, the offset of the specification's example. *)
Lemma format_time_srt_reference_witness :
  exists ms : Z,
    format_time_srt (Fin example_offset)
    = Ok (hhmmss (hours_of example_offset) (minutes_of example_offset)
                 (seconds_of example_offset) ms)
    /\ int_of_float (fmul (Fin (example_offset mod one)) float_1000) = Ok ms
    /\ (millis_floor example_offset <= ms <= millis_floor example_offset + 1)%Z
    /\ (on_grid (1000 * (example_offset mod one)) -> ms = millis_floor example_offset).
Proof.
  apply (proj1 format_time_srt_reference example_offset).
  - split; [apply Z.leb_le | apply Z.ltb_lt]; vm_compute; reflexivity.
  - vm_compute. reflexivity.
Defined.

(** C1 as stated fails: the binary64 number nearest to 3661.999 lies
    below it and the formatter truncates, so the text ends in 998; and
    for 0.3 the formatter gives 300 milliseconds where the floor of the
    exact product is 299, because the product is rounded to 300.0. *)
Lemma format_time_srt_example_fails :
  format_time_srt (of_ratio 3661999 1000) <> Ok (u "01:01:01,999")
  /\ format_time_srt (of_ratio 3661999 1000) = Ok (u "01:01:01,998")
  /\ format_time_srt (of_ratio 3 10) = Ok (u "00:00:00,300")
  /\ millis_floor (units_of (of_ratio 3 10)) = 299%Z.
Proof.
  split; [|repeat apply conj; vm_compute; reflexivity].
  vm_compute. intros H. discriminate H.
Qed.

(** ** The width of the fields *)

Lemma format_0d_width (w : nat) (bound : nat) (z : Z) :
  forallb (fun n => digits_of_width w (format_0d w (Z.of_nat n))) (seq 0 bound) = true ->
  (0 <= z < Z.of_nat bound)%Z ->
  length (format_0d w z) = w /\ forallb is_ascii_digit (format_0d w z) = true.
Proof.
  intros Hall Hz. rewrite forallb_forall in Hall.
  specialize (Hall (Z.to_nat z)). rewrite Z2Nat.id in Hall by lia.
  unfold digits_of_width in Hall.
  rewrite andb_true_iff, Nat.eqb_eq in Hall. apply Hall.
  apply in_seq. lia.
Qed.

Lemma format_0d_2 z :
  (0 <= z < 100)%Z ->
  length (format_0d 2 z) = 2%nat /\ forallb is_ascii_digit (format_0d 2 z) = true.
Proof. apply (format_0d_width 2 100). vm_compute. reflexivity. Qed.

Lemma format_0d_3 z :
  (0 <= z < 1000)%Z ->
  length (format_0d 3 z) = 3%nat /\ forallb is_ascii_digit (format_0d 3 z) = true.
Proof. apply (format_0d_width 3 1000). vm_compute. reflexivity. Qed.

(** C7 (amended): for a binary64 offset from 0 up to, but not
    including, 360000 seconds (100 hours) the formatter's text is
    [HH:MM:SS,mmm] with two digits for each of hours, minutes and
    seconds and three for the milliseconds, 12 characters in all. *)
Theorem format_time_srt_width (a : Z) :
  (0 <= a < 360000 * one)%Z -> representable a = true ->
  exists hh mm ss mmm : str,
    format_time_srt (Fin a) = Ok (hh ++ u ":" ++ mm ++ u ":" ++ ss ++ u "," ++ mmm)
    /\ digits_of_width 2 hh = true /\ digits_of_width 2 mm = true
    /\ digits_of_width 2 ss = true /\ digits_of_width 3 mmm = true
    /\ length (hh ++ u ":" ++ mm ++ u ":" ++ ss ++ u "," ++ mmm) = 12%nat.
Proof.
  intros [Ha Hlt] Hr. pose proof one_pos as H1.
  destruct (format_time_srt_fields a) as (ms & Hf & _ & _ & Hms & _).
  { lia. }
  { by apply representable_on_grid. }
  pose proof (Z.mod_pos_bound a (3600 * one) ltac:(lia)) as B1.
  pose proof (Z.mod_pos_bound a (60 * one) ltac:(lia)) as B2.
  assert (0 <= hours_of a < 100)%Z as Hh.
  { unfold hours_of. split; [apply Z.div_pos; lia|].
    apply Z.div_lt_upper_bound; lia. }
  assert (0 <= minutes_of a < 100)%Z as Hm.
  { unfold minutes_of. split; [apply Z.div_pos; lia|].
    apply Z.div_lt_upper_bound; lia. }
  assert (0 <= seconds_of a < 100)%Z as Hs.
  { unfold seconds_of. split; [apply Z.div_pos; lia|].
    apply Z.div_lt_upper_bound; lia. }
  destruct (format_0d_2 _ Hh) as [L1 D1]. destruct (format_0d_2 _ Hm) as [L2 D2].
  destruct (format_0d_2 _ Hs) as [L3 D3].
  destruct (format_0d_3 ms ltac:(lia)) as [L4 D4].
  exists (format_0d 2 (hours_of a)), (format_0d 2 (minutes_of a)),
         (format_0d 2 (seconds_of a)), (format_0d 3 ms).
  split; [exact Hf|]. unfold digits_of_width.
  rewrite !length_app, L1, L2, L3, L4, D1, D2, D3, D4. cbn. done.
Qed.

Lemma format_time_srt_width_witness :
  exists hh mm ss mmm : str,
    format_time_srt (Fin example_offset)
    = Ok (hh ++ u ":" ++ mm ++ u ":" ++ ss ++ u "," ++ mmm)
    /\ digits_of_width 2 hh = true /\ digits_of_width 2 mm = true
    /\ digits_of_width 2 ss = true /\ digits_of_width 3 mmm = true
    /\ length (hh ++ u ":" ++ mm ++ u ":" ++ ss ++ u "," ++ mmm) = 12%nat.
Proof.
  apply (format_time_srt_width example_offset).
  - split; [apply Z.leb_le | apply Z.ltb_lt]; vm_compute; reflexivity.
  - vm_compute. reflexivity.
Defined.

(** C7 as stated fails: at 100 hours the hours field has three digits
    and the text 13 characters. *)
Lemma format_time_srt_width_fails :
  format_time_srt (of_int 360000) = Ok (u "100:00:00,000")
  /\ length (u "100:00:00,000") = 13%nat
  /\ representable (units_of (of_int 360000)) = true.
Proof. repeat apply conj; vm_compute; reflexivity. Qed.
(** * Theorems *)

(** ** The renderers' loop *)

Section ForIn.
Context {X : Type}.
Implicit Types (body : nat -> M X unit) (data : list entry) (acc : list X).

(** A loop whose body, at an entry that satisfies [ok], only appends
    [f i e] to the local list, appends these in order and stops at the
    end of the list. *)
Lemma for_in_appends body (ok : entry -> Prop) (f : nat -> entry -> list X) data :
  (forall i e acc, data !! i = Some e -> ok e ->
     body i (Store data acc) = Done tt (Store data (acc ++ f i e))) ->
  forall fuel i acc,
    (length data - i < fuel)%nat ->
    Forall ok (drop i data) ->
    for_in fuel i body (Store data acc)
    = Done tt (Store data (acc ++ concat (imap (fun j => f (i + j)%nat) (drop i data)))).
Proof.
  intros Hbody fuel. induction fuel as [|fuel IH]; intros i acc Hfuel Hok.
  - lia.
  - cbn [for_in transcript_data].
    destruct (data !! i) as [e|] eqn:He.
    + pose proof (lookup_lt_Some _ _ _ He) as Hlt.
      rewrite (drop_S _ _ _ He) in Hok |- *.
      apply Forall_cons in Hok as [Hoke Hok].
      unfold bind. rewrite (Hbody i e acc He Hoke).
      rewrite IH by (assumption || lia).
      cbn [imap concat]. rewrite Nat.add_0_r, <- app_assoc.
      do 5 f_equal. apply imap_ext. intros j x _. cbn. f_equal. lia.
    + apply lookup_ge_None in He.
      rewrite drop_ge by assumption. cbn. by rewrite app_nil_r.
Qed.

Lemma bind_read {A B} i (field : entry -> A) (k : A -> M X B) data acc e :
  data !! i = Some e ->
  bind (read i field) k (Store data acc) = k (field e) (Store data acc).
Proof. intros He. unfold bind, read. cbn. by rewrite He. Qed.

Lemma bind_lift {A B} (r : exc A) (k : A -> M X B) a st :
  r = Ok a -> bind (lift r) k st = k a st.
Proof. by intros ->. Qed.

Lemma bind_append {B} x (k : unit -> M X B) data acc :
  bind (append x) k (Store data acc) = k tt (Store data (acc ++ [x])).
Proof. reflexivity. Qed.

Lemma keeps_ret {A} (a : A) : keeps_input (X := X) (ret a).
Proof. intros st. by exists st. Qed.

Lemma keeps_lift {A} (r : exc A) : keeps_input (X := X) (lift r).
Proof. intros st. exists st. by destruct r. Qed.

Lemma keeps_read {A} i (field : entry -> A) : keeps_input (X := X) (read i field).
Proof. intros st. exists st. unfold read. by destruct (_ !! _). Qed.

Lemma keeps_append (x : X) : keeps_input (append x).
Proof. intros st. by eexists. Qed.

Lemma keeps_bind {A B} (m : M X A) (k : A -> M X B) :
  keeps_input m -> (forall a, keeps_input (k a)) -> keeps_input (bind m k).
Proof.
  intros Hm Hk st. destruct (Hm st) as (st1 & H1 & E1).
  unfold bind. destruct (m st) as [a st1'|e st1'|]; simplify_eq/=.
  - destruct (Hk a st1) as (st2 & H2 & E2). exists st2. split; [done | congruence].
  - by exists st1.
Qed.

Lemma for_in_keeps body :
  (forall i, keeps_input (body i)) ->
  forall fuel i st,
    (length (transcript_data st) - i < fuel)%nat ->
    exists st', final_store (for_in fuel i body st) = Some st'
                /\ transcript_data st' = transcript_data st.
Proof.
  intros Hbody fuel. induction fuel as [|fuel IH]; intros i st Hfuel; [lia|].
  cbn [for_in]. destruct (transcript_data st !! i) as [e|] eqn:He.
  - pose proof (lookup_lt_Some _ _ _ He) as Hlt.
    destruct (Hbody i st) as (st1 & H1 & E1).
    unfold bind. destruct (body i st) as [a st1'|e' st1'|]; simplify_eq/=.
    + destruct (IH (S i) st1) as (st2 & H2 & E2); [rewrite E1; lia|].
      exists st2. split; [done | congruence].
    + by exists st1.
  - by exists st.
Qed.
End ForIn.

Ltac keeps :=
  repeat lazymatch goal with
    | |- keeps_input (bind _ _) => apply keeps_bind; [|intro]
    | |- keeps_input (ret _) => apply keeps_ret
    | |- keeps_input (lift _) => apply keeps_lift
    | |- keeps_input (read _ _) => apply keeps_read
    | |- keeps_input (append _) => apply keeps_append
    | |- keeps_input (let x := ?v in _) => cbv zeta
    end.

Lemma create_srt_body_keeps i : keeps_input (create_srt_body i).
Proof. unfold create_srt_body. keeps. Qed.

Lemma create_markdown_body_keeps i : keeps_input (create_markdown_body i).
Proof. unfold create_markdown_body. keeps. destruct (strip _); keeps. Qed.

Lemma create_json_body_keeps i : keeps_input (create_json_body i).
Proof. unfold create_json_body. keeps. Qed.

Lemma time_str_ok x : is_Ok (format_time_srt x) -> format_time_srt x = Ok (time_str x).
Proof. intros [s Hs]. unfold time_str. rewrite Hs. reflexivity. Qed.

Lemma create_srt_body_spec data i e acc :
  data !! i = Some e -> formattable e ->
  create_srt_body i (Store data acc) = Done tt (Store data (acc ++ srt_block (S i) e)).
Proof.
  intros He [H1 H2]. unfold create_srt_body.
  rewrite (bind_read _ _ _ _ _ _ He), (bind_lift _ _ _ _ (time_str_ok _ H1)).
  rewrite !(bind_read _ _ _ _ _ _ He), (bind_lift _ _ _ _ (time_str_ok _ H2)).
  rewrite (bind_read _ _ _ _ _ _ He). cbv zeta. rewrite !bind_append.
  unfold append, srt_block. cbn [transcript_data local].
  rewrite <- !app_assoc. cbn [app].
  do 4 f_equal. f_equal. lia.
Qed.

Lemma create_srt_run data fuel :
  (length data < fuel)%nat -> Forall formattable data ->
  create_srt fuel (Store data [])
  = Done (join newline (srt_lines data)) (Store data (srt_lines data)).
Proof.
  intros Hfuel Hok. unfold create_srt, bind.
  rewrite (for_in_appends _ formattable (fun i e => srt_block (S i) e) data)
    by (cbn; eauto using create_srt_body_spec || lia).
  reflexivity.
Qed.

Lemma concat_imap_length {A B} (f : nat -> A -> list B) (n : nat) (l : list A) :
  (forall j y, length (f j y) = n) ->
  length (concat (imap f l)) = (n * length l)%nat.
Proof.
  revert f. induction l as [|y l IH]; intros f Hlen; cbn [imap concat length]; [lia|].
  rewrite length_app, Hlen, (IH (f ∘ S)) by (intros; apply Hlen). lia.
Qed.

Lemma srt_lines_length data : length (srt_lines data) = (4 * length data)%nat.
Proof. by apply concat_imap_length. Qed.

Lemma concat_imap_lookup {A B} (f : nat -> A -> list B) (n : nat) (l : list A) i x r :
  (forall j y, length (f j y) = n) ->
  l !! i = Some x -> (r < n)%nat ->
  concat (imap f l) !! (n * i + r)%nat = f i x !! r.
Proof.
  intros Hlen. revert f Hlen i.
  induction l as [|y l IH]; intros f Hlen i Hi Hr; [done|].
  cbn [imap concat]. destruct i as [|i].
  - injection Hi as ->. rewrite lookup_app_l by (rewrite Hlen; lia). f_equal. lia.
  - rewrite lookup_app_r by (rewrite Hlen; lia). rewrite Hlen.
    replace (n * S i + r - n)%nat with (n * i + r)%nat by lia.
    apply (IH (f ∘ S) (fun j y => Hlen (S j) y) i Hi Hr).
Qed.

(** C3 (amended): for N entries the formatter accepts, [create_srt] returns the
    newline-join of exactly 4N lines, the blocks of the entries in input
    order: block [i] (counted from 0) is the counter [i+1], the line
    [<start> --> <end>] with [end = start + duration], the trimmed text
    and an empty line, whether or not the trimmed text is empty. *)
Theorem create_srt_blocks (data : list entry) (fuel : nat) :
  (length data < fuel)%nat ->
  Forall formattable data ->
  exists lines,
    create_srt fuel (Store data []) = Done (join newline lines) (Store data lines)
    /\ lines = concat (imap (fun i e => srt_block (S i) e) data)
    /\ length lines = (4 * length data)%nat
    /\ forall i e, data !! i = Some e ->
         lines !! (4 * i)%nat = Some (str_of_int (Z.of_nat i + 1))
         /\ lines !! (4 * i + 1)%nat
            = Some (time_str (start e) ++ u " --> "
                    ++ time_str (fadd (start e) (duration e)))
         /\ lines !! (4 * i + 2)%nat = Some (strip (text e))
         /\ lines !! (4 * i + 3)%nat = Some [].
Proof.
  intros Hfuel Hok. exists (srt_lines data).
  split; [by apply create_srt_run|]. split; [done|].
  split; [apply srt_lines_length|].
  intros i e He. unfold srt_lines.
  pose proof (fun r => concat_imap_lookup (fun i e => srt_block (S i) e) 4 data i e r
                         (fun _ _ => eq_refl) He) as L.
  rewrite <- (Nat.add_0_r (4 * i)) at 1.
  rewrite !L by lia. cbn. repeat split. do 2 f_equal. lia.
Qed.

Lemma create_srt_blocks_witness :
  exists lines,
    create_srt 3 (Store example_entries []) = Done (join newline lines) (Store example_entries lines)
    /\ lines = concat (imap (fun i e => srt_block (S i) e) example_entries)
    /\ length lines = (4 * length example_entries)%nat
    /\ forall i e, example_entries !! i = Some e ->
         lines !! (4 * i)%nat = Some (str_of_int (Z.of_nat i + 1))
         /\ lines !! (4 * i + 1)%nat
            = Some (time_str (start e) ++ u " --> "
                    ++ time_str (fadd (start e) (duration e)))
         /\ lines !! (4 * i + 2)%nat = Some (strip (text e))
         /\ lines !! (4 * i + 3)%nat = Some [].
Proof.
  apply (create_srt_blocks example_entries 3).
  - vm_compute. lia.
  - repeat constructor; eexists; vm_compute; reflexivity.
Defined.

(** The end-to-end example of the specification: two blocks, the second
    with an empty text line. *)
Example create_srt_example :
  create_srt 3 (Store example_entries [])
  = Done (u "1" ++ newline ++ u "00:00:00,000 --> 00:00:02,000" ++ newline
          ++ u "hi" ++ newline ++ newline
          ++ u "2" ++ newline ++ u "00:00:02,000 --> 00:00:03,500" ++ newline
          ++ newline)
         (Store example_entries
            [u "1"; u "00:00:00,000 --> 00:00:02,000"; u "hi"; [];
             u "2"; u "00:00:02,000 --> 00:00:03,500"; []; []]).
Proof. vm_compute. reflexivity. Qed.

(** C3 as stated fails: not every sequence of entries is rendered.  The
    one entry of [overflow_entries] has a finite start and a finite
    duration, neither negative, but their sum overflows to infinity,
    which the formatter refuses: the renderer raises [ValueError] and
    returns no block. *)
Lemma create_srt_overflow_raises :
  representable (units_of largest_finite) = true
  /\ fadd largest_finite largest_finite = Inf false
  /\ create_srt 2 (Store overflow_entries [])
     = Raised (Exn ValueError (u "cannot convert float NaN to integer"))
              (Store overflow_entries []).
Proof. repeat apply conj; vm_compute; reflexivity. Qed.

Lemma create_markdown_body_spec data i e acc :
  data !! i = Some e ->
  create_markdown_body i (Store data acc)
  = Done tt (Store data (acc ++ filter (fun t => t <> []) [strip (text e)])).
Proof.
  intros He. unfold create_markdown_body.
  rewrite (bind_read _ _ _ _ _ _ He). cbv zeta.
  destruct (strip (text e)) as [|c t] eqn:E.
  - cbn. by rewrite app_nil_r.
  - reflexivity.
Qed.

Lemma md_lines_concat data :
  concat (imap (fun (j : nat) e => filter (fun t => t <> []) [strip (text e)]) data)
  = md_lines data.
Proof.
  unfold md_lines. induction data as [|e data IH]; [done|].
  cbn [imap concat map]. rewrite filter_cons.
  change ((fun (j : nat) e => filter (fun t : list N => t <> []) [strip (text e)]) ∘ S)
    with (fun (j : nat) e => filter (fun t : list N => t <> []) [strip (text e)]).
  rewrite IH. rewrite filter_cons, filter_nil. by destruct (decide _).
Qed.

(** A renderer is a loop followed by a join: it ends, and leaves the
    caller's list as it was. *)
Lemma render_loop_keeps {X} (body : nat -> M X unit) (fin : M X str) data fuel :
  (length data < fuel)%nat ->
  (forall i, keeps_input (body i)) -> keeps_input fin ->
  exists st, final_store (bind (for_in fuel 0 body) (fun _ => fin) (Store data []))
             = Some st /\ transcript_data st = data.
Proof.
  intros Hfuel Hb Hf.
  destruct (for_in_keeps body Hb fuel 0 (Store data [])) as (st1 & H1 & E1);
    [cbn; lia|].
  unfold bind. destruct (for_in _ _ _ _) as [a st1'|e st1'|]; simplify_eq/=.
  - destruct (Hf st1) as (st2 & H2 & E2). exists st2. split; [done|congruence].
  - by exists st1.
Qed.

Lemma join_local_keeps {X} (f : list X -> str) :
  keeps_input (fun st : store X => Done (f (local st)) st).
Proof. intros st. by exists st. Qed.

(** C8: each of the three renderers ends (by returning or by raising)
    with the list it was given unchanged: same entries, each with the
    same start, duration and text. *)
Theorem renderers_keep_input (data : list entry) (fuel : nat) :
  (length data < fuel)%nat ->
  (exists st, final_store (create_srt fuel (Store data [])) = Some st
              /\ transcript_data st = data)
  /\ (exists st, final_store (create_markdown fuel (Store data [])) = Some st
                 /\ transcript_data st = data)
  /\ (exists st, final_store (create_json fuel (Store data [])) = Some st
                 /\ transcript_data st = data).
Proof.
  intros Hfuel. repeat split.
  - apply render_loop_keeps; [done|apply create_srt_body_keeps|apply join_local_keeps].
  - apply render_loop_keeps; [done|apply create_markdown_body_keeps|apply join_local_keeps].
  - apply render_loop_keeps; [done|apply create_json_body_keeps|].
    apply (join_local_keeps (fun l => dumps 2 (JArr l))).
Qed.

Lemma renderers_keep_input_witness :
  (exists st, final_store (create_srt 3 (Store example_entries [])) = Some st
              /\ transcript_data st = example_entries)
  /\ (exists st, final_store (create_markdown 3 (Store example_entries [])) = Some st
                 /\ transcript_data st = example_entries)
  /\ (exists st, final_store (create_json 3 (Store example_entries [])) = Some st
                 /\ transcript_data st = example_entries).
Proof. apply (renderers_keep_input example_entries 3). vm_compute. lia. Defined.

(** ** JSON: decoding what the encoder wrote *)


Lemma hex_val_hex_digit n : (n < 16)%N -> hex_val (hex_digit n) = Some n.
Proof.
  intros H. destruct n as [|p]; [reflexivity|].
  do 4 (destruct p as [p|p|]; try reflexivity); lia.
Qed.

Lemma decode_hex4_control c :
  (c < 32)%N ->
  decode_hex4 48 48 (hex_digit (c / 16)) (hex_digit (c mod 16)) = Some c.
Proof.
  intros H. unfold decode_hex4.
  assert (c / 16 < 16)%N by (apply N.Div0.div_lt_upper_bound; lia).
  assert (c mod 16 < 16)%N by (apply N.mod_lt; lia).
  rewrite !hex_val_hex_digit by assumption. cbn.
  f_equal. pose proof (N.div_mod c 16). lia.
Qed.

Lemma scanstring_plain c s :
  c <> 34%N -> c <> 92%N -> (32 <= c)%N ->
  scanstring (c :: s) = '(x, k) ← scanstring s; Some (c :: x, k).
Proof.
  intros H1 H2 H3. cbn [scanstring].
  destruct (N.eqb_spec c 34); [done|]. destruct (N.eqb_spec c 92); [done|].
  destruct (N.ltb_spec c 32); [lia|]. reflexivity.
Qed.

Lemma scanstring_uXXXX a b c d s uni :
  decode_hex4 a b c d = Some uni ->
  in_range 55296 56319 uni = false ->
  scanstring (92 :: 117 :: a :: b :: c :: d :: s)%N
  = '(x, k) ← scanstring s; Some (uni :: x, k).
Proof. intros H1 H2. cbn [scanstring N.eqb Pos.eqb]. rewrite H1. cbn. rewrite H2. reflexivity. Qed.

Lemma scanstring_escape c s :
  scanstring (escape_char c ++ s) = '(x, k) ← scanstring s; Some (c :: x, k).
Proof.
  unfold escape_char.
  repeat match goal with
         | |- context [(c =? ?n)%N] => destruct (N.eqb_spec c n); [subst; reflexivity|]
         end.
  destruct (N.ltb_spec c 32).
  - cbn [app]. apply scanstring_uXXXX; [by apply decode_hex4_control|].
    unfold in_range. destruct (N.leb_spec 55296 c); [lia|done].
  - cbn [app]. by apply scanstring_plain.
Qed.

Lemma scanstring_encode s rest :
  scanstring (flat_map escape_char s ++ 34%N :: rest) = Some (s, rest).
Proof.
  induction s as [|c s IH]; [reflexivity|].
  cbn [flat_map]. rewrite <- app_assoc, scanstring_escape, IH. reflexivity.
Qed.

Lemma skip_ws_newline_indent ind level s :
  skip_ws (newline_indent ind level ++ s) = skip_ws s.
Proof.
  unfold newline_indent, newline. cbn.
  induction (ind * level)%nat as [|n IH]; cbn; done.
Qed.

Lemma skip_ws_value_head s : value_head s -> skip_ws s = s.
Proof.
  intros (c & k & -> & Hc). cbn.
  by repeat destruct Hc as [-> | Hc]; subst.
Qed.

Lemma value_head_app s t : value_head s -> value_head (s ++ t).
Proof. intros (c & k & -> & Hc). exists c, (k ++ t). done. Qed.

Lemma value_head_iterencode ind level o : value_head (iterencode ind level o).
Proof.
  destruct o as [| | |s|[|x l]|[|kv l]]; cbn;
    eexists _, _; (split; [reflexivity|]); tauto.
Qed.

Lemma join_cons2 sep (a b : str) (r : list str) :
  join sep (a :: b :: r) = a ++ sep ++ join sep (b :: r).
Proof. reflexivity. Qed.

Lemma join_head sep (a : str) (r : list str) : exists t, join sep (a :: r) = a ++ t.
Proof.
  destruct r as [|b r].
  - exists []. cbn. by rewrite app_nil_r.
  - by eexists.
Qed.

Lemma dict_set_fresh k v (d : list (str * json)) :
  k ∉ map fst d -> dict_set k v d = d ++ [(k, v)].
Proof.
  induction d as [|[k' v'] d IH]; intros Hk; [done|].
  cbn in *. apply not_elem_of_cons in Hk as [Hne Hk].
  rewrite bool_decide_false by congruence. by rewrite IH.
Qed.

Lemma dict_of_pairs_distinct (l : list (str * json)) :
  NoDup (map fst l) -> dict_of_pairs l = l.
Proof.
  unfold dict_of_pairs.
  enough (G : forall acc, NoDup (map fst (acc ++ l)) ->
                          fold_left (fun d kv => dict_set (fst kv) (snd kv) d) l acc
                          = acc ++ l) by apply (G []).
  induction l as [|[k v] l IH]; intros acc Hnd; cbn.
  - by rewrite app_nil_r.
  - rewrite dict_set_fresh.
    + rewrite IH; rewrite <- app_assoc; [done|]. exact Hnd.
    + rewrite map_app in Hnd. apply NoDup_app in Hnd as (_ & Hd & _).
      intros Hin. apply (Hd k Hin). cbn. left.
Qed.

(** One turn of each loop of the decoder. *)

Lemma parse_items_last fuel s x k rest :
  scan_once fuel s = Some (x, k) -> skip_ws k = 93%N :: rest ->
  parse_items (S fuel) s = Some ([x], rest).
Proof. intros H1 H2. cbn [parse_items]. rewrite H1. cbn. rewrite H2. reflexivity. Qed.

Lemma parse_items_more fuel s x k k' l rest :
  scan_once fuel s = Some (x, k) -> skip_ws k = 44%N :: k' ->
  parse_items fuel (skip_ws k') = Some (l, rest) ->
  parse_items (S fuel) s = Some (x :: l, rest).
Proof.
  intros H1 H2 H3. cbn [parse_items]. rewrite H1. cbn. rewrite H2. cbn.
  rewrite H3. reflexivity.
Qed.

Lemma parse_members_last fuel s key k k1 v k2 rest :
  scanstring s = Some (key, k) -> skip_ws k = 58%N :: k1 ->
  scan_once fuel (skip_ws k1) = Some (v, k2) -> skip_ws k2 = 125%N :: rest ->
  parse_members (S fuel) s = Some ([(key, v)], rest).
Proof.
  intros H1 H2 H3 H4. cbn [parse_members]. rewrite H1. cbn. rewrite H2. cbn.
  rewrite H3. cbn. rewrite H4. reflexivity.
Qed.

Lemma parse_members_more fuel s key k k1 v k2 k3 k4 l rest :
  scanstring s = Some (key, k) -> skip_ws k = 58%N :: k1 ->
  scan_once fuel (skip_ws k1) = Some (v, k2) -> skip_ws k2 = 44%N :: k3 ->
  skip_ws k3 = 34%N :: k4 -> parse_members fuel k4 = Some (l, rest) ->
  parse_members (S fuel) s = Some ((key, v) :: l, rest).
Proof.
  intros H1 H2 H3 H4 H5 H6. cbn [parse_members]. rewrite H1. cbn. rewrite H2. cbn.
  rewrite H3. cbn. rewrite H4. cbn. rewrite H5. cbn. rewrite H6. reflexivity.
Qed.

Lemma scan_once_array fuel r c k l rest :
  skip_ws r = c :: k -> c <> 93%N ->
  parse_items fuel (c :: k) = Some (l, rest) ->
  scan_once (S fuel) (91%N :: r) = Some (JArr l, rest).
Proof.
  intros H1 H2 H3. cbn [scan_once]. cbn [N.eqb Pos.eqb]. rewrite H1.
  destruct (N.eqb_spec c 93); [done|]. rewrite H3. reflexivity.
Qed.

Lemma scan_once_object fuel r k pairs rest :
  skip_ws r = 34%N :: k ->
  parse_members fuel k = Some (pairs, rest) ->
  scan_once (S fuel) (123%N :: r) = Some (JObj (dict_of_pairs pairs), rest).
Proof.
  intros H1 H2. cbn [scan_once]. cbn [N.eqb Pos.eqb]. rewrite H1.
  cbn [N.eqb Pos.eqb]. rewrite H2. reflexivity.
Qed.

Section RoundTrip.
Variable ind : nat.

Local Abbreviation reads_back := (reads_back ind).
Local Abbreviation sep := (item_sep ind).
Local Abbreviation menc := (member_text ind).

Lemma sep_length level : (1 <= length (sep level))%nat.
Proof. unfold item_sep. cbn. lia. Qed.

Lemma value_head_join level (x : json) (l : list json) t :
  value_head (join (sep level) (map (iterencode ind (S level)) (x :: l)) ++ t).
Proof.
  cbn [map].
  destruct (join_head (sep level) (iterencode ind (S level) x)
              (map (iterencode ind (S level)) l)) as [t' ->].
  rewrite <- app_assoc. apply value_head_app, value_head_iterencode.
Qed.

Lemma parse_items_join level (l : list json) :
  l <> [] -> Forall reads_back l ->
  forall tail rest fuel,
    (length (join (sep level) (map (iterencode ind (S level)) l)) + 1 < fuel)%nat ->
    skip_ws tail = 93%N :: rest ->
    parse_items fuel (join (sep level) (map (iterencode ind (S level)) l) ++ tail)
    = Some (l, rest).
Proof.
  induction l as [|x l IH]; [done|]. intros _ HF tail rest fuel Hfuel Htail.
  apply Forall_cons in HF as [Hx HF].
  destruct fuel as [|fuel]; [lia|].
  pose proof (sep_length level).
  destruct l as [|y l].
  - cbn [map join] in *. eapply parse_items_last; [apply Hx; lia | done].
  - cbn [map] in Hfuel |- *. rewrite join_cons2 in *. rewrite !length_app in Hfuel.
    rewrite <- !app_assoc.
    eapply parse_items_more; [apply Hx; lia | reflexivity |].
    rewrite skip_ws_newline_indent.
    rewrite skip_ws_value_head by apply (value_head_join level y l).
    apply (IH ltac:(done) HF); [cbn [map]; lia | done].
Qed.

Lemma menc_eq level k v t :
  menc level (k, v) ++ t
  = 34%N :: flat_map escape_char k
    ++ 34%N :: 58%N :: 32%N :: iterencode ind (S level) v ++ t.
Proof.
  unfold member_text, encode_basestring. cbn [fst snd]. rewrite <- !app_assoc. reflexivity.
Qed.

Lemma menc_length level k v :
  (length (iterencode ind (S level) v) + 4 <= length (menc level (k, v)))%nat.
Proof.
  rewrite <- (app_nil_r (menc _ _)), menc_eq. cbn [length].
  rewrite !length_app. cbn [length]. rewrite length_app. cbn. lia.
Qed.

Lemma parse_members_join level (l : list (str * json)) :
  l <> [] -> Forall (fun kv => reads_back (snd kv)) l ->
  forall tail rest fuel s,
    (length (join (sep level) (map (menc level) l)) + 1 < fuel)%nat ->
    skip_ws tail = 125%N :: rest ->
    34%N :: s = join (sep level) (map (menc level) l) ++ tail ->
    parse_members fuel s = Some (l, rest).
Proof.
  induction l as [|[k v] l IH]; [done|]. intros _ HF tail rest fuel s Hfuel Htail Hs.
  apply Forall_cons in HF as [Hv HF]. cbn [snd] in Hv.
  destruct fuel as [|fuel]; [lia|].
  pose proof (menc_length level k v) as Hlen.
  pose proof (sep_length level).
  destruct l as [|[k' v'] l].
  - cbn [map join] in *. rewrite menc_eq in Hs. injection Hs as ->.
    eapply parse_members_last;
      [apply scanstring_encode | reflexivity | | exact Htail].
    cbn [skip_ws lstrip_by is_ws N.eqb Pos.eqb orb].
    change (lstrip_by is_ws) with skip_ws.
    rewrite skip_ws_value_head by apply value_head_app, value_head_iterencode.
    apply Hv. lia.
  - cbn [map] in Hs, Hfuel. rewrite join_cons2 in Hs, Hfuel.
    rewrite !length_app in Hfuel.
    rewrite <- !app_assoc in Hs. rewrite menc_eq in Hs. injection Hs as ->.
    set (J := join (sep level) (menc level (k', v') :: map (menc level) l)) in *.
    assert (exists s', J ++ tail = 34%N :: s') as [s' HJ].
    { subst J.
      destruct (join_head (sep level) (menc level (k', v')) (map (menc level) l))
        as [t ->].
      rewrite <- app_assoc, menc_eq. by eexists. }
    eapply parse_members_more with (k2 := sep level ++ J ++ tail);
      [apply scanstring_encode | reflexivity | | reflexivity | | ].
    + cbn [skip_ws lstrip_by is_ws N.eqb Pos.eqb orb].
      change (lstrip_by is_ws) with skip_ws.
      rewrite skip_ws_value_head by apply value_head_app, value_head_iterencode.
      apply Hv. lia.
    + rewrite skip_ws_newline_indent, HJ. reflexivity.
    + apply (IH ltac:(done) HF tail rest);
        [cbn [map]; fold J; lia | done | cbn [map]; fold J; by rewrite HJ].
Qed.

Lemma newline_indent_length level : (1 <= length (newline_indent ind level))%nat.
Proof. unfold newline_indent. rewrite length_app. cbn. lia. Qed.

Lemma Forall_reads_back (l : list json) :
  Forall (fun o => distinct_keys o = true -> reads_back o) l ->
  forallb distinct_keys l = true -> Forall reads_back l.
Proof.
  intros IH Hwf. rewrite forallb_forall in Hwf.
  rewrite Forall_forall in IH |- *. intros y Hy.
  apply IH; [done|]. by apply Hwf, list_elem_of_In.
Qed.

Lemma scan_once_iterencode (o : json) : distinct_keys o = true -> reads_back o.
Proof.
  induction o as [| | |s|items IH|members IH] using json_nested_ind;
    intros Hwf level rest fuel Hfuel;
    (destruct fuel as [|fuel]; [lia|]).
  - reflexivity.
  - reflexivity.
  - reflexivity.
  - cbn [iterencode]. unfold encode_basestring. rewrite <- !app_assoc.
    cbn [app scan_once N.eqb Pos.eqb]. rewrite scanstring_encode. reflexivity.
  - destruct items as [|x l]; [reflexivity|].
    cbn [iterencode distinct_keys] in *.
    change (u "[") with [91%N] in *. change (u "]") with [93%N] in *.
    change (u "," ++ newline_indent ind (S level)) with (sep level) in *.
    pose proof (newline_indent_length (S level)).
    pose proof (newline_indent_length level).
    rewrite !length_app in Hfuel. cbn [length] in Hfuel.
    rewrite <- !app_assoc. cbn [app].
    destruct (value_head_join level x l (newline_indent ind level ++ 93%N :: rest))
      as (c & k & HJ & Hc).
    eapply (scan_once_array _ _ c k).
    + rewrite skip_ws_newline_indent, <- HJ.
      apply skip_ws_value_head. rewrite HJ. by exists c, k.
    + by repeat destruct Hc as [-> | Hc]; subst.
    + rewrite <- HJ.
      apply (parse_items_join level (x :: l) ltac:(done));
        [by apply Forall_reads_back | lia |].
      rewrite skip_ws_newline_indent. reflexivity.
  - destruct members as [|[k v] l]; [reflexivity|].
    cbn [distinct_keys] in Hwf. apply andb_true_iff in Hwf as [Hnd Hwf].
    apply bool_decide_eq_true in Hnd.
    cbn [iterencode] in *.
    change (u "{") with [123%N] in *. change (u "}") with [125%N] in *.
    change (u "," ++ newline_indent ind (S level)) with (sep level) in *.
    change (fun kv0 : str * json =>
              encode_basestring (fst kv0) ++ u ": " ++ iterencode ind (S level) (snd kv0))
      with (menc level) in *.
    pose proof (newline_indent_length (S level)).
    pose proof (newline_indent_length level).
    rewrite !length_app in Hfuel. cbn [length] in Hfuel.
    rewrite <- !app_assoc. cbn [app].
    assert (exists s', join (sep level) (map (menc level) ((k, v) :: l))
                       ++ newline_indent ind level ++ 125%N :: rest = 34%N :: s')
      as [s' HJ].
    { cbn [map].
      destruct (join_head (sep level) (menc level (k, v)) (map (menc level) l))
        as [t ->].
      rewrite <- app_assoc, menc_eq. by eexists. }
    rewrite <- (dict_of_pairs_distinct ((k, v) :: l)) at 2 by done.
    eapply scan_once_object.
    + rewrite skip_ws_newline_indent.
      etransitivity; [exact (f_equal skip_ws HJ) | reflexivity].
    + apply (parse_members_join level ((k, v) :: l) ltac:(done)) with
        (tail := newline_indent ind level ++ 125%N :: rest).
      * rewrite forallb_forall in Hwf.
        rewrite Forall_forall in IH |- *. intros y Hy.
        apply IH; [done|]. by apply Hwf, list_elem_of_In.
      * lia.
      * rewrite skip_ws_newline_indent. reflexivity.
      * symmetry. exact HJ.
Qed.

(** A value without repeated keys is what [loads] makes of its
    [dumps]. *)
Lemma loads_dumps (o : json) :
  distinct_keys o = true -> loads (dumps ind o) = Some o.
Proof.
  intros Hwf. unfold loads, dumps.
  rewrite (skip_ws_value_head _ (value_head_iterencode ind 0 o)).
  rewrite <- (app_nil_r (iterencode ind 0 o)) at 2.
  rewrite scan_once_iterencode by (done || lia). reflexivity.
Qed.
End RoundTrip.

Lemma create_json_body_spec data i e acc :
  data !! i = Some e -> formattable e ->
  create_json_body i (Store data acc) = Done tt (Store data (acc ++ [json_record e])).
Proof.
  intros He [H1 H2]. unfold create_json_body.
  rewrite (bind_read _ _ _ _ _ _ He), (bind_lift _ _ _ _ (time_str_ok _ H1)).
  rewrite !(bind_read _ _ _ _ _ _ He), (bind_lift _ _ _ _ (time_str_ok _ H2)).
  rewrite (bind_read _ _ _ _ _ _ He). reflexivity.
Qed.

Lemma concat_imap_singleton {A B} (f : A -> B) (l : list A) :
  concat (imap (fun (_ : nat) x => [f x]) l) = map f l.
Proof.
  induction l as [|x l IH]; [done|]. cbn [imap concat map app].
  f_equal. exact IH.
Qed.

Lemma json_records_distinct_keys data :
  distinct_keys (JArr (map json_record data)) = true.
Proof.
  cbn [distinct_keys]. apply forallb_forall. intros o Ho.
  apply in_map_iff in Ho as (e & <- & _). vm_compute. reflexivity.
Qed.

(** C5 (amended): for N entries the formatter accepts, [create_json] returns a
    text that [json.loads] decodes to exactly N records, in input order,
    the record of an entry having [in_ts] = its formatted start,
    [out_ts] = its formatted start + duration and [text] = its trimmed
    text. *)
Theorem create_json_round_trip (data : list entry) (fuel : nat) :
  (length data < fuel)%nat ->
  Forall formattable data ->
  exists out,
    create_json fuel (Store data []) = Done out (Store data (map json_record data))
    /\ loads out = Some (JArr (map json_record data))
    /\ length (map json_record data) = length data
    /\ forall i e, data !! i = Some e ->
         map json_record data !! i
         = Some (JObj [ (u "in_ts", JStr (time_str (start e)));
                        (u "out_ts", JStr (time_str (fadd (start e) (duration e))));
                        (u "text", JStr (strip (text e))) ]).
Proof.
  intros Hfuel Hok. exists (dumps 2 (JArr (map json_record data))).
  split; [|split; [|split]].
  - unfold create_json, bind.
    rewrite (for_in_appends _ formattable (fun _ e => [json_record e]) data)
      by (cbn; eauto using create_json_body_spec || lia).
    cbn. by rewrite concat_imap_singleton.
  - apply loads_dumps, json_records_distinct_keys.
  - apply length_map.
  - intros i e He. rewrite list_lookup_fmap, He. reflexivity.
Qed.

Lemma create_json_round_trip_witness :
  exists out,
    create_json 3 (Store example_entries [])
    = Done out (Store example_entries (map json_record example_entries))
    /\ loads out = Some (JArr (map json_record example_entries))
    /\ length (map json_record example_entries) = length example_entries
    /\ forall i e, example_entries !! i = Some e ->
         map json_record example_entries !! i
         = Some (JObj [ (u "in_ts", JStr (time_str (start e)));
                        (u "out_ts", JStr (time_str (fadd (start e) (duration e))));
                        (u "text", JStr (strip (text e))) ]).
Proof.
  apply (create_json_round_trip example_entries 3).
  - vm_compute. lia.
  - repeat constructor; eexists; vm_compute; reflexivity.
Defined.

(** The end-to-end example: two records, the second with an empty text. *)
Example create_json_example :
  match create_json 3 (Store example_entries []) with
  | Done out _ => loads out
  | _ => None
  end
  = Some (JArr [ JObj [ (u "in_ts", JStr (u "00:00:00,000"));
                        (u "out_ts", JStr (u "00:00:02,000"));
                        (u "text", JStr (u "hi")) ];
                 JObj [ (u "in_ts", JStr (u "00:00:02,000"));
                        (u "out_ts", JStr (u "00:00:03,500"));
                        (u "text", JStr []) ] ]).
Proof. vm_compute. reflexivity. Qed.

(** C5 as stated fails: not every sequence of entries is rendered.  On
    [overflow_entries], whose one entry has a finite start and a finite
    duration with a sum that overflows to infinity, the renderer raises
    [ValueError]: there is no output to parse. *)
Lemma create_json_overflow_raises :
  representable (units_of largest_finite) = true
  /\ fadd largest_finite largest_finite = Inf false
  /\ create_json 2 (Store overflow_entries [])
     = Raised (Exn ValueError (u "cannot convert float NaN to integer"))
              (Store overflow_entries []).
Proof. repeat apply conj; vm_compute; reflexivity. Qed.

(** ** Strings without a given character *)

Section Absent.
Implicit Types (c d : N) (s a b : list N).

Lemma contains_app c a b : contains c (a ++ b) = contains c a || contains c b.
Proof. unfold contains. apply existsb_app. Qed.

Lemma contains_cons c x s : contains c (x :: s) = (c =? x)%N || contains c s.
Proof. reflexivity. Qed.

Lemma contains_false c s : contains c s = false <-> Forall (fun x => x <> c) s.
Proof.
  unfold contains. induction s as [|x s IH]; cbn.
  - split; [constructor | done].
  - rewrite orb_false_iff, IH, Forall_cons, N.eqb_neq. split; intros []; split; auto.
Qed.

Lemma partition_absent c s : contains c s = false -> partition c s = (s, false, []).
Proof.
  induction s as [|x s IH]; [done|]. cbn.
  intros [Hx Hs]%orb_false_iff. rewrite N.eqb_sym in Hx. rewrite Hx.
  by rewrite (IH Hs).
Qed.

Lemma partition_app_first c a b :
  contains c a = false -> partition c (a ++ c :: b) = (a, true, b).
Proof.
  induction a as [|x a IH]; cbn.
  - intros _. by rewrite N.eqb_refl.
  - intros [Hx Hs]%orb_false_iff. rewrite N.eqb_sym in Hx. rewrite Hx.
    by rewrite (IH Hs).
Qed.

Lemma remove_char_absent c s : contains c s = false -> remove_char c s = s.
Proof.
  unfold remove_char, contains. induction s as [|x s IH]; [done|]. cbn [existsb].
  intros [Hx Hs]%orb_false_iff. apply N.eqb_neq in Hx.
  rewrite filter_cons_True by congruence. by rewrite (IH Hs).
Qed.

Lemma replace_char_absent c d s : contains c s = false -> replace_char c d s = s.
Proof.
  unfold replace_char. induction s as [|x s IH]; [done|]. cbn.
  intros [Hx Hs]%orb_false_iff. rewrite N.eqb_sym in Hx. rewrite Hx.
  by rewrite (IH Hs).
Qed.

Lemma split_absent c s : contains c s = false -> split c s = [s].
Proof.
  induction s as [|x s IH]; [done|]. cbn.
  intros [Hx Hs]%orb_false_iff. rewrite N.eqb_sym in Hx. rewrite Hx.
  by rewrite (IH Hs).
Qed.

Lemma split_app_first c a b :
  contains c a = false -> split c (a ++ c :: b) = a :: split c b.
Proof.
  induction a as [|x a IH]; cbn.
  - intros _. by rewrite N.eqb_refl.
  - intros [Hx Hs]%orb_false_iff. rewrite N.eqb_sym in Hx. rewrite Hx.
    by rewrite (IH Hs).
Qed.

Lemma rpartition_absent c s : contains c s = false -> rpartition c s = ([], false, s).
Proof.
  intros H. unfold rpartition. rewrite partition_absent; [done|].
  unfold contains in *. rewrite <- H. clear H.
  induction s as [|x s IH]; [done|]. cbn.
  rewrite existsb_app, IH. cbn. by rewrite orb_false_r, orb_comm.
Qed.

Lemma printable_contains d s :
  (d <=? 32)%N = true -> forallb (fun c => (32 <? c)%N) s = true ->
  contains d s = false.
Proof.
  intros Hd Hs. apply contains_false, Forall_forall. intros x Hx ->.
  rewrite forallb_forall in Hs. apply list_elem_of_In, Hs in Hx.
  apply N.leb_le in Hd. apply N.ltb_lt in Hx. lia.
Qed.

Lemma lstrip_by_head (p : N -> bool) x s : p x = false -> lstrip_by p (x :: s) = x :: s.
Proof. intros H. cbn. by rewrite H. Qed.
End Absent.

(** ** Inert characters *)

Section Inert.
Implicit Types (c d : N) (s : list N).

Lemma inert_contains d s : url_inert d = false -> inert s -> contains d s = false.
Proof.
  intros Hd Hs. apply contains_false.
  unfold inert in Hs. rewrite forallb_forall in Hs.
  apply Forall_forall. intros x Hx ->.
  apply list_elem_of_In, Hs in Hx. congruence.
Qed.

Lemma inert_app s t : inert (s ++ t) <-> inert s /\ inert t.
Proof. unfold inert. by rewrite forallb_app, andb_true_iff. Qed.

Lemma inert_cons c s : inert (c :: s) <-> url_inert c = true /\ inert s.
Proof. unfold inert. cbn. by rewrite andb_true_iff. Qed.

Lemma id_char_inert c : id_char c = true -> url_inert c = true.
Proof.
  unfold id_char, is_ascii_alnum, is_ascii_alpha, is_ascii_upper, is_ascii_lower,
    is_ascii_digit, in_range, url_inert. cbn.
  rewrite !orb_true_iff, !andb_true_iff, !negb_true_iff, !orb_false_iff.
  rewrite !N.leb_le, !N.eqb_eq, !N.eqb_neq, N.ltb_lt. lia.
Qed.

Lemma isalnum_char_inert rt c : isalnum_char rt c = true -> url_inert c = true.
Proof.
  unfold isalnum_char, is_ascii_char.
  destruct (N.ltb_spec c 128) as [Hc|Hc].
  - intros H. apply id_char_inert. unfold id_char. by rewrite H.
  - intros _. unfold url_inert. cbn.
    rewrite !andb_true_iff, !negb_true_iff, !orb_false_iff.
    rewrite !N.eqb_neq, N.ltb_lt. lia.
Qed.

Lemma isalnum_inert rt s : isalnum rt s = true -> inert s /\ s <> [].
Proof.
  unfold isalnum, inert. destruct s as [|c s]; [done|]. intros H. split; [|done].
  rewrite forallb_forall in H |- *. intros x Hx.
  by apply (isalnum_char_inert rt), H.
Qed.

Lemma id_chars_inert s : forallb id_char s = true -> inert s.
Proof.
  unfold inert. rewrite !forallb_forall. intros H x Hx.
  by apply id_char_inert, H.
Qed.

Lemma inert_lstrip s : inert s -> lstrip_by (fun c => (c <=? 32)%N) s = s.
Proof.
  destruct s as [|c s]; [done|]. intros [Hc _]%inert_cons.
  apply lstrip_by_head. unfold url_inert in Hc.
  apply andb_true_iff in Hc as [Hc _]. apply N.ltb_lt in Hc.
  apply N.leb_gt. exact Hc.
Qed.
End Inert.

(** ** What urlparse makes of the recognised shapes *)

Section UrlParse.
Variable rt : runtime.
Implicit Types (c d : N) (s : list N).

Lemma cut_absent c s : contains c s = false -> cut c s = None.
Proof. intros H. unfold cut. by rewrite partition_absent. Qed.

Lemma cut_app_first c a b : contains c a = false -> cut c (a ++ c :: b) = Some (a, b).
Proof. intros H. unfold cut. by rewrite partition_app_first. Qed.

Lemma split_at_absent c s : contains c s = false -> split_at c s = (s, []).
Proof. intros H. unfold split_at. by rewrite cut_absent. Qed.

Lemma split_at_first c a b : contains c a = false -> split_at c (a ++ c :: b) = (a, b).
Proof. intros H. unfold split_at. by rewrite cut_app_first. Qed.

Lemma split_scheme_absent s : contains 58 s = false -> split_scheme rt s = ([], s).
Proof.
  intros H. destruct s as [|c0 s]; [done|].
  unfold split_scheme. by rewrite cut_absent.
Qed.

Lemma split_scheme_found c0 pre post :
  contains 58 (c0 :: pre) = false ->
  is_ascii_char c0 && is_ascii_alpha c0
  && forallb (fun c => contains c scheme_chars) (c0 :: pre) = true ->
  split_scheme rt ((c0 :: pre) ++ 58%N :: post) = (lower rt (c0 :: pre), post).
Proof.
  intros H1 H2. unfold split_scheme. cbn [app].
  change (c0 :: pre ++ 58%N :: post) with ((c0 :: pre) ++ 58%N :: post).
  rewrite cut_app_first by done. by rewrite H2.
Qed.

Lemma split_netloc_none s : startswith s (u "//") = false -> split_netloc rt s = Ok ([], s).
Proof. intros H. unfold split_netloc. by rewrite H. Qed.

Lemma inert_not_slashes s : inert s -> startswith s (u "//") = false.
Proof.
  destruct s as [|c s]; [done|]. intros [Hc _]%inert_cons.
  change (u "//") with [47%N; 47%N]. cbn [startswith].
  destruct (N.eqb_spec 47 c) as [<-|]; [done|]. reflexivity.
Qed.

(** A text of inert characters has no scheme, no host, no query: it
    is a path. *)
Lemma urlparse_inert s : inert s -> urlparse rt s = Ok (mkParse [] [] s [] [] []).
Proof.
  intros Hs. unfold urlparse, urlsplit.
  rewrite (inert_lstrip s Hs).
  rewrite (remove_char_absent 9 s), (remove_char_absent 13 s),
    (remove_char_absent 10 s) by (by apply inert_contains).
  rewrite split_scheme_absent by (by apply inert_contains).
  rewrite split_netloc_none by (by apply inert_not_slashes).
  cbn [mbind exc_mbind exc_bind].
  rewrite !split_at_absent by (by apply inert_contains).
  cbn [mbind exc_mbind exc_bind checknetloc_ok sr_path sr_scheme sr_netloc
       sr_query sr_fragment].
  rewrite (inert_contains 59) by done.
  by rewrite andb_false_r.
Qed.

Lemma splitnetloc_app h k :
  host_plain h = true ->
  match k with [] => true | c :: _ => (c =? 47)%N || (c =? 63)%N end = true ->
  splitnetloc (h ++ k) = (h, k).
Proof.
  intros Hh Hk. induction h as [|x h IH].
  - cbn [app]. destruct k as [|c k]; [done|]. cbn.
    apply orb_true_iff in Hk as [->| ->]; by rewrite ?orb_true_r.
  - cbn in Hh. apply andb_true_iff in Hh as [Hx Hh].
    cbn [app splitnetloc]. rewrite (IH Hh).
    apply andb_true_iff in Hx as [_ Hx]. apply negb_true_iff in Hx.
    cbn in Hx. rewrite !orb_false_iff in Hx.
    destruct Hx as (E1 & E2 & E3 & _). by rewrite E1, E2, E3.
Qed.

Lemma host_plain_contains h d :
  (d <=? 32)%N || existsb (N.eqb d) [47; 63; 35; 91; 93; 64; 58; 37]%N = true ->
  host_plain h = true -> contains d h = false.
Proof.
  intros Hd Hh. apply contains_false, Forall_forall. intros x Hx ->.
  unfold host_plain in Hh. rewrite forallb_forall in Hh.
  apply list_elem_of_In, Hh in Hx.
  apply andb_true_iff in Hx as [[_ H1]%andb_true_iff H2].
  apply negb_true_iff in H2. apply N.ltb_lt in H1.
  apply orb_true_iff in Hd as [Hd|Hd]; [apply N.leb_le in Hd; lia | congruence].
Qed.

Lemma host_plain_isascii h : host_plain h = true -> isascii h = true.
Proof.
  unfold host_plain, isascii. rewrite !forallb_forall. intros H x Hx.
  apply H in Hx. by apply andb_true_iff in Hx as [[? _]%andb_true_iff _].
Qed.

Lemma path_plain_contains p d :
  (d <=? 32)%N || existsb (N.eqb d) [63; 35; 59]%N = true ->
  path_plain p = true -> contains d p = false.
Proof.
  intros Hd [_ Hp]%andb_true_iff. apply contains_false, Forall_forall. intros x Hx ->.
  rewrite forallb_forall in Hp. apply list_elem_of_In, Hp in Hx.
  apply andb_true_iff in Hx as [H1 H2].
  apply negb_true_iff in H2. apply N.ltb_lt in H1.
  apply orb_true_iff in Hd as [Hd|Hd]; [apply N.leb_le in Hd; lia | congruence].
Qed.

Lemma query_plain_contains q d :
  (d <=? 32)%N || (d =? 35)%N = true ->
  query_plain q = true -> contains d q = false.
Proof.
  intros Hd Hq. apply contains_false, Forall_forall. intros x Hx ->.
  unfold query_plain in Hq. rewrite forallb_forall in Hq.
  apply list_elem_of_In, Hq in Hx.
  apply andb_true_iff in Hx as [H1 H2].
  apply negb_true_iff in H2. apply N.ltb_lt in H1.
  apply orb_true_iff in Hd as [Hd|Hd]; [apply N.leb_le in Hd; lia | congruence].
Qed.

Lemma with_query_contains path q d :
  (d <=? 32)%N || (d =? 35)%N = true ->
  path_plain path = true -> from_option query_plain true q = true ->
  contains d (with_query path q) = false.
Proof.
  intros Hd Hp Hq.
  assert (contains d path = false) as Hdp.
  { apply path_plain_contains; [|done].
    apply orb_true_iff in Hd as [->|Hd]; [done|].
    apply N.eqb_eq in Hd as ->. reflexivity. }
  destruct q as [query|]; cbn [with_query from_option] in *; [|done].
  rewrite contains_app, Hdp, contains_cons. cbn [orb].
  rewrite (query_plain_contains query d Hd Hq), orb_false_r.
  apply orb_true_iff in Hd as [Hd|Hd].
  - apply N.leb_le in Hd. apply N.eqb_neq. lia.
  - apply N.eqb_eq in Hd as ->. reflexivity.
Qed.

(** [scheme://host/path?query] with plain parts is split into these
    parts. *)
Lemma urlparse_http sch host path q :
  sch = u "http" \/ sch = u "https" ->
  host_plain host = true -> path_plain path = true ->
  from_option query_plain true q = true ->
  urlparse rt (sch ++ u "://" ++ host ++ with_query path q)
  = Ok (mkParse sch host path [] (default [] q) []).
Proof.
  intros Hsch Hh Hp Hq.
  set (rest := host ++ with_query path q).
  assert (forall d, (d <=? 32)%N || (d =? 35)%N = true ->
                    contains d rest = false) as Hrest.
  { intros d Hd. subst rest. rewrite contains_app.
    rewrite (with_query_contains path q d Hd Hp Hq), orb_false_r.
    apply host_plain_contains; [|done].
    apply orb_true_iff in Hd as [->|Hd]; [done|].
    apply N.eqb_eq in Hd as ->. reflexivity. }
  assert (splitnetloc rest = (host, with_query path q)) as Hnet.
  { apply splitnetloc_app; [done|].
    destruct q as [query|]; cbn.
    - destruct path as [|c p]; cbn; [done|].
      apply andb_true_iff in Hp as [-> _]. done.
    - destruct path as [|c p]; cbn; [done|].
      apply andb_true_iff in Hp as [-> _]. done. }
  assert (split_at 35 (with_query path q) = (with_query path q, [])) as Hfrag
    by (apply split_at_absent, with_query_contains; done).
  assert (split_at 63 (with_query path q) = (path, default [] q)) as Hquery.
  { destruct q as [query|]; cbn [with_query default from_option].
    - apply split_at_first, path_plain_contains; done.
    - apply split_at_absent, path_plain_contains; done. }
  assert (checknetloc_ok rt host = true) as Hchk.
  { unfold checknetloc_ok. destruct host; [done|].
    by rewrite host_plain_isascii. }
  assert (contains 59 path = false) as Hsemi
    by (apply path_plain_contains; done).
  assert (contains 91 host = false) as Hob by (apply host_plain_contains; done).
  assert (contains 93 host = false) as Hcb by (apply host_plain_contains; done).
  assert (split_netloc rt (47 :: 47 :: rest)%N = Ok (host, with_query path q)) as Hnl.
  { unfold split_netloc. change (u "//") with [47%N; 47%N].
    cbn [startswith N.eqb Pos.eqb andb].
    change (drop 2 (47 :: 47 :: rest)%N) with rest.
    rewrite Hnet, Hob, Hcb. reflexivity. }
  assert (forall sch', sch' = u "http" \/ sch' = u "https" ->
            lstrip_by (fun c => (c <=? 32)%N) (sch' ++ 58%N :: 47%N :: 47%N :: rest)
            = sch' ++ 58%N :: 47%N :: 47%N :: rest
            /\ (forall d, (d <=? 32)%N = true ->
                   contains d (sch' ++ 58%N :: 47%N :: 47%N :: rest) = false)
            /\ split_scheme rt (sch' ++ 58%N :: 47%N :: 47%N :: rest)
               = (sch', 47 :: 47 :: rest)%N
            /\ bool_decide (sch' ∈ uses_params) = true) as Hscheme.
  { intros sch' [-> | ->].
    - split; [done|]. split; [|split; [|done]].
      + intros d Hd. rewrite contains_app, !contains_cons.
        rewrite (Hrest d) by (by rewrite Hd).
        rewrite printable_contains by done.
        apply N.leb_le in Hd.
        rewrite !(proj2 (N.eqb_neq d _)) by lia. reflexivity.
      + change (u "http") with [104; 116; 116; 112]%N.
        by rewrite split_scheme_found.
    - split; [done|]. split; [|split; [|done]].
      + intros d Hd. rewrite contains_app, !contains_cons.
        rewrite (Hrest d) by (by rewrite Hd).
        rewrite printable_contains by done.
        apply N.leb_le in Hd.
        rewrite !(proj2 (N.eqb_neq d _)) by lia. reflexivity.
      + change (u "https") with [104; 116; 116; 112; 115]%N.
        by rewrite split_scheme_found. }
  destruct (Hscheme sch Hsch) as (H1 & H2 & H3 & H4).
  unfold urlparse, urlsplit.
  change (sch ++ u "://" ++ rest) with (sch ++ 58%N :: 47%N :: 47%N :: rest).
  rewrite H1.
  rewrite (remove_char_absent 9), (remove_char_absent 13), (remove_char_absent 10)
    by (by apply H2).
  rewrite H3, Hnl. cbn [mbind exc_mbind exc_bind].
  rewrite Hfrag, Hquery, Hchk. cbn [mbind exc_mbind exc_bind sr_scheme sr_path
    sr_netloc sr_query sr_fragment].
  by rewrite H4, Hsemi.
Qed.
End UrlParse.

(** ** extract_video_id on the recognised shapes *)

Ltac split_orb :=
  repeat match goal with
         | H : _ || _ = false |- _ => apply orb_false_iff in H as [? ?]
         | |- _ || _ = false => apply orb_false_iff; split
         end.

Section Extract.
Variable rt : runtime.
Implicit Types (c d : N) (s id : list N).

Lemma hostname_plain sch h p ps q f :
  host_plain h = true -> h <> [] ->
  hostname rt (mkParse sch h p ps q f) = Some (lower rt h).
Proof.
  intros Hh Hne. unfold hostname, hostinfo_host. cbn [netloc].
  rewrite (rpartition_absent 64 h) by (by apply host_plain_contains).
  rewrite (partition_absent 91 h) by (by apply host_plain_contains).
  rewrite (partition_absent 58 h) by (by apply host_plain_contains).
  destruct h as [|c h]; [done|].
  rewrite (partition_absent 37 (c :: h)) by (by apply host_plain_contains).
  by rewrite !app_nil_r.
Qed.

Lemma hostname_no_netloc sch p ps q f : hostname rt (mkParse sch [] p ps q f) = None.
Proof. reflexivity. Qed.

(** A text with a character that is not alphanumeric fails [isalnum]. *)
Lemma isalnum_contains c s :
  isalnum_char rt c = false -> contains c s = true -> isalnum rt s = false.
Proof.
  intros Hc Hs. destruct s as [|x s]; [done|]. unfold isalnum.
  apply not_true_is_false. intros H. rewrite forallb_forall in H.
  unfold contains in Hs. apply existsb_exists in Hs as (y & Hy & E).
  apply N.eqb_eq in E as <-. apply H in Hy. congruence.
Qed.

Lemma raw_id_contains c s :
  isalnum_char rt c = false -> contains c s = true -> raw_id rt s = false.
Proof. intros Hc Hs. unfold raw_id. by rewrite (isalnum_contains c s), andb_false_r. Qed.

Lemma raw_id_inert s : raw_id rt s = true -> inert s /\ s <> [] /\ length s = 11%nat.
Proof.
  unfold raw_id. intros [Hl Ha]%andb_true_iff.
  apply Nat.eqb_eq in Hl. by destruct (isalnum_inert rt s Ha).
Qed.

(** One [name=value] pair with nothing to decode. *)
Lemma parse_qsl_pair n v :
  contains 38 n = false -> contains 61 n = false ->
  contains 43 n = false -> contains 37 n = false ->
  inert v -> v <> [] ->
  parse_qsl rt (n ++ 61%N :: v) = [(n, v)].
Proof.
  intros H38 H61 H43 H37 Hv Hne. unfold parse_qsl.
  assert (contains 38 (n ++ 61%N :: v) = false) as Hamp.
  { rewrite contains_app, contains_cons, H38. by rewrite (inert_contains 38 v). }
  assert (match n ++ 61%N :: v with [] => [] | _ => split 38 (n ++ 61%N :: v) end
          = [n ++ 61%N :: v]) as ->.
  { rewrite split_absent by done. by destruct n. }
  cbn [flat_map]. rewrite app_nil_r.
  assert (split1 61 (n ++ 61%N :: v) = [n; v]) as Hs.
  { unfold split1. by rewrite partition_app_first. }
  rewrite Hs. unfold unquote.
  rewrite !replace_char_absent by (done || by apply inert_contains).
  rewrite H37, (inert_contains 37 v) by done.
  destruct n, v; done.
Qed.

Lemma parse_qs_pair n v :
  contains 38 n = false -> contains 61 n = false ->
  contains 43 n = false -> contains 37 n = false ->
  inert v -> v <> [] ->
  parse_qs rt (n ++ 61%N :: v) = {[ n := [v] ]}.
Proof.
  intros. unfold parse_qs. rewrite parse_qsl_pair by done.
  cbn [fold_left fst snd]. by rewrite lookup_empty, insert_empty.
Qed.

(** The branches of [extract_video_id] after the raw-ID test, one lemma
    per [return]. *)
Lemma extract_video_id_raw s : raw_id rt s = true -> extract_video_id rt s = Ok (Some s).
Proof. unfold raw_id, extract_video_id. by intros ->. Qed.

Lemma extract_video_id_raise s e :
  raw_id rt s = false -> urlparse rt s = Raise e -> extract_video_id rt s = Raise e.
Proof. unfold raw_id, extract_video_id. by intros -> ->. Qed.

Lemma extract_video_id_watch s p :
  raw_id rt s = false -> urlparse rt s = Ok p ->
  hostname rt p ∈ Some <$> youtube_hosts -> path p = u "/watch" ->
  extract_video_id rt s
  = match parse_qs rt (query p) !! u "v" with
    | Some (x :: _) => Ok (Some x)
    | Some [] => Raise (Exn IndexError (u "list index out of range"))
    | None => Ok None
    end.
Proof.
  unfold raw_id, extract_video_id. intros -> -> Hh Hp.
  cbn [mbind exc_mbind exc_bind].
  rewrite bool_decide_eq_true_2 by exact Hh.
  rewrite bool_decide_eq_true_2 by exact Hp.
  by destruct (parse_qs rt (query p) !! u "v") as [[|x l]|].
Qed.

Lemma extract_video_id_embed s p :
  raw_id rt s = false -> urlparse rt s = Ok p ->
  hostname rt p ∈ Some <$> youtube_hosts -> path p <> u "/watch" ->
  startswith (path p) (u "/embed/") = true ->
  extract_video_id rt s
  = match split 47 (path p) !! 2%nat with
    | Some r => Ok (Some r)
    | None => Raise (Exn IndexError (u "list index out of range"))
    end.
Proof.
  unfold raw_id, extract_video_id. intros -> -> Hh Hp He.
  cbn [mbind exc_mbind exc_bind].
  rewrite bool_decide_eq_true_2 by exact Hh.
  rewrite bool_decide_eq_false_2 by exact Hp.
  by rewrite He.
Qed.

Lemma extract_video_id_other_path s p :
  raw_id rt s = false -> urlparse rt s = Ok p ->
  hostname rt p ∈ Some <$> youtube_hosts -> path p <> u "/watch" ->
  startswith (path p) (u "/embed/") = false ->
  extract_video_id rt s = Ok None.
Proof.
  unfold raw_id, extract_video_id. intros -> -> Hh Hp He.
  cbn [mbind exc_mbind exc_bind].
  rewrite bool_decide_eq_true_2 by exact Hh.
  rewrite bool_decide_eq_false_2 by exact Hp.
  by rewrite He.
Qed.

Lemma extract_video_id_short s p :
  raw_id rt s = false -> urlparse rt s = Ok p ->
  hostname rt p = Some short_host ->
  extract_video_id rt s = Ok (Some (drop 1 (path p))).
Proof.
  unfold raw_id, extract_video_id. intros -> -> Hh.
  cbn [mbind exc_mbind exc_bind]. by rewrite Hh.
Qed.

Lemma extract_video_id_other_host s p :
  raw_id rt s = false -> urlparse rt s = Ok p ->
  hostname rt p ∉ Some <$> (youtube_hosts ++ [short_host]) ->
  extract_video_id rt s = Ok None.
Proof.
  unfold raw_id, extract_video_id. intros -> -> Hh.
  cbn [mbind exc_mbind exc_bind].
  rewrite fmap_app, elem_of_app in Hh.
  rewrite bool_decide_eq_false_2 by (intros ?; apply Hh; by left).
  by rewrite bool_decide_eq_false_2 by (intros ?; apply Hh; by right).
Qed.

Lemma None_not_recognised (hosts : list (list N)) : None ∉ Some <$> hosts.
Proof. by intros (x & ? & _)%list_elem_of_fmap. Qed.

(** A raw ID is told from a URL by the first test: no recognised host
    is found in it. *)
Lemma raw_id_no_host s p :
  raw_id rt s = true -> urlparse rt s = Ok p -> hostname rt p = None.
Proof.
  intros (Hs & _ & _)%raw_id_inert. rewrite (urlparse_inert rt s Hs).
  by intros [= <-].
Qed.

(** The URL shapes: their scheme, host, path and query are plain. *)
Lemma youtube_hosts_plain host :
  host ∈ youtube_hosts ++ [short_host] ->
  host_plain host = true /\ host <> [] /\ lower rt host = host.
Proof.
  unfold youtube_hosts, short_host. cbn [app].
  rewrite !elem_of_cons, elem_of_nil.
  intros [->|[->|[->|[->|[]]]]]; (split; [|split]; [reflexivity|done|reflexivity]).
Qed.

Lemma url_not_raw sch rest : raw_id rt (sch ++ u "://" ++ rest) = false.
Proof.
  apply (raw_id_contains 58); [reflexivity|].
  rewrite contains_app. change (u "://" ++ rest) with (58 :: 47 :: 47 :: rest)%N.
  by rewrite contains_cons, N.eqb_refl, orb_true_r.
Qed.

Lemma inert_path_plain pre id :
  path_plain pre = true -> pre <> [] -> inert id -> path_plain (pre ++ id) = true.
Proof.
  unfold path_plain. intros [H1 H2]%andb_true_iff Hne Hid.
  destruct pre as [|c pre]; [done|]. cbn [app]. rewrite H1. cbn [andb].
  change (c :: pre ++ id) with ((c :: pre) ++ id).
  rewrite forallb_app, H2. cbn [andb].
  unfold inert in Hid. rewrite forallb_forall in Hid |- *. intros x Hx.
  apply Hid in Hx. unfold url_inert in Hx.
  apply andb_true_iff in Hx as [-> Hx]. cbn [andb].
  apply negb_true_iff in Hx. apply negb_true_iff.
  cbn [existsb] in Hx |- *. split_orb; done.
Qed.

Lemma inert_query_plain pre id :
  query_plain pre = true -> inert id -> query_plain (pre ++ id) = true.
Proof.
  unfold query_plain. intros H Hid. rewrite forallb_app, H. cbn [andb].
  unfold inert in Hid. rewrite forallb_forall in Hid |- *. intros x Hx.
  apply Hid in Hx. unfold url_inert in Hx.
  apply andb_true_iff in Hx as [-> Hx]. cbn [andb].
  apply negb_true_iff in Hx. apply negb_true_iff.
  cbn [existsb] in Hx. split_orb; done.
Qed.

(** What the three URL shapes give for an identifier of inert
    characters: the identifier. *)
Lemma extract_video_id_watch_url sch host id :
  sch = u "http" \/ sch = u "https" -> host ∈ youtube_hosts ->
  inert id -> id <> [] ->
  extract_video_id rt (sch ++ u "://" ++ host ++ u "/watch?v=" ++ id) = Ok (Some id).
Proof.
  intros Hsch Hhost Hid Hne.
  destruct (youtube_hosts_plain host) as (Hp & Hn & Hl);
    [apply elem_of_app; by left|].
  pose proof (urlparse_http rt sch host (u "/watch") (Some (u "v=" ++ id)) Hsch Hp
                eq_refl (inert_query_plain (u "v=") id eq_refl Hid)) as Hparse.
  change (with_query (u "/watch") (Some (u "v=" ++ id))) with (u "/watch?v=" ++ id)
    in Hparse.
  rewrite (extract_video_id_watch _ _ (url_not_raw sch _) Hparse).
  - cbn [query default from_option].
    change (parse_qs rt _) with (parse_qs rt ([118%N] ++ 61%N :: id)).
    rewrite parse_qs_pair by done.
    change (u "v") with [118%N]. by rewrite lookup_singleton.
  - rewrite hostname_plain, Hl by done. by apply list_elem_of_fmap_2.
  - reflexivity.
Qed.

Lemma extract_video_id_embed_url sch host id :
  sch = u "http" \/ sch = u "https" -> host ∈ youtube_hosts ->
  inert id ->
  extract_video_id rt (sch ++ u "://" ++ host ++ u "/embed/" ++ id) = Ok (Some id).
Proof.
  intros Hsch Hhost Hid.
  destruct (youtube_hosts_plain host) as (Hp & Hn & Hl);
    [apply elem_of_app; by left|].
  pose proof (urlparse_http rt sch host (u "/embed/" ++ id) None Hsch Hp
                (inert_path_plain (u "/embed/") id eq_refl ltac:(done) Hid) eq_refl)
    as Hparse.
  change (with_query (u "/embed/" ++ id) None) with (u "/embed/" ++ id) in Hparse.
  rewrite (extract_video_id_embed _ _ (url_not_raw sch _) Hparse).
  - cbn [path].
    change (u "/embed/" ++ id) with ([] ++ 47%N :: (u "embed" ++ 47%N :: id)).
    rewrite split_app_first by done. rewrite split_app_first by done.
    by rewrite split_absent by (by apply inert_contains).
  - rewrite hostname_plain, Hl by done. by apply list_elem_of_fmap_2.
  - done.
  - reflexivity.
Qed.

Lemma extract_video_id_short_url sch id :
  sch = u "http" \/ sch = u "https" -> inert id ->
  extract_video_id rt (sch ++ u "://" ++ short_host ++ u "/" ++ id) = Ok (Some id).
Proof.
  intros Hsch Hid.
  pose proof (urlparse_http rt sch short_host (u "/" ++ id) None Hsch eq_refl
                (inert_path_plain (u "/") id eq_refl ltac:(done) Hid) eq_refl)
    as Hparse.
  change (with_query (u "/" ++ id) None) with (u "/" ++ id) in Hparse.
  by rewrite (extract_video_id_short _ _ (url_not_raw sch _) Hparse).
Qed.

End Extract.

(** ** The claims about extract_video_id *)

(** C2, as the code has it.  For every raw ID (11 alphanumeric
    characters) the raw text and the three URL shapes
    [http(s)://<host>/watch?v=<id>], [http(s)://<host>/embed/<id>] with a
    host among [www.youtube.com], [youtube.com], [m.youtube.com], and
    [http(s)://youtu.be/<id>], all give that ID.  A text that is no raw ID
    and that [urlparse] accepts gives the not-found signal when its host
    is none of the four, and when its host is one of the three long ones
    and its path is neither [/watch] nor begins with [/embed/].  A text
    that [urlparse] refuses gives no signal: the exception of [urlparse]
    leaves the function. *)
Theorem extract_video_id_shapes (rt : runtime) :
  (forall id sch host,
      raw_id rt id = true -> sch = u "http" \/ sch = u "https" ->
      host ∈ youtube_hosts ->
      extract_video_id rt id = Ok (Some id)
      /\ extract_video_id rt (sch ++ u "://" ++ host ++ u "/watch?v=" ++ id)
         = Ok (Some id)
      /\ extract_video_id rt (sch ++ u "://" ++ host ++ u "/embed/" ++ id)
         = Ok (Some id)
      /\ extract_video_id rt (sch ++ u "://" ++ short_host ++ u "/" ++ id)
         = Ok (Some id))
  /\ (forall s p,
        raw_id rt s = false -> urlparse rt s = Ok p ->
        hostname rt p ∉ Some <$> (youtube_hosts ++ [short_host])
        \/ (hostname rt p ∈ Some <$> youtube_hosts
            /\ path p <> u "/watch"
            /\ startswith (path p) (u "/embed/") = false) ->
        extract_video_id rt s = Ok None)
  /\ (forall s e,
        raw_id rt s = false -> urlparse rt s = Raise e ->
        extract_video_id rt s = Raise e).
Proof.
  split; [|split].
  - intros id sch host Hid Hsch Hhost.
    destruct (raw_id_inert rt id Hid) as (Hi & Hne & _).
    split; [by apply extract_video_id_raw|].
    split; [by apply extract_video_id_watch_url|].
    split; [by apply extract_video_id_embed_url|].
    by apply extract_video_id_short_url.
  - intros s p Hraw Hp [Hh | (Hh & Hw & He)].
    + by apply (extract_video_id_other_host rt s p).
    + by apply (extract_video_id_other_path rt s p).
  - intros s e. apply extract_video_id_raise.
Qed.

Lemma extract_video_id_shapes_witness :
  extract_video_id ascii_runtime example_id = Ok (Some example_id)
  /\ extract_video_id ascii_runtime (u "https://www.youtube.com/watch?v=dQw4w9WgXcQ")
     = Ok (Some example_id)
  /\ extract_video_id ascii_runtime (u "https://www.youtube.com/embed/dQw4w9WgXcQ")
     = Ok (Some example_id)
  /\ extract_video_id ascii_runtime (u "https://youtu.be/dQw4w9WgXcQ")
     = Ok (Some example_id).
Proof.
  apply (proj1 (extract_video_id_shapes ascii_runtime)
           example_id (u "https") (u "www.youtube.com")).
  - vm_compute. reflexivity.
  - right. reflexivity.
  - left.
Defined.

(** C2 as stated fails: [http://[] has no recognised host, and the
    function raises [ValueError] instead of giving the not-found
    signal. *)
Lemma extract_video_id_unrecognized_raises :
  extract_video_id ascii_runtime (u "http://[")
  = Raise (Exn ValueError (u "Invalid IPv6 URL")).
Proof. vm_compute. reflexivity. Qed.

(** C9.  A URL with one of the three long hosts and the path [/watch]
    whose query has no [v] parameter gives the not-found signal; the
    lookup of [v] does not raise. *)
Theorem extract_video_id_watch_without_v (rt : runtime) (s : str) (p : ParseResult) :
  urlparse rt s = Ok p ->
  hostname rt p ∈ Some <$> youtube_hosts ->
  path p = u "/watch" ->
  parse_qs rt (query p) !! u "v" = None ->
  extract_video_id rt s = Ok None.
Proof.
  intros Hp Hh Hw Hv.
  assert (raw_id rt s = false) as Hraw.
  { destruct (raw_id rt s) eqn:E; [|done].
    rewrite (raw_id_no_host rt s p E Hp) in Hh.
    by apply None_not_recognised in Hh. }
  by rewrite (extract_video_id_watch rt s p Hraw Hp Hh Hw), Hv.
Qed.

Lemma extract_video_id_watch_without_v_witness :
  extract_video_id ascii_runtime (u "https://www.youtube.com/watch?t=10&list=PL1")
  = Ok None.
Proof.
  apply (extract_video_id_watch_without_v ascii_runtime _
           (mkParse (u "https") (u "www.youtube.com") (u "/watch") []
                    (u "t=10&list=PL1") [])).
  - vm_compute. reflexivity.
  - left.
  - reflexivity.
  - vm_compute. reflexivity.
Defined.

(** C10, as the code has it.  A text of 11 characters with a [-] or a
    [_] is no raw ID, so it is handed to [urlparse], and when that
    accepts it and finds none of the four hosts the result is the
    not-found signal.  In particular every identifier of 11 characters
    among letters, digits, [-] and [_] with a [-] or a [_] gives the
    not-found signal as a raw text, and is extracted from each of the
    three URL shapes. *)
Theorem extract_video_id_dashed (rt : runtime) :
  (forall s,
      length s = 11%nat -> contains 45 s || contains 95 s = true ->
      raw_id rt s = false
      /\ forall p, urlparse rt s = Ok p ->
           hostname rt p ∉ Some <$> (youtube_hosts ++ [short_host]) ->
           extract_video_id rt s = Ok None)
  /\ (forall id,
        length id = 11%nat -> forallb id_char id = true ->
        contains 45 id || contains 95 id = true ->
        extract_video_id rt id = Ok None
        /\ forall sch host,
             sch = u "http" \/ sch = u "https" -> host ∈ youtube_hosts ->
             extract_video_id rt (sch ++ u "://" ++ host ++ u "/watch?v=" ++ id)
             = Ok (Some id)
             /\ extract_video_id rt (sch ++ u "://" ++ host ++ u "/embed/" ++ id)
                = Ok (Some id)
             /\ extract_video_id rt (sch ++ u "://" ++ short_host ++ u "/" ++ id)
                = Ok (Some id)).
Proof.
  assert (forall s, contains 45 s || contains 95 s = true -> raw_id rt s = false)
    as Hraw.
  { intros s [H | H]%orb_true_iff.
    - by apply (raw_id_contains rt 45).
    - by apply (raw_id_contains rt 95). }
  split.
  - intros s _ Hs. split; [by apply Hraw|].
    intros p Hp Hh. by apply (extract_video_id_other_host rt s p); [apply Hraw|..].
  - intros id Hl Hid Hd. pose proof (id_chars_inert id Hid) as Hi.
    assert (id <> []) as Hne by (by destruct id).
    split.
    + apply (extract_video_id_other_host rt id _ (Hraw id Hd) (urlparse_inert rt id Hi)).
      rewrite hostname_no_netloc. apply None_not_recognised.
    + intros sch host Hsch Hhost.
      split; [by apply extract_video_id_watch_url|].
      split; [by apply extract_video_id_embed_url|].
      by apply extract_video_id_short_url.
Qed.

Lemma extract_video_id_dashed_witness :
  extract_video_id ascii_runtime example_dashed_id = Ok None
  /\ forall sch host,
       sch = u "http" \/ sch = u "https" -> host ∈ youtube_hosts ->
       extract_video_id ascii_runtime
         (sch ++ u "://" ++ host ++ u "/watch?v=" ++ example_dashed_id)
       = Ok (Some example_dashed_id)
       /\ extract_video_id ascii_runtime
            (sch ++ u "://" ++ host ++ u "/embed/" ++ example_dashed_id)
          = Ok (Some example_dashed_id)
       /\ extract_video_id ascii_runtime
            (sch ++ u "://" ++ short_host ++ u "/" ++ example_dashed_id)
          = Ok (Some example_dashed_id).
Proof.
  apply (proj2 (extract_video_id_dashed ascii_runtime) example_dashed_id).
  - reflexivity.
  - vm_compute. reflexivity.
  - vm_compute. reflexivity.
Defined.

(** C10 as stated fails: [//[-aaaaaaa] has 11 characters, one of them a
    [-], and is no recognised URL, and the function raises [ValueError]
    instead of giving the not-found signal. *)
Lemma extract_video_id_dashed_raises :
  length (u "//[-aaaaaaa") = 11%nat
  /\ contains 45 (u "//[-aaaaaaa") = true
  /\ extract_video_id ascii_runtime (u "//[-aaaaaaa")
     = Raise (Exn ValueError (u "Invalid IPv6 URL")).
Proof. repeat apply conj; vm_compute; reflexivity. Qed.

(** ** The lines of the flattened text *)

(** Texts without a newline, joined by newlines, are got back by
    splitting at the newlines. *)
Lemma split_join_newline (items : list (list N)) :
  items <> [] -> Forall (fun t => contains 10 t = false) items ->
  split 10 (join newline items) = items.
Proof.
  induction items as [|x items IH]; [done|]. intros _ [Hx Hitems]%Forall_cons.
  destruct items as [|y items].
  - cbn [join]. by apply split_absent.
  - rewrite join_cons2. change (newline ++ ?t) with (10%N :: t).
    rewrite split_app_first by done. f_equal. by apply IH.
Qed.

(** C4 (amended): [create_markdown] returns the newline-join of the
    trimmed texts that are not empty, in input order, and there are as
    many of them as entries whose text is not empty after trimming.
    When none of them contains a newline (and there is one at least),
    they are the lines of the returned text. *)
Theorem create_markdown_lines (data : list entry) (fuel : nat) :
  (length data < fuel)%nat ->
  create_markdown fuel (Store data [])
  = Done (join newline (md_lines data)) (Store data (md_lines data))
  /\ md_lines data = filter (fun t => t <> []) (map (fun e => strip (text e)) data)
  /\ length (md_lines data)
     = length (filter (fun e => strip (text e) <> []) data)
  /\ (md_lines data <> [] ->
      Forall (fun t => contains 10 t = false) (md_lines data) ->
      split 10 (join newline (md_lines data)) = md_lines data
      /\ length (split 10 (join newline (md_lines data)))
         = length (filter (fun e => strip (text e) <> []) data)).
Proof.
  intros Hfuel.
  assert (length (md_lines data)
          = length (filter (fun e => strip (text e) <> []) data)) as Hlen.
  { unfold md_lines. clear Hfuel. induction data as [|e data IH]; [done|].
    cbn [map]. rewrite !filter_cons.
    repeat case_decide; try contradiction; [cbn [length]; f_equal|]; exact IH. }
  split; [|split; [done|split; [exact Hlen|]]].
  - unfold create_markdown, bind.
    rewrite (for_in_appends _ (fun _ => True)
               (fun _ e => filter (fun t => t <> []) [strip (text e)]) data).
    + cbn. by rewrite md_lines_concat.
    + intros. by apply create_markdown_body_spec.
    + lia.
    + by apply Forall_true.
  - intros Hne Hnl. by rewrite split_join_newline.
Qed.

Lemma create_markdown_lines_witness :
  create_markdown 3 (Store example_entries [])
  = Done (join newline (md_lines example_entries))
         (Store example_entries (md_lines example_entries))
  /\ md_lines example_entries
     = filter (fun t => t <> []) (map (fun e => strip (text e)) example_entries)
  /\ length (md_lines example_entries)
     = length (filter (fun e => strip (text e) <> []) example_entries)
  /\ (md_lines example_entries <> [] ->
      Forall (fun t => contains 10 t = false) (md_lines example_entries) ->
      split 10 (join newline (md_lines example_entries)) = md_lines example_entries
      /\ length (split 10 (join newline (md_lines example_entries)))
         = length (filter (fun e => strip (text e) <> []) example_entries)).
Proof. apply (create_markdown_lines example_entries 3). vm_compute. lia. Defined.

(** C4 as stated fails: trimming keeps the newlines inside a text.  The
    one entry of [two_line_entries] is not empty after trimming, and the
    returned text has two lines. *)
Lemma create_markdown_inner_newline :
  create_markdown 2 (Store two_line_entries [])
  = Done (u "a" ++ newline ++ u "b")
         (Store two_line_entries [u "a" ++ newline ++ u "b"])
  /\ split 10 (u "a" ++ newline ++ u "b") = [u "a"; u "b"]
  /\ length (filter (fun e => strip (text e) <> []) two_line_entries) = 1%nat.
Proof. repeat apply conj; vm_compute; reflexivity. Qed.

Example create_markdown_example :
  create_markdown 3 (Store example_entries [])
  = Done (u "hi") (Store example_entries [u "hi"]).
Proof. vm_compute. reflexivity. Qed.

(** ** main *)

(** Two results of the same call are the same result. *)
Ltac same_call :=
  repeat match goal with
         | H1 : ?t = _, H2 : ?t = _ |- _ => rewrite H1 in H2; simplify_eq
         end.

Section MainFacts.
Variable rt : runtime.
Variable w : world.

(** With the fuel [main] gives them the renderers end. *)
Lemma call_ends {X} (body : nat -> M X unit) (fin : M X str) data :
  (forall i, keeps_input (body i)) -> keeps_input fin ->
  exists r, call (fun fuel => bind (for_in fuel 0 body) (fun _ => fin)) data = Some r.
Proof.
  intros Hb Hf. unfold call.
  destruct (render_loop_keeps body fin data (S (length data))) as (st & H & _);
    [lia|done|done|].
  destruct (bind _ _ _); [by eexists|by eexists|done].
Qed.

Lemma call_create_srt data : exists r, call create_srt data = Some r.
Proof. apply call_ends; [apply create_srt_body_keeps|apply join_local_keeps]. Qed.

Lemma call_create_markdown data : exists r, call create_markdown data = Some r.
Proof. apply call_ends; [apply create_markdown_body_keeps|apply join_local_keeps]. Qed.

Lemma call_create_json data : exists r, call create_json data = Some r.
Proof.
  apply call_ends; [apply create_json_body_keeps|].
  apply (join_local_keeps (fun l => dumps 2 (JArr l))).
Qed.

(** The body of the [try] ends; it ends without an exception exactly
    when all its steps succeed. *)
Lemma try_body_spec vid f1 f2 f3 :
  exists out fs r,
    try_body w vid f1 f2 f3 = Some (out, fs, r)
    /\ (r = Ok tt -> try_succeeds w vid f1 f2 f3 fs)
    /\ (forall e, r = Raise e -> forall fs', ~ try_succeeds w vid f1 f2 f3 fs').
Proof.
  unfold try_body.
  destruct (api_list w vid) as [tl|e0] eqn:Hl; cycle 1.
  { eexists _, _, _. split; [done|]. split; [done|].
    intros e _ fs' (? & ? & ? & ? & ? & ? & ? & _). same_call. }
  set (lookup := match find_transcript w tl with
                 | Ok t => ([], Ok t)
                 | Raise _ => ([TryingGenerated], find_generated_transcript w tl)
                 end).
  assert (forall t, snd lookup = Ok t <->
            (find_transcript w tl = Ok t
             \/ is_Raise (find_transcript w tl)
                /\ find_generated_transcript w tl = Ok t)) as Hlookup.
  { intros t. subst lookup. destruct (find_transcript w tl) as [t'|e'] eqn:Hf; cbn.
    - split; [intros [= ->]; by left|]. intros [?|[[? ?] _]]; by simplify_eq.
    - split; [intros H; right; split; [by eexists|done]|].
      intros [?|[_ ?]]; by simplify_eq. }
  destruct lookup as [out found]. cbn [snd] in Hlookup.
  destruct found as [t|e1]; cycle 1.
  { eexists _, _, _. split; [done|]. split; [done|].
    intros e _ fs' (? & t' & ? & ? & ? & ? & ? & Ht & _). same_call.
    by apply Hlookup in Ht. }
  destruct (fetch_raw_data w t) as [data|e2] eqn:Hd; cycle 1.
  { eexists _, _, _. split; [done|]. split; [done|].
    intros e _ fs' (? & t' & ? & ? & ? & ? & ? & Ht & ? & _). same_call.
    apply Hlookup in Ht. simplify_eq. same_call. }
  destruct (call_create_srt data) as [srt Hsrt].
  destruct (call_create_markdown data) as [md Hmd].
  destruct (call_create_json data) as [js Hjs].
  assert (forall fs' (P : Prop),
            (forall srt' md' js',
               call create_srt data = Some (Ok srt') ->
               write_text w f1 srt' = Ok tt ->
               call create_markdown data = Some (Ok md') ->
               write_text w f2 md' = Ok tt ->
               call create_json data = Some (Ok js') ->
               write_text w f3 js' = Ok tt -> P) ->
            try_succeeds w vid f1 f2 f3 fs' -> P) as Hinv.
  { intros fs' P HP (? & t' & ? & ? & ? & ? & ? & Ht & ? & ? & ? & ? & ? & ? & ? & _).
    same_call. apply Hlookup in Ht. simplify_eq. same_call. by eapply HP. }
  rewrite Hsrt. cbn [mbind option_bind].
  destruct srt as [srt|e3]; cycle 1.
  { eexists _, _, _. split; [done|]. split; [done|].
    intros e _ fs' Hs. apply (Hinv fs' False); [|exact Hs]. intros. same_call. }
  destruct (write_text w f1 srt) as [[]|e4] eqn:Hw1; cycle 1.
  { eexists _, _, _. split; [done|]. split; [done|].
    intros e _ fs' Hs. apply (Hinv fs' False); [|exact Hs]. intros. same_call. }
  rewrite Hmd. cbn [mbind option_bind].
  destruct md as [md|e5]; cycle 1.
  { eexists _, _, _. split; [done|]. split; [done|].
    intros e _ fs' Hs. apply (Hinv fs' False); [|exact Hs]. intros. same_call. }
  destruct (write_text w f2 md) as [[]|e6] eqn:Hw2; cycle 1.
  { eexists _, _, _. split; [done|]. split; [done|].
    intros e _ fs' Hs. apply (Hinv fs' False); [|exact Hs]. intros. same_call. }
  rewrite Hjs. cbn [mbind option_bind].
  destruct js as [js|e7]; cycle 1.
  { eexists _, _, _. split; [done|]. split; [done|].
    intros e _ fs' Hs. apply (Hinv fs' False); [|exact Hs]. intros. same_call. }
  destruct (write_text w f3 js) as [[]|e8] eqn:Hw3; cycle 1.
  { eexists _, _, _. split; [done|]. split; [done|].
    intros e _ fs' Hs. apply (Hinv fs' False); [|exact Hs]. intros. same_call. }
  eexists _, _, _. split; [done|]. split; [|done].
  intros _. exists tl, t, data, srt, md, js.
  repeat (split; [done|]). split; [by apply Hlookup|]. by repeat (split; [done|]).
Qed.

(** A run that reaches the [try] block prints the four progress lines
    and ends as the block does. *)
Lemma main_reaches_try src vid :
  reaches_try rt w src vid ->
  main rt w
  = '(out, fs, r) ← try_body w vid (target w vid (u ".en.srt"))
                      (target w vid (u ".md")) (target w vid (u ".json"));
    Some match r with
         | Ok _ => Run 0 (progress w src vid ++ out) [] fs
         | Raise e => exit1 (progress w src vid ++ out) [] fs (ErrorLine (exn_msg e))
         end.
Proof.
  intros (prog & rest & Ha & Hi & He & Hne & Hm). unfold main.
  rewrite Ha, Hi, He, Hm. destruct vid as [|c vid]; [done|].
  destruct (try_body _ _ _ _ _) as [[[out fs] [[]|e]]|]; reflexivity.
Qed.

(** The block up to the fetch. *)
Lemma try_body_fetches vid f1 f2 f3 out data :
  fetches w vid out data ->
  try_body w vid f1 f2 f3
  = srt ← call create_srt data;
    match srt with
    | Raise e => Some (out, [], Raise e)
    | Ok srt_content =>
        match write_text w f1 srt_content with
        | Raise e => Some (out, [], Raise e)
        | Ok _ =>
            md ← call create_markdown data;
            match md with
            | Raise e => Some (out, [(f1, srt_content)], Raise e)
            | Ok md_content =>
                match write_text w f2 md_content with
                | Raise e => Some (out, [(f1, srt_content)], Raise e)
                | Ok _ =>
                    js ← call create_json data;
                    match js with
                    | Raise e =>
                        Some (out, [(f1, srt_content); (f2, md_content)], Raise e)
                    | Ok json_content =>
                        match write_text w f3 json_content with
                        | Raise e =>
                            Some (out, [(f1, srt_content); (f2, md_content)], Raise e)
                        | Ok _ =>
                            Some (out ++ [Saved (outdir w)],
                                  [(f1, srt_content); (f2, md_content);
                                   (f3, json_content)], Ok tt)
                        end
                    end
                end
            end
        end
    end.
Proof.
  intros (tl & t & Hl & Hf & Hd). unfold try_body. rewrite Hl.
  destruct Hf as [[Hf ->] | ([e He] & Hg & ->)].
  - rewrite Hf, Hd. reflexivity.
  - rewrite He, Hg, Hd. reflexivity.
Qed.

(** What is printed inside the block, once the transcripts are listed
    and the lookup of manual subtitles raises, begins with the fallback
    notice. *)
Lemma try_body_notice vid f1 f2 f3 out fs r tl :
  try_body w vid f1 f2 f3 = Some (out, fs, r) ->
  api_list w vid = Ok tl -> is_Raise (find_transcript w tl) ->
  exists rest, out = TryingGenerated :: rest.
Proof.
  intros Htb Hl [e1 H1]. unfold try_body in Htb. rewrite Hl, H1 in Htb.
  destruct (find_generated_transcript w tl) as [t|e2]; [|simplify_eq; by eexists].
  destruct (fetch_raw_data w t) as [data|e3]; [|simplify_eq; by eexists].
  destruct (call create_srt data) as [[srt|e4]|]; cbn in Htb; [|simplify_eq; by eexists|done].
  destruct (write_text w f1 srt) as [[]|e5]; [|simplify_eq; by eexists].
  destruct (call create_markdown data) as [[md|e6]|]; cbn in Htb;
    [|simplify_eq; by eexists|done].
  destruct (write_text w f2 md) as [[]|e7]; [|simplify_eq; by eexists].
  destruct (call create_json data) as [[js|e8]|]; cbn in Htb;
    [|simplify_eq; by eexists|done].
  destruct (write_text w f3 js) as [[]|e9]; simplify_eq; by eexists.
Qed.

(** After the fetch the block fails at the first rendering or writing
    that raises. *)
Lemma try_body_fails_after_fetch vid f1 f2 f3 out data out' fs e :
  fetches w vid out data ->
  try_body w vid f1 f2 f3 = Some (out', fs, Raise e) ->
  try_failure w vid f1 f2 f3 e out' fs.
Proof.
  intros Hf. rewrite (try_body_fetches vid f1 f2 f3 out data Hf).
  destruct (call create_srt data) as [[srt|e1]|] eqn:Hsrt; cbn [mbind option_bind];
    [|intros [= <- <- <-]; by eapply fail_srt|done].
  destruct (write_text w f1 srt) as [[]|e2] eqn:Hw1;
    [|intros [= <- <- <-]; by eapply fail_srt_write].
  destruct (call create_markdown data) as [[md|e3]|] eqn:Hmd; cbn [mbind option_bind];
    [|intros [= <- <- <-]; by eapply fail_md|done].
  destruct (write_text w f2 md) as [[]|e4] eqn:Hw2;
    [|intros [= <- <- <-]; by eapply fail_md_write].
  destruct (call create_json data) as [[js|e5]|] eqn:Hjs; cbn [mbind option_bind];
    [|intros [= <- <- <-]; by eapply fail_json|done].
  destruct (write_text w f3 js) as [[]|e6] eqn:Hw3;
    [done|intros [= <- <- <-]; by eapply fail_json_write].
Qed.

(** The block fails at the first step that raises. *)
Lemma try_body_fails vid f1 f2 f3 out fs e :
  try_body w vid f1 f2 f3 = Some (out, fs, Raise e) ->
  try_failure w vid f1 f2 f3 e out fs.
Proof.
  destruct (api_list w vid) as [tl|e0] eqn:Hl; cycle 1.
  { unfold try_body. rewrite Hl. intros [= <- <- <-]. by constructor. }
  destruct (find_transcript w tl) as [t|e1] eqn:H1.
  - destruct (fetch_raw_data w t) as [data|e2] eqn:Hd.
    + apply (try_body_fails_after_fetch vid f1 f2 f3 [] data).
      exists tl, t. split; [done|]. split; [by left|done].
    + unfold try_body. rewrite Hl, H1, Hd. intros [= <- <- <-].
      eapply fail_fetch; [done| |done]. by left.
  - destruct (find_generated_transcript w tl) as [t|e2] eqn:H2.
    + destruct (fetch_raw_data w t) as [data|e3] eqn:Hd.
      * apply (try_body_fails_after_fetch vid f1 f2 f3 [TryingGenerated] data).
        exists tl, t. split; [done|]. split; [|done].
        right. split; [by eexists|done].
      * unfold try_body. rewrite Hl, H1, H2, Hd. intros [= <- <- <-].
        eapply fail_fetch; [done| |done]. right. split; [by eexists|done].
    + unfold try_body. rewrite Hl, H1, H2. intros [= <- <- <-].
      eapply fail_lookups; [done|by eexists|done].
Qed.

(** A run ends; it ends either well, or in one of the ways of
    [failure]. *)
Lemma main_outcome :
  exists r,
    main rt w = Some r
    /\ (status r = 0 /\ stderr r = [] /\ run_succeeds rt w (files r)
        \/ exists m out fs, failure rt w m out fs /\ r = Run 1 out [m] fs).
Proof.
  unfold main.
  destruct (argv w) as [|prog [|src rest]] eqn:Hargv.
  1,2: (eexists; split; [reflexivity|]; right; eexists _, _, _; split; [|reflexivity];
        apply fail_no_reference; rewrite Hargv; cbn; lia).
  destruct (import_api w) as [[]|e] eqn:Hi; cycle 1.
  { destruct (exn_class_of e) eqn:Hc;
      (eexists; split; [reflexivity|]; right;
       eexists _, _, _; split; [|reflexivity]);
      first [ by eapply fail_not_installed
            | eapply fail_import; [done|done|by rewrite Hc] ]. }
  destruct (extract_video_id rt src) as [[[|c vid]|]|e] eqn:He.
  - eexists; split; [reflexivity|]. right.
    eexists _, _, _; split; [|reflexivity]. eapply fail_no_video_id; eauto.
  - destruct (mkdir w) as [[]|e] eqn:Hm; cycle 1.
    { eexists; split; [reflexivity|]. right.
      eexists _, _, _; split; [|reflexivity]. by eapply fail_mkdir. }
    assert (reaches_try rt w src (c :: vid)) as Hreach.
    { exists prog, rest. by repeat (split; [done|]). }
    destruct (try_body_spec (c :: vid) (target w (c :: vid) (u ".en.srt"))
                (target w (c :: vid) (u ".md")) (target w (c :: vid) (u ".json")))
      as (out & fs & r & Htb & Hok & _).
    rewrite Htb. cbn [mbind option_bind]. destruct r as [[]|e].
    + eexists; split; [reflexivity|]. left. split; [reflexivity|]. split; [reflexivity|].
      exists prog, src, rest, (c :: vid). cbn [files].
      by repeat (split; [done|]); auto.
    + eexists; split; [reflexivity|]. right.
      eexists _, _, _; split; [|reflexivity].
      apply (fail_in_try rt w src (c :: vid) e out fs Hreach).
      by apply try_body_fails.
  - eexists; split; [reflexivity|]. right.
    eexists _, _, _; split; [|reflexivity]. eapply fail_no_video_id; eauto.
  - eexists; split; [reflexivity|]. right.
    eexists _, _, _; split; [|reflexivity]. by eapply fail_extract.
Qed.

(** When every step succeeds the run ends with status 0. *)
Lemma main_succeeds fs :
  run_succeeds rt w fs -> exists out, main rt w = Some (Run 0 out [] fs).
Proof.
  intros (prog & src & rest & vid & Ha & Hi & He & Hne & Hm
          & tl & t & data & srt & md & js
          & Hl & Hf & Hd & H1 & W1 & H2 & W2 & H3 & W3 & ->).
  assert (reaches_try rt w src vid) as Hreach.
  { exists prog, rest. by repeat (split; [done|]). }
  assert (exists out, fetches w vid out data) as [out Hfe].
  { destruct Hf as [Hf|[Hf Hg]].
    - exists [], tl, t. split; [done|]. split; [by left|done].
    - exists [TryingGenerated], tl, t. split; [done|]. split; [by right|done]. }
  rewrite (main_reaches_try src vid Hreach), (try_body_fetches _ _ _ _ out data Hfe).
  rewrite H1. cbn [mbind option_bind]. rewrite W1, H2. cbn [mbind option_bind].
  rewrite W2, H3. cbn [mbind option_bind]. rewrite W3. by eexists.
Qed.

End MainFacts.

(** ** The claim about main *)

(** C6 (amended).  A run ends, with status 0 or 1.  The status is 0
    exactly when every step succeeds, where the transcript may come from
    the lookup of generated captions after the lookup of manual subtitles
    raised: then nothing is written to stderr and the three files are
    written.  Every other run ends in one of the ways of [failure]: its
    status is 1 and stderr holds exactly one message, that of the step
    that failed (the usage line, the install hint, the warning that
    names the reference, a traceback of the exception raised before the
    [try] block, or the error line with the message of the exception
    raised inside it), with the lines on stdout and the files written
    until then.  Without a reference that message is the usage line, and
    when the reference gives no video ID (or an empty one) it is the
    warning; in both cases nothing else is printed and no file is
    written.  When the lookup of manual subtitles raises, the fallback
    notice follows the progress lines on stdout; the exception of that
    lookup is in no message. *)
Theorem main_exit_status (rt : runtime) (w : world) :
  exists r,
    main rt w = Some r
    /\ (status r = 0 /\ stderr r = [] /\ run_succeeds rt w (files r)
        \/ (exists m out fs, failure rt w m out fs /\ r = Run 1 out [m] fs)
           /\ forall fs, ~ run_succeeds rt w fs)
    /\ ((length (argv w) < 2)%nat -> r = Run 1 [] [Usage] [])
    /\ (forall prog src rest,
          argv w = prog :: src :: rest -> import_api w = Ok tt ->
          extract_video_id rt src = Ok None \/ extract_video_id rt src = Ok (Some []) ->
          r = Run 1 [] [NoVideoId src] [])
    /\ (forall src vid tl,
          reaches_try rt w src vid -> api_list w vid = Ok tl ->
          is_Raise (find_transcript w tl) ->
          exists rest, stdout r = progress w src vid ++ TryingGenerated :: rest).
Proof.
  destruct (main_outcome rt w) as (r & Hr & Hcase). exists r.
  split; [exact Hr|]. split; [|split; [|split]].
  - destruct Hcase as [?|(m & out & fs & Hfail & ->)]; [by left|right].
    split; [by eexists _, _, _|].
    intros fs' [out' E]%main_succeeds. rewrite E in Hr. by simplify_eq.
  - intros Hlen. unfold main in Hr.
    destruct (argv w) as [|? [|? ?]]; cbn in Hlen; [by simplify_eq|by simplify_eq|lia].
  - intros prog src rest Ha Hi He. unfold main in Hr. rewrite Ha, Hi in Hr.
    destruct He as [He|He]; rewrite He in Hr; by simplify_eq.
  - intros src vid tl Hreach Hl Hraise.
    rewrite (main_reaches_try rt w src vid Hreach) in Hr.
    destruct (try_body _ _ _ _ _) as [[[out fs] r']|] eqn:Htb; [|done].
    destruct (try_body_notice w _ _ _ _ _ _ _ tl Htb Hl Hraise) as [rest' ->].
    cbn [mbind option_bind] in Hr. exists rest'.
    destruct r'; by simplify_eq.
Qed.

Lemma main_exit_status_witness :
  exists r,
    main ascii_runtime example_world = Some r
    /\ (status r = 0 /\ stderr r = [] /\ run_succeeds ascii_runtime example_world (files r)
        \/ (exists m out fs,
              failure ascii_runtime example_world m out fs /\ r = Run 1 out [m] fs)
           /\ forall fs, ~ run_succeeds ascii_runtime example_world fs)
    /\ ((length (argv example_world) < 2)%nat -> r = Run 1 [] [Usage] [])
    /\ (forall prog src rest,
          argv example_world = prog :: src :: rest -> import_api example_world = Ok tt ->
          extract_video_id ascii_runtime src = Ok None
          \/ extract_video_id ascii_runtime src = Ok (Some []) ->
          r = Run 1 [] [NoVideoId src] [])
    /\ (forall src vid tl,
          reaches_try ascii_runtime example_world src vid ->
          api_list example_world vid = Ok tl ->
          is_Raise (find_transcript example_world tl) ->
          exists rest,
            stdout r = progress example_world src vid ++ TryingGenerated :: rest).
Proof. exact (main_exit_status ascii_runtime example_world). Defined.

(** C6 as stated fails: in [fallback_world] the lookup of manual
    subtitles raises an error of its own, the run prints that no manual
    subtitles were found, takes the generated captions and ends with
    status 0 and nothing on stderr; the error is shown nowhere. *)
Lemma main_hides_lookup_error :
  find_transcript fallback_world 0%nat
  = Raise (Exn OSError (u "connection reset by peer"))
  /\ shown <$> main ascii_runtime fallback_world
     = Some (0,
             [ Downloading example_id;
               Target (u "/home/u/Desktop/youtube_transcripts/dQw4w9WgXcQ.en.srt");
               Target (u "/home/u/Desktop/youtube_transcripts/dQw4w9WgXcQ.md");
               Target (u "/home/u/Desktop/youtube_transcripts/dQw4w9WgXcQ.json");
               TryingGenerated;
               Saved (u "/home/u/Desktop/youtube_transcripts") ],
             []).
Proof. split; vm_compute; reflexivity. Qed.

(** ** Further properties of extract_video_id *)

Section ExtractMore.
Variable rt : runtime.
Implicit Types (c d : N) (s id : list N).

(** [parse_qs] collects, for each name, its values in the order of
    the query. *)
Lemma parse_qs_fold (l : list (list N * list N)) (m : gmap (list N) (list (list N))) name :
  fold_left
    (fun parsed_result nv =>
       match parsed_result !! fst nv with
       | Some vs => <[fst nv := vs ++ [snd nv]]> parsed_result
       | None => <[fst nv := [snd nv]]> parsed_result
       end) l m !! name
  = match m !! name, map snd (filter (fun nv => fst nv = name) l) with
    | Some vs, new => Some (vs ++ new)
    | None, [] => None
    | None, new => Some new
    end.
Proof.
  revert m. induction l as [|[n v] l IH]; intros m.
  - cbn. destruct (m !! name); by rewrite ?app_nil_r.
  - cbn [fold_left fst snd]. rewrite IH. clear IH.
    destruct (decide (n = name)) as [->|Hne].
    + rewrite filter_cons_True by done. cbn [map snd].
      destruct (m !! name) as [vs|] eqn:E.
      * rewrite lookup_insert_eq. by rewrite <- app_assoc.
      * rewrite lookup_insert_eq. reflexivity.
    + rewrite filter_cons_False by done.
      destruct (m !! n) as [vs|]; by rewrite lookup_insert_ne.
Qed.

Lemma parse_qs_lookup name qs :
  parse_qs rt qs !! name
  = match query_values rt name qs with
    | [] => None
    | vs => Some vs
    end.
Proof.
  unfold parse_qs, query_values. rewrite parse_qs_fold, lookup_empty.
  by destruct (map _ _).
Qed.

Lemma startswith_app s p : startswith s p = true -> exists r, s = p ++ r.
Proof.
  revert s. induction p as [|a p IH]; intros s H; [by exists s|].
  destruct s as [|b s]; [done|]. cbn [startswith] in H.
  apply andb_true_iff in H as [E H]. apply N.eqb_eq in E as ->.
  destruct (IH s H) as [r ->]. by exists r.
Qed.

Lemma split_not_nil c s : split c s <> [].
Proof.
  destruct s as [|x s]; [done|]. cbn [split].
  destruct (x =? c)%N; [done|]. by destruct (split c s).
Qed.

(** A path that begins with [/embed/] has a third segment. *)
Lemma embed_segment p :
  startswith p (u "/embed/") = true ->
  exists id rest, split 47 p = [] :: u "embed" :: id :: rest.
Proof.
  intros [r ->]%startswith_app.
  change (u "/embed/" ++ r) with ([] ++ 47%N :: (u "embed" ++ 47%N :: r)).
  rewrite split_app_first by done. rewrite split_app_first by done.
  destruct (split 47 r) as [|id rest] eqn:E; [by apply split_not_nil in E|].
  by exists id, rest.
Qed.

(** X1.  [extract_video_id] raises only when [urlparse] does, and then
    the same exception: the lookups [parse_qs(...).get('v', [None])[0]]
    and [path.split('/')[2]] are always in range. *)
Theorem extract_video_id_raises_with_urlparse (s : str) :
  (exists r, extract_video_id rt s = Ok r)
  \/ (exists e, urlparse rt s = Raise e /\ extract_video_id rt s = Raise e).
Proof.
  unfold extract_video_id.
  destruct (_ && _); [left; by eexists|].
  destruct (urlparse rt s) as [p|e]; [left|right; by exists e].
  cbn [mbind exc_mbind exc_bind].
  destruct (bool_decide (hostname rt p ∈ _)).
  - destruct (bool_decide (path p = _)).
    + rewrite parse_qs_lookup.
      destruct (query_values rt (u "v") (query p)); by eexists.
    + destruct (startswith (path p) (u "/embed/")) eqn:E; [|by eexists].
      destruct (embed_segment _ E) as (id & rest & ->). by eexists.
  - destruct (bool_decide _); by eexists.
Qed.

(** X2.  On a [/watch] URL of one of the three long hosts the result is
    the first value the query gives to [v], decoded, or the not-found
    signal when it gives none. *)
Theorem extract_video_id_first_v (s : str) (p : ParseResult) :
  urlparse rt s = Ok p ->
  hostname rt p ∈ Some <$> youtube_hosts ->
  path p = u "/watch" ->
  extract_video_id rt s = Ok (head (query_values rt (u "v") (query p))).
Proof.
  intros Hp Hh Hw.
  assert (raw_id rt s = false) as Hraw.
  { destruct (raw_id rt s) eqn:E; [|done].
    rewrite (raw_id_no_host rt s p E Hp) in Hh.
    by apply None_not_recognised in Hh. }
  rewrite (extract_video_id_watch rt s p Hraw Hp Hh Hw), parse_qs_lookup.
  by destruct (query_values _ _ _).
Qed.

Lemma parse_qsl_app a b :
  contains 38 a = false ->
  parse_qsl rt (a ++ 38%N :: b) = parse_qsl rt a ++ parse_qsl rt b.
Proof.
  intros Ha. unfold parse_qsl.
  assert (match a ++ 38%N :: b with [] => [] | _ => split 38 (a ++ 38%N :: b) end
          = a :: split 38 b) as ->.
  { rewrite split_app_first by done. by destruct a. }
  cbn [flat_map]. f_equal.
  - destruct a as [|x a]; [done|]. rewrite split_absent by done.
    cbn [flat_map]. by rewrite app_nil_r.
  - by destruct b.
Qed.

Lemma query_plain_app a b :
  query_plain (a ++ b) = query_plain a && query_plain b.
Proof. apply forallb_app. Qed.

Lemma inert_is_query_plain id : inert id -> query_plain id = true.
Proof. apply (inert_query_plain []). reflexivity. Qed.

(** X3.  Parameters that follow the [v] parameter do not matter:
    [http(s)://<host>/watch?v=<id>&<rest>] gives [<id>]. *)
Theorem extract_video_id_watch_more_params sch host id rest :
  sch = u "http" \/ sch = u "https" -> host ∈ youtube_hosts ->
  inert id -> id <> [] -> query_plain rest = true ->
  extract_video_id rt
    (sch ++ u "://" ++ host ++ u "/watch?v=" ++ id ++ u "&" ++ rest)
  = Ok (Some id).
Proof.
  intros Hsch Hhost Hid Hne Hrest.
  destruct (youtube_hosts_plain rt host) as (Hp & Hn & Hl);
    [apply elem_of_app; by left|].
  assert (query_plain (u "v=" ++ id ++ u "&" ++ rest) = true) as Hq.
  { rewrite !query_plain_app, Hrest, (inert_is_query_plain id Hid). reflexivity. }
  pose proof (urlparse_http rt sch host (u "/watch")
                (Some (u "v=" ++ id ++ u "&" ++ rest)) Hsch Hp eq_refl Hq) as Hparse.
  change (with_query (u "/watch") (Some (u "v=" ++ id ++ u "&" ++ rest)))
    with (u "/watch?v=" ++ id ++ u "&" ++ rest) in Hparse.
  rewrite (extract_video_id_watch rt _ _ (url_not_raw rt sch _) Hparse).
  - cbn [query default from_option]. rewrite parse_qs_lookup. unfold query_values.
    change (parse_qsl rt _)
      with (parse_qsl rt (([118%N] ++ 61%N :: id) ++ 38%N :: rest)).
    rewrite parse_qsl_app.
    + rewrite parse_qsl_pair by done. cbn [app].
      rewrite filter_cons_True by done. reflexivity.
    + rewrite contains_app, contains_cons. cbn.
      by apply inert_contains.
  - rewrite hostname_plain, Hl by done. by apply list_elem_of_fmap_2.
  - reflexivity.
Qed.

(** X4.  A link to [youtu.be] gives its path without the first
    character, whatever the path and the query are; for the empty path
    the result is the empty text, not the not-found signal. *)
Theorem extract_video_id_short_path sch path q :
  sch = u "http" \/ sch = u "https" ->
  path_plain path = true -> from_option query_plain true q = true ->
  extract_video_id rt (sch ++ u "://" ++ short_host ++ with_query path q)
  = Ok (Some (drop 1 path)).
Proof.
  intros Hsch Hpath Hq.
  pose proof (urlparse_http rt sch short_host path q Hsch eq_refl Hpath Hq) as Hparse.
  by rewrite (extract_video_id_short rt _ _ (url_not_raw rt sch _) Hparse).
Qed.

Lemma path_plain_join pre tail :
  path_plain pre = true -> pre <> [] -> path_plain (47%N :: tail) = true ->
  path_plain (pre ++ 47%N :: tail) = true.
Proof.
  unfold path_plain. intros [H1 H2]%andb_true_iff Hne [_ H3]%andb_true_iff.
  destruct pre as [|c pre]; [done|]. cbn [app]. rewrite H1. cbn [andb].
  change (c :: pre ++ 47%N :: tail) with ((c :: pre) ++ 47%N :: tail).
  by rewrite forallb_app, H2, H3.
Qed.

(** X5.  After [/embed/<id>] the rest of the path, from its next [/]
    on, and the query do not matter: the result is [<id>]. *)
Theorem extract_video_id_embed_rest sch host id rest q :
  sch = u "http" \/ sch = u "https" -> host ∈ youtube_hosts ->
  inert id ->
  path_plain (u "/" ++ rest) = true ->
  from_option query_plain true q = true ->
  extract_video_id rt
    (sch ++ u "://" ++ host ++ with_query (u "/embed/" ++ id ++ u "/" ++ rest) q)
  = Ok (Some id).
Proof.
  intros Hsch Hhost Hid Hrest Hq.
  destruct (youtube_hosts_plain rt host) as (Hp & Hn & Hl);
    [apply elem_of_app; by left|].
  assert (path_plain (u "/embed/" ++ id ++ u "/" ++ rest) = true) as Hpath.
  { apply (path_plain_join (u "/embed/" ++ id) rest); [|done|done].
    by apply inert_path_plain. }
  pose proof (urlparse_http rt sch host _ q Hsch Hp Hpath Hq) as Hparse.
  rewrite (extract_video_id_embed rt _ _ (url_not_raw rt sch _) Hparse).
  - cbn [path].
    change (u "/embed/" ++ id ++ u "/" ++ rest)
      with ([] ++ 47%N :: (u "embed" ++ 47%N :: (id ++ 47%N :: rest))).
    rewrite split_app_first by done. rewrite split_app_first by done.
    by rewrite split_app_first by (by apply inert_contains).
  - rewrite hostname_plain, Hl by done. by apply list_elem_of_fmap_2.
  - done.
  - reflexivity.
Qed.

Lemma no_colon_contains s d :
  (d <=? 32)%N || (d =? 58)%N = true -> no_colon s = true -> contains d s = false.
Proof.
  intros Hd Hs. apply contains_false, Forall_forall. intros x Hx ->.
  unfold no_colon in Hs. rewrite forallb_forall in Hs.
  apply list_elem_of_In, Hs in Hx.
  apply andb_true_iff in Hx as [H1 H2]. apply N.ltb_lt in H1.
  apply negb_true_iff, N.eqb_neq in H2.
  apply orb_true_iff in Hd as [Hd|Hd]; [apply N.leb_le in Hd; lia|].
  apply N.eqb_eq in Hd. congruence.
Qed.

(** A text without [:] that does not begin with [//] has no scheme and
    no host. *)
Lemma urlparse_no_colon s :
  no_colon s = true -> startswith s (u "//") = false ->
  exists p, urlparse rt s = Ok p /\ netloc p = [].
Proof.
  intros Hs Hsl. unfold urlparse, urlsplit.
  assert (lstrip_by (fun c => (c <=? 32)%N) s = s) as ->.
  { destruct s as [|c s]; [done|]. apply lstrip_by_head.
    cbn in Hs. apply andb_true_iff in Hs as [[Hc _]%andb_true_iff _].
    apply N.ltb_lt in Hc. apply N.leb_gt. lia. }
  rewrite (remove_char_absent 9 s), (remove_char_absent 13 s),
    (remove_char_absent 10 s) by (by apply no_colon_contains).
  rewrite split_scheme_absent by (by apply no_colon_contains).
  rewrite split_netloc_none by done.
  cbn [mbind exc_mbind exc_bind].
  destruct (split_at 35 s) as [url fragment].
  destruct (split_at 63 url) as [url' query].
  cbn [checknetloc_ok mbind exc_mbind exc_bind sr_scheme sr_path sr_netloc
       sr_query sr_fragment].
  destruct (_ && _); [destruct (splitparams url')|]; by eexists.
Qed.

(** X6.  A reference without a scheme is not read as a URL: a text
    without blanks and [:] that does not begin with [//], such as
    [www.youtube.com/watch?v=<id>], gives the not-found signal unless it
    is itself a raw ID. *)
Theorem extract_video_id_needs_scheme (s : str) :
  no_colon s = true -> startswith s (u "//") = false -> raw_id rt s = false ->
  extract_video_id rt s = Ok None.
Proof.
  intros Hs Hsl Hraw. destruct (urlparse_no_colon s Hs Hsl) as (p & Hp & Hn).
  apply (extract_video_id_other_host rt s p Hraw Hp).
  destruct p as [sch nl pa ps q f]. cbn in Hn. subst nl.
  rewrite hostname_no_netloc. apply None_not_recognised.
Qed.

(** X7.  The host is compared without regard to the case of ASCII
    letters: [http(s)://<host>/watch?v=<id>] gives [<id>] for every
    ASCII host whose lower-case form is one of the three long hosts. *)
Theorem extract_video_id_host_case sch host id :
  sch = u "http" \/ sch = u "https" ->
  host_plain host = true -> map ascii_lower_char host ∈ youtube_hosts ->
  inert id -> id <> [] ->
  extract_video_id rt (sch ++ u "://" ++ host ++ u "/watch?v=" ++ id) = Ok (Some id).
Proof.
  intros Hsch Hp Hhost Hid Hne.
  assert (host <> []) as Hn.
  { intros ->. cbn in Hhost. unfold youtube_hosts in Hhost.
    rewrite !elem_of_cons, elem_of_nil in Hhost. by destruct Hhost as [?|[?|[?|[]]]]. }
  pose proof (urlparse_http rt sch host (u "/watch") (Some (u "v=" ++ id)) Hsch Hp
                eq_refl (inert_query_plain (u "v=") id eq_refl Hid)) as Hparse.
  change (with_query (u "/watch") (Some (u "v=" ++ id))) with (u "/watch?v=" ++ id)
    in Hparse.
  rewrite (extract_video_id_watch rt _ _ (url_not_raw rt sch _) Hparse).
  - cbn [query default from_option].
    change (parse_qs rt _) with (parse_qs rt ([118%N] ++ 61%N :: id)).
    rewrite parse_qs_pair by done.
    change (u "v") with [118%N]. by rewrite lookup_singleton.
  - rewrite hostname_plain by done. unfold lower.
    rewrite host_plain_isascii by done. by apply list_elem_of_fmap_2.
  - reflexivity.
Qed.

End ExtractMore.

Lemma extract_video_id_first_v_witness :
  extract_video_id ascii_runtime (u "https://m.youtube.com/watch?t=5&v=abc&v=def")
  = Ok (Some (u "abc")).
Proof.
  apply (extract_video_id_first_v ascii_runtime _
           (mkParse (u "https") (u "m.youtube.com") (u "/watch") []
                    (u "t=5&v=abc&v=def") [])).
  - vm_compute. reflexivity.
  - right. right. left.
  - reflexivity.
Defined.

Lemma extract_video_id_watch_more_params_witness :
  extract_video_id ascii_runtime
    (u "https://www.youtube.com/watch?v=" ++ example_id ++ u "&" ++ u "t=42s&list=PL0")
  = Ok (Some example_id).
Proof.
  apply (extract_video_id_watch_more_params ascii_runtime (u "https")
           (u "www.youtube.com") example_id (u "t=42s&list=PL0")).
  - by right.
  - left.
  - reflexivity.
  - done.
  - reflexivity.
Defined.

Lemma extract_video_id_short_path_witness :
  extract_video_id ascii_runtime
    (u "https://" ++ short_host ++ with_query (u "/a/b") (Some (u "t=1")))
  = Ok (Some (u "a/b"))
  /\ extract_video_id ascii_runtime (u "https://" ++ short_host ++ with_query [] None)
     = Ok (Some []).
Proof.
  split.
  - apply (extract_video_id_short_path ascii_runtime (u "https") (u "/a/b")
             (Some (u "t=1"))); [by right|reflexivity|reflexivity].
  - apply (extract_video_id_short_path ascii_runtime (u "https") [] None);
      [by right|reflexivity|reflexivity].
Defined.

Lemma extract_video_id_embed_rest_witness :
  extract_video_id ascii_runtime
    (u "http://youtube.com"
       ++ with_query (u "/embed/" ++ example_dashed_id ++ u "/" ++ u "x/y")
            (Some (u "start=3")))
  = Ok (Some example_dashed_id).
Proof.
  apply (extract_video_id_embed_rest ascii_runtime (u "http") (u "youtube.com")
           example_dashed_id (u "x/y") (Some (u "start=3"))).
  - by left.
  - right. left.
  - reflexivity.
  - reflexivity.
  - reflexivity.
Defined.

Lemma extract_video_id_needs_scheme_witness :
  extract_video_id ascii_runtime (u "www.youtube.com/watch?v=dQw4w9WgXcQ") = Ok None.
Proof.
  apply (extract_video_id_needs_scheme ascii_runtime); reflexivity.
Defined.

Lemma extract_video_id_host_case_witness :
  extract_video_id ascii_runtime
    (u "https" ++ u "://" ++ u "WWW.YouTube.COM" ++ u "/watch?v=" ++ example_id)
  = Ok (Some example_id).
Proof.
  apply (extract_video_id_host_case ascii_runtime (u "https") (u "WWW.YouTube.COM")
           example_id).
  - by right.
  - reflexivity.
  - left.
  - reflexivity.
  - done.
Defined.

(** ** Further properties of the renderers *)

Section ForInRaises.
Context {X : Type}.
Implicit Types (body : nat -> M X unit) (data : list entry) (acc : list X).

(** A loop whose body raises at the entry [bad] without touching the
    store stops there: what the entries before it appended stays in the
    local list, the entries after it are not looked at. *)
Lemma for_in_raises body (ok : entry -> Prop) (f : nat -> entry -> list X)
    (x : exn) good bad rest :
  (forall i e acc, (good ++ bad :: rest) !! i = Some e -> ok e ->
     body i (Store (good ++ bad :: rest) acc)
     = Done tt (Store (good ++ bad :: rest) (acc ++ f i e))) ->
  (forall acc, body (length good) (Store (good ++ bad :: rest) acc)
               = Raised x (Store (good ++ bad :: rest) acc)) ->
  Forall ok good ->
  forall fuel, (length good < fuel)%nat ->
    for_in fuel 0 body (Store (good ++ bad :: rest) [])
    = Raised x (Store (good ++ bad :: rest) (concat (imap f good))).
Proof.
  intros Hbody Hbad Hok.
  set (data := good ++ bad :: rest) in *.
  assert (forall k fuel acc,
            (k <= length good)%nat -> (length good - k < fuel)%nat ->
            for_in fuel k body (Store data acc)
            = Raised x (Store data
                (acc ++ concat (imap (fun j => f (k + j)%nat) (drop k good))))) as G.
  { intros k fuel. revert k. induction fuel as [|fuel IH]; intros k acc Hk Hfuel; [lia|].
    cbn [for_in transcript_data].
    destruct (decide (k = length good)) as [->|Hne].
    - subst data. rewrite list_lookup_middle by done.
      unfold bind. rewrite Hbad, drop_all. cbn. by rewrite app_nil_r.
    - assert (k < length good)%nat as Hlt by lia.
      destruct (lookup_lt_is_Some_2 good k Hlt) as [e He].
      assert (data !! k = Some e) as He'
        by (subst data; by rewrite lookup_app_l).
      rewrite He'. unfold bind.
      rewrite (Hbody k e acc He') by (by eapply Forall_lookup_1).
      rewrite IH by lia. rewrite (drop_S _ _ _ He).
      cbn [imap concat]. rewrite Nat.add_0_r, <- app_assoc.
      do 5 f_equal. apply imap_ext. intros j y _. cbn. f_equal. lia. }
  intros fuel Hfuel. rewrite (G 0%nat fuel []) by lia. by rewrite drop_0.
Qed.
End ForInRaises.

Lemma create_markdown_run data fuel :
  (length data < fuel)%nat ->
  create_markdown fuel (Store data [])
  = Done (join newline (md_lines data)) (Store data (md_lines data)).
Proof.
  intros Hfuel. unfold create_markdown, bind.
  rewrite (for_in_appends _ (fun _ => True)
             (fun _ e => filter (fun t => t <> []) [strip (text e)]) data).
  - cbn. by rewrite md_lines_concat.
  - intros. by apply create_markdown_body_spec.
  - lia.
  - by apply Forall_true.
Qed.

Lemma create_json_run data fuel :
  (length data < fuel)%nat -> Forall formattable data ->
  create_json fuel (Store data [])
  = Done (dumps 2 (JArr (map json_record data))) (Store data (map json_record data)).
Proof.
  intros Hfuel Hok. unfold create_json, bind.
  rewrite (for_in_appends _ formattable (fun _ e => [json_record e]) data)
    by (cbn; eauto using create_json_body_spec || lia).
  cbn. by rewrite concat_imap_singleton.
Qed.

(** *** The layout of the subtitle text *)

Lemma join_srt_blocks (f : nat -> entry -> list (list N)) (g : nat -> entry -> list N) data :
  (forall i e, exists a b c, f i e = [a; b; c; []]
                              /\ g i e = a ++ newline ++ b ++ newline ++ c ++ newline) ->
  join newline (concat (imap f data)) = join newline (imap g data).
Proof.
  revert f g. induction data as [|e data IH]; intros f g H; [done|].
  cbn [imap concat]. destruct (H 0%nat e) as (a & b & c & -> & ->).
  specialize (IH (f ∘ S) (g ∘ S) (fun i e => H (S i) e)).
  destruct data as [|e' data].
  - cbn. by rewrite ?app_nil_r.
  - cbn [imap concat] in IH |- *.
    destruct (H 1%nat e') as (a' & b' & c' & E1 & E2).
    change ((f ∘ S) 0%nat e') with (f 1%nat e') in *.
    change ((g ∘ S) 0%nat e') with (g 1%nat e') in *.
    rewrite E1 in IH |- *. cbn [app] in IH |- *.
    rewrite !join_cons2. rewrite !join_cons2 in IH. rewrite IH.
    by rewrite <- !app_assoc.
Qed.

Lemma join_snoc sep (l : list (list N)) (x : list N) :
  exists h, join sep (l ++ [x]) = h ++ x.
Proof.
  induction l as [|a l [h IH]]; [by exists []|].
  exists (a ++ sep ++ h).
  assert (join sep ((a :: l) ++ [x]) = a ++ sep ++ join sep (l ++ [x])) as ->
    by (by destruct l).
  by rewrite IH, <- !app_assoc.
Qed.

(** X8.  For a transcript the formatter accepts, the subtitle text is
    the newline-join, in input order, of the texts of the blocks, the
    text of a block being the counter, the timing line and the trimmed
    text with a newline after each.  An empty transcript gives the empty
    text; otherwise the text ends with the trimmed text of the last
    entry and one newline. *)
Theorem create_srt_text (data : list entry) (fuel : nat) :
  (length data < fuel)%nat -> Forall formattable data ->
  exists st out,
    create_srt fuel (Store data []) = Done out st
    /\ out = join newline (imap (fun i e => srt_block_text (S i) e) data)
    /\ (data = [] -> out = [])
    /\ (forall pre e, data = pre ++ [e] ->
          exists h, out = h ++ strip (text e) ++ newline).
Proof.
  intros Hfuel Hok. eexists _, _. split; [by apply create_srt_run|].
  assert (join newline (srt_lines data)
          = join newline (imap (fun i e => srt_block_text (S i) e) data)) as ->.
  { unfold srt_lines. apply join_srt_blocks.
    intros i e. unfold srt_block, srt_block_text. by eexists _, _, _. }
  split; [done|]. split; [by intros ->|].
  intros pre e ->. rewrite imap_app. cbn [imap].
  destruct (join_snoc newline (imap (fun i e => srt_block_text (S i) e) pre)
              (srt_block_text (S (length pre + 0)) e)) as [h ->].
  unfold srt_block_text. eexists. rewrite !app_assoc. reflexivity.
Qed.

Lemma create_srt_text_witness :
  exists st out,
    create_srt 3 (Store example_entries []) = Done out st
    /\ out = join newline (imap (fun i e => srt_block_text (S i) e) example_entries)
    /\ (example_entries = [] -> out = [])
    /\ (forall pre e, example_entries = pre ++ [e] ->
          exists h, out = h ++ strip (text e) ++ newline).
Proof.
  apply (create_srt_text example_entries 3).
  - vm_compute. lia.
  - repeat constructor; eexists; vm_compute; reflexivity.
Defined.

(** *** Trimmed texts *)

Section Strip.
Variable p : N -> bool.

Lemma lstrip_by_head_false s c r : lstrip_by p s = c :: r -> p c = false.
Proof.
  induction s as [|x s IH]; [done|]. cbn.
  destruct (p x) eqn:E; [exact IH|]. by intros [= <- _].
Qed.

Lemma lstrip_by_app l c k :
  p c = false -> lstrip_by p (l ++ c :: k) = lstrip_by p l ++ c :: k.
Proof.
  intros Hc. induction l as [|x l IH]; cbn; [by rewrite Hc|].
  by destruct (p x).
Qed.

Lemma rstrip_by_cons c r : p c = false -> rstrip_by p (c :: r) = c :: rstrip_by p r.
Proof.
  intros Hc. unfold rstrip_by. cbn [rev].
  change (rev r ++ [c]) with (rev r ++ c :: []).
  by rewrite lstrip_by_app, rev_app_distr.
Qed.

Lemma last_rev_head (l : list N) : last (rev l) = head l.
Proof. destruct l as [|x l]; [done|]. cbn [rev]. by rewrite last_snoc. Qed.

Lemma rstrip_by_last s c : last (rstrip_by p s) = Some c -> p c = false.
Proof.
  unfold rstrip_by. rewrite last_rev_head.
  destruct (lstrip_by p (rev s)) as [|x r] eqn:E; [done|].
  intros [= <-]. by eapply lstrip_by_head_false.
Qed.
End Strip.

Lemma strip_trimmed s : strip s <> [] -> trimmed (strip s).
Proof.
  intros Hne. split; [done|]. split.
  - unfold strip in *. destruct (lstrip_by is_space s) as [|x r] eqn:E; [done|].
    pose proof (lstrip_by_head_false _ _ _ _ E) as Hx.
    rewrite rstrip_by_cons by done. by intros c [= <-].
  - intros c. apply rstrip_by_last.
Qed.

(** X9.  Every text the flattened renderer joins is a trimmed text of
    the transcript: it is not empty and has no whitespace at either end.
    When none of them contains a newline (and there is one at least),
    they are the lines of the returned text, so every line of it is
    then such a text. *)
Theorem create_markdown_trimmed (data : list entry) (fuel : nat) :
  (length data < fuel)%nat ->
  exists items,
    create_markdown fuel (Store data []) = Done (join newline items) (Store data items)
    /\ Forall trimmed items
    /\ (items <> [] -> Forall (fun t => contains 10 t = false) items ->
        Forall trimmed (split 10 (join newline items))).
Proof.
  intros Hfuel. exists (md_lines data). split; [by apply create_markdown_run|].
  assert (Forall trimmed (md_lines data)) as Ht.
  { unfold md_lines. apply Forall_forall. intros t Ht.
    apply list_elem_of_filter in Ht as [Hne Ht].
    apply list_elem_of_fmap in Ht as (e & -> & _). by apply strip_trimmed. }
  split; [exact Ht|]. intros Hne Hnl. by rewrite split_join_newline.
Qed.

Lemma create_markdown_trimmed_witness :
  exists items,
    create_markdown 3 (Store example_entries [])
    = Done (join newline items) (Store example_entries items)
    /\ Forall trimmed items
    /\ (items <> [] -> Forall (fun t => contains 10 t = false) items ->
        Forall trimmed (split 10 (join newline items))).
Proof. apply (create_markdown_trimmed example_entries 3). vm_compute. lia. Defined.

(** *** An entry whose times cannot be formatted *)

Lemma time_error_None e : formattable e <-> time_error e = None.
Proof.
  unfold formattable, time_error, is_Ok. split.
  - intros [[s ->] [s' ->]]. reflexivity.
  - destruct (format_time_srt (start e)); [|done].
    destruct (format_time_srt (fadd _ _)); [|done]. intros _. split; by eexists.
Qed.

Lemma create_srt_body_raises data i e x acc :
  data !! i = Some e -> time_error e = Some x ->
  create_srt_body i (Store data acc) = Raised x (Store data acc).
Proof.
  intros He Hx. unfold create_srt_body, time_error in *.
  rewrite (bind_read _ _ _ _ _ _ He).
  destruct (format_time_srt (start e)) as [s|y] eqn:E1.
  - rewrite (bind_lift _ _ s) by done.
    rewrite !(bind_read _ _ _ _ _ _ He).
    destruct (format_time_srt (fadd _ _)) as [s'|y]; [done|].
    by simplify_eq.
  - by simplify_eq.
Qed.

Lemma create_json_body_raises data i e x acc :
  data !! i = Some e -> time_error e = Some x ->
  create_json_body i (Store data acc) = Raised x (Store data acc).
Proof.
  intros He Hx. unfold create_json_body, time_error in *.
  rewrite (bind_read _ _ _ _ _ _ He).
  destruct (format_time_srt (start e)) as [s|y] eqn:E1.
  - rewrite (bind_lift _ _ s) by done.
    rewrite !(bind_read _ _ _ _ _ _ He).
    destruct (format_time_srt (fadd _ _)) as [s'|y]; [done|].
    by simplify_eq.
  - by simplify_eq.
Qed.

Lemma renderers_raise_first (good rest : list entry) (bad : entry)
    (x : exn) (fuel : nat) :
  (length good < fuel)%nat ->
  Forall formattable good -> time_error bad = Some x ->
  create_srt fuel (Store (good ++ bad :: rest) [])
  = Raised x (Store (good ++ bad :: rest) (srt_lines good))
  /\ create_json fuel (Store (good ++ bad :: rest) [])
     = Raised x (Store (good ++ bad :: rest) (map json_record good)).
Proof.
  intros Hfuel Hok Hbad. split.
  - unfold create_srt, bind.
    rewrite (for_in_raises _ formattable (fun i e => srt_block (S i) e) x good bad rest);
      try done.
    + intros. by apply create_srt_body_spec.
    + intros acc. apply (create_srt_body_raises _ _ bad); [|done].
      by rewrite list_lookup_middle.
  - unfold create_json, bind.
    rewrite (for_in_raises _ formattable (fun _ e => [json_record e]) x good bad rest);
      try done.
    + by rewrite concat_imap_singleton.
    + intros. by apply create_json_body_spec.
    + intros acc. apply (create_json_body_raises _ _ bad); [|done].
      by rewrite list_lookup_middle.
Qed.

(** X10.  The subtitle and the structured renderer stop at the first
    entry whose start or end the formatter refuses and raise the
    formatter's exception: they return no text, whatever the entries
    that follow are.  The flattened renderer, which formats no time,
    returns its text for the same transcript. *)
Theorem renderers_raise_at_first_bad (good rest : list entry) (bad : entry)
    (x : exn) (fuel : nat) :
  (length (good ++ bad :: rest) < fuel)%nat ->
  Forall formattable good -> time_error bad = Some x ->
  create_srt fuel (Store (good ++ bad :: rest) [])
  = Raised x (Store (good ++ bad :: rest) (srt_lines good))
  /\ create_json fuel (Store (good ++ bad :: rest) [])
     = Raised x (Store (good ++ bad :: rest) (map json_record good))
  /\ create_markdown fuel (Store (good ++ bad :: rest) [])
     = Done (join newline (md_lines (good ++ bad :: rest)))
            (Store (good ++ bad :: rest) (md_lines (good ++ bad :: rest))).
Proof.
  intros Hfuel Hok Hbad.
  destruct (renderers_raise_first good rest bad x fuel) as [H1 H2]; [|done|done|].
  - rewrite length_app in Hfuel. lia.
  - split; [exact H1|]. split; [exact H2|]. by apply create_markdown_run.
Qed.

Lemma renderers_raise_at_first_bad_witness :
  create_srt 4 (Store bad_entries [])
  = Raised (Exn ValueError (u "cannot convert float NaN to integer"))
           (Store bad_entries (srt_lines (take 1 bad_entries)))
  /\ create_json 4 (Store bad_entries [])
     = Raised (Exn ValueError (u "cannot convert float NaN to integer"))
              (Store bad_entries (map json_record (take 1 bad_entries)))
  /\ create_markdown 4 (Store bad_entries [])
     = Done (join newline (md_lines bad_entries))
            (Store bad_entries (md_lines bad_entries)).
Proof.
  apply (renderers_raise_at_first_bad (take 1 bad_entries) (drop 2 bad_entries)
           (Entry (u "lost") NaN (of_int 1))
           (Exn ValueError (u "cannot convert float NaN to integer")) 4).
  - vm_compute. lia.
  - repeat constructor; eexists; vm_compute; reflexivity.
  - vm_compute. reflexivity.
Defined.

(** ** Further properties of main *)

Section MainMore.
Variable rt : runtime.
Variable w : world.

Lemma call_create_srt_ok data :
  Forall formattable data ->
  call create_srt data = Some (Ok (join newline (srt_lines data))).
Proof. intros H. unfold call. by rewrite create_srt_run by (done || lia). Qed.

Lemma call_create_markdown_ok data :
  call create_markdown data = Some (Ok (join newline (md_lines data))).
Proof. unfold call. by rewrite create_markdown_run by lia. Qed.

Lemma call_create_json_ok data :
  Forall formattable data ->
  call create_json data = Some (Ok (dumps 2 (JArr (map json_record data)))).
Proof. intros H. unfold call. by rewrite create_json_run by (done || lia). Qed.

(** X11.  End to end: when the block is reached, the transcript is
    fetched, the formatter accepts every entry and every write
    succeeds, the run ends with status 0 and nothing on stderr; stdout
    carries the four progress lines, the fallback notice if the manual
    lookup raised, and the closing line; the files written are, in this
    order, the subtitle text, the flattened text and the structured
    text of the transcript. *)
Theorem main_writes_renderings src vid out data :
  reaches_try rt w src vid -> fetches w vid out data ->
  Forall formattable data ->
  (forall file content, write_text w file content = Ok tt) ->
  main rt w
  = Some (Run 0 (progress w src vid ++ out ++ [Saved (outdir w)]) []
            [ (target w vid (u ".en.srt"), join newline (srt_lines data));
              (target w vid (u ".md"), join newline (md_lines data));
              (target w vid (u ".json"), dumps 2 (JArr (map json_record data))) ]).
Proof.
  intros Hr Hf Hok Hw.
  rewrite (main_reaches_try rt w src vid Hr), (try_body_fetches w _ _ _ _ out data Hf).
  rewrite call_create_srt_ok, call_create_markdown_ok, call_create_json_ok by done.
  cbn [mbind option_bind]. by rewrite !Hw.
Qed.

(** X12.  Nothing is cleaned up: when the subtitle file is written and
    the write of the Markdown file raises, the run ends with status 1
    and that error on stderr, the subtitle file stays, and the JSON file
    is not written. *)
Theorem main_keeps_partial_output src vid out data e :
  reaches_try rt w src vid -> fetches w vid out data ->
  Forall formattable data ->
  write_text w (target w vid (u ".en.srt")) (join newline (srt_lines data)) = Ok tt ->
  write_text w (target w vid (u ".md")) (join newline (md_lines data)) = Raise e ->
  main rt w
  = Some (Run 1 (progress w src vid ++ out) [ErrorLine (exn_msg e)]
            [ (target w vid (u ".en.srt"), join newline (srt_lines data)) ]).
Proof.
  intros Hr Hf Hok Hw1 Hw2.
  rewrite (main_reaches_try rt w src vid Hr), (try_body_fetches w _ _ _ _ out data Hf).
  rewrite call_create_srt_ok, call_create_markdown_ok by done.
  cbn [mbind option_bind]. by rewrite Hw1, Hw2.
Qed.

(** X13.  When both lookups raise, the message on stderr is that of the
    second one, after the fallback notice on stdout; the exception of
    the manual lookup is not shown, and no file is written. *)
Theorem main_reports_second_lookup src vid tl e1 e2 :
  reaches_try rt w src vid ->
  api_list w vid = Ok tl ->
  find_transcript w tl = Raise e1 ->
  find_generated_transcript w tl = Raise e2 ->
  main rt w
  = Some (Run 1 (progress w src vid ++ [TryingGenerated]) [ErrorLine (exn_msg e2)] []).
Proof.
  intros Hr Hl H1 H2. rewrite (main_reaches_try rt w src vid Hr).
  unfold try_body. by rewrite Hl, H1, H2.
Qed.

(** X14.  The subtitle file is rendered first, so an entry whose start
    or end the formatter refuses leaves no file at all, not even the
    Markdown file, which needs no times: the run ends with status 1 and
    the formatter's message. *)
Theorem main_writes_nothing_on_bad_time src vid out good bad rest x :
  reaches_try rt w src vid -> fetches w vid out (good ++ bad :: rest) ->
  Forall formattable good -> time_error bad = Some x ->
  main rt w = Some (Run 1 (progress w src vid ++ out) [ErrorLine (exn_msg x)] []).
Proof.
  intros Hr Hf Hok Hbad.
  rewrite (main_reaches_try rt w src vid Hr), (try_body_fetches w _ _ _ _ out _ Hf).
  assert (call create_srt (good ++ bad :: rest) = Some (Raise x)) as ->; [|done].
  unfold call.
  destruct (renderers_raise_first good rest bad x (S (length (good ++ bad :: rest))))
    as [-> _]; [rewrite length_app; cbn; lia|done|done|].
  reflexivity.
Qed.

(** X15.  A reference that [urlparse] refuses ends the run with a
    traceback: [extract_video_id] is called outside the [try] block, so
    its exception is not caught; nothing is printed on stdout, and the
    warning about the video ID is not printed either. *)
Theorem main_crashes_on_malformed_reference prog src rest e :
  argv w = prog :: src :: rest -> import_api w = Ok tt ->
  raw_id rt src = false -> urlparse rt src = Raise e ->
  main rt w = Some (Run 1 [] [Traceback e] []).
Proof.
  intros Ha Hi Hraw He. unfold main.
  by rewrite Ha, Hi, (extract_video_id_raise rt src e Hraw He).
Qed.

(** X16.  The output directory is made outside the [try] block: when
    [mkdir] raises, the run ends with a traceback and status 1 before
    anything is printed or fetched. *)
Theorem main_crashes_on_mkdir prog src rest vid e :
  argv w = prog :: src :: rest -> import_api w = Ok tt ->
  extract_video_id rt src = Ok (Some vid) -> vid <> [] ->
  mkdir w = Raise e ->
  main rt w = Some (Run 1 [] [Traceback e] []).
Proof.
  intros Ha Hi He Hne Hm. unfold main. rewrite Ha, Hi, He, Hm.
  by destruct vid.
Qed.

End MainMore.

Lemma example_reaches_try (w : world) :
  argv w = example_args -> import_api w = Ok tt -> mkdir w = Ok tt ->
  reaches_try ascii_runtime w example_id example_id.
Proof.
  intros Ha Hi Hm. exists (u "get-yt-transcript"), [].
  split; [exact Ha|]. split; [exact Hi|]. split; [by vm_compute|]. by split.
Qed.

Lemma example_entries_formattable : Forall formattable example_entries.
Proof. repeat constructor; eexists; vm_compute; reflexivity. Qed.

Lemma main_writes_renderings_witness :
  main ascii_runtime example_world
  = Some (Run 0 (progress example_world example_id example_id ++ []
                 ++ [Saved (outdir example_world)]) []
            [ (target example_world example_id (u ".en.srt"),
               join newline (srt_lines example_entries));
              (target example_world example_id (u ".md"),
               join newline (md_lines example_entries));
              (target example_world example_id (u ".json"),
               dumps 2 (JArr (map json_record example_entries))) ]).
Proof.
  apply (main_writes_renderings ascii_runtime example_world example_id example_id []
           example_entries).
  - by apply example_reaches_try.
  - exists 0%nat, 1%nat. split; [reflexivity|]. split; [|reflexivity].
    left. by split.
  - exact example_entries_formattable.
  - reflexivity.
Defined.

Lemma main_keeps_partial_output_witness :
  main ascii_runtime md_full_world
  = Some (Run 1 (progress md_full_world example_id example_id ++ [])
            [ErrorLine (u "No space left on device")]
            [ (target md_full_world example_id (u ".en.srt"),
               join newline (srt_lines example_entries)) ]).
Proof.
  apply (main_keeps_partial_output ascii_runtime md_full_world example_id example_id []
           example_entries (Exn OSError (u "No space left on device"))).
  - by apply example_reaches_try.
  - exists 0%nat, 1%nat. split; [reflexivity|]. split; [|reflexivity].
    left. by split.
  - exact example_entries_formattable.
  - vm_compute. reflexivity.
  - vm_compute. reflexivity.
Defined.

Lemma main_reports_second_lookup_witness :
  main ascii_runtime no_captions_world
  = Some (Run 1 (progress no_captions_world example_id example_id ++ [TryingGenerated])
            [ErrorLine (u "no generated transcript")] []).
Proof.
  apply (main_reports_second_lookup ascii_runtime no_captions_world example_id
           example_id 0%nat (Exn OtherException (u "no manual transcript"))
           (Exn OtherException (u "no generated transcript"))).
  - by apply example_reaches_try.
  - reflexivity.
  - reflexivity.
  - reflexivity.
Defined.

Lemma main_writes_nothing_on_bad_time_witness :
  main ascii_runtime bad_time_world
  = Some (Run 1 (progress bad_time_world example_id example_id ++ [])
            [ErrorLine (u "cannot convert float NaN to integer")] []).
Proof.
  apply (main_writes_nothing_on_bad_time ascii_runtime bad_time_world example_id
           example_id [] (take 1 bad_entries) (Entry (u "lost") NaN (of_int 1))
           (drop 2 bad_entries)
           (Exn ValueError (u "cannot convert float NaN to integer"))).
  - by apply example_reaches_try.
  - exists 0%nat, 1%nat. split; [reflexivity|]. split; [|reflexivity].
    left. by split.
  - repeat constructor; eexists; vm_compute; reflexivity.
  - vm_compute. reflexivity.
Defined.

Lemma main_crashes_on_malformed_reference_witness :
  main ascii_runtime malformed_world
  = Some (Run 1 [] [Traceback (Exn ValueError (u "Invalid IPv6 URL"))] []).
Proof.
  apply (main_crashes_on_malformed_reference ascii_runtime malformed_world
           (u "get-yt-transcript") (u "http://[") []).
  - reflexivity.
  - reflexivity.
  - reflexivity.
  - vm_compute. reflexivity.
Defined.

Lemma main_crashes_on_mkdir_witness :
  main ascii_runtime no_desktop_world
  = Some (Run 1 [] [Traceback (Exn OSError (u "No such file or directory"))] []).
Proof.
  apply (main_crashes_on_mkdir ascii_runtime no_desktop_world
           (u "get-yt-transcript") example_id [] example_id).
  - reflexivity.
  - reflexivity.
  - vm_compute. reflexivity.
  - done.
  - reflexivity.
Defined.

(** ** Further properties of format_time_srt *)

Section FormatMore.
Local Open Scope Z_scope.

Lemma on_grid_zero : on_grid 0.
Proof. reflexivity. Qed.

Lemma round_pos_nonneg p q : 0 <= p -> 0 < q -> 0 <= round_pos p q.
Proof.
  intros Hp Hq. apply round_pos_lower; [done|done|lia|apply on_grid_zero|lia].
Qed.

(** A quotient that a number of the grid bounds is rounded to a finite
    number within the same bound. *)
Lemma fl_bounded p q c :
  0 < q -> on_grid c -> c < overflow_threshold -> Z.abs p <= c * q ->
  exists n, fl p q = Fin n /\ Z.abs n <= c /\ (0 <= p -> 0 <= n).
Proof.
  intros Hq Hg Hc Hp. unfold fl.
  pose proof (round_pos_upper (Z.abs p) q (Z.abs_nonneg p) Hq c Hg Hp) as Hu.
  pose proof (round_pos_nonneg (Z.abs p) q (Z.abs_nonneg p) Hq) as Hl.
  destruct (Z.leb_spec overflow_threshold (round_pos (Z.abs p) q)); [lia|].
  eexists. split; [reflexivity|].
  destruct (Z.ltb_spec p 0); split; lia.
Qed.

Lemma on_grid_pow2 k : 0 <= k -> on_grid (2 ^ k).
Proof.
  intros Hk. apply (on_grid_multiple (Z.max 0 (k - 52))); [lia| |].
  - split; [apply Z.pow_nonneg; lia|]. apply Z.pow_lt_mono_r; lia.
  - exists (2 ^ (k - Z.max 0 (k - 52))). rewrite <- Z.pow_add_r by lia.
    f_equal. lia.
Qed.

Lemma fl_bounded_pow2 p q k :
  0 < q -> 0 <= k <= 2097 -> Z.abs p <= 2 ^ k * q ->
  exists n, fl p q = Fin n /\ Z.abs n <= 2 ^ k /\ (0 <= p -> 0 <= n).
Proof.
  intros Hq Hk Hp. apply fl_bounded; [done|apply on_grid_pow2; lia| |done].
  rewrite threshold_eq. apply Z.pow_lt_mono_r; lia.
Qed.

(** [a % w] for [w] a whole number of seconds, whatever the sign of
    [a]: a finite number from 0 to [w]. *)
Lemma float_rem_range a c :
  0 < c -> c * one < 2 ^ 53 * one ->
  exists r, float_rem (Fin a) (Fin (c * one)) = Ok (Fin r) /\ 0 <= r <= c * one.
Proof.
  intros Hc Hlt. pose proof one_pos as H1.
  set (w := c * one) in *. assert (0 < w) as Hw by (subst w; nia).
  destruct (Z.le_gt_cases 0 a) as [Ha|Ha].
  - rewrite float_rem_nonneg by done. eexists. split; [done|].
    pose proof (Z.mod_pos_bound a w Hw). lia.
  - unfold float_rem, is_zero, fmod, lt0.
    destruct (Z.eqb_spec w 0); [lia|].
    pose proof (Z.rem_bound_abs a w ltac:(lia)) as B1.
    pose proof (Z.rem_nonpos a w ltac:(lia) ltac:(lia)) as B.
    destruct (Z.eqb_spec (Z.rem a w) 0) as [E|E]; cbn [negb].
    + exists 0. split; [done|lia].
    + destruct (Z.ltb_spec w 0); [lia|].
      destruct (Z.ltb_spec (Z.rem a w) 0); [|lia]. cbn [Bool.eqb negb].
      unfold fadd.
      destruct (fl_bounded (Z.rem a w + w) 1 w) as (m & -> & Hm & Hm0);
        [lia|subst w; apply on_grid_seconds; lia| |lia|].
      * pose proof one_lt_threshold. lia.
      * exists m. split; [done|]. lia.
Qed.

(** [a // 3600] is finite for every binary64 number [a]; [A] is a
    number of the grid far enough below the overflow threshold. *)
Lemma float_floor_div_finite_within (A a : Z) :
  0 < A -> one <= A ->
  on_grid A -> on_grid (2 * A) -> on_grid (4 * A) ->
  4 * A < overflow_threshold -> overflow_threshold <= 2048 * A ->
  on_grid (Z.abs a) -> Z.abs a < overflow_threshold ->
  exists n, float_floor_div (Fin a) (Fin (3600 * one)) = Ok (Fin n).
Proof.
  intros HA P0 G1 G2 G4 HT1 HT2 Hg Ha. pose proof one_pos as H1.
  remember (3600 * one) as w eqn:Ew.
  assert (0 < w) as Hw by lia.
  assert (one <= w) as Hw1 by lia.
  assert (Z.abs (Z.rem a w) <= Z.abs a) as Hrem.
  { destruct (Z.le_gt_cases 0 a).
    - pose proof (Z.rem_nonneg a w ltac:(lia) ltac:(lia)).
      pose proof (Z.rem_le a w ltac:(lia) Hw). lia.
    - pose proof (Z.rem_nonpos a w ltac:(lia) ltac:(lia)).
      pose proof (Z.rem_opp_l a w ltac:(lia)) as E.
      pose proof (Z.rem_le (- a) w ltac:(lia) Hw). lia. }
  assert (Z.abs (a + - Z.rem a w) <= Z.abs a) as Hsub.
  { destruct (Z.le_gt_cases 0 a).
    - pose proof (Z.rem_nonneg a w ltac:(lia) ltac:(lia)). lia.
    - pose proof (Z.rem_nonpos a w ltac:(lia) ltac:(lia)). lia. }
  assert (is_zero (Fin w) = false) as Hz by (apply Z.eqb_neq; lia).
  assert (fmod (Fin a) (Fin w) = Fin (Z.rem a w)) as E0.
  { unfold fmod. destruct (Z.eqb_spec w 0); [lia|done]. }
  assert (exists n1, fsub (Fin a) (Fin (Z.rem a w)) = Fin n1 /\ Z.abs n1 <= Z.abs a)
    as (n1 & E1 & Hn1).
  { unfold fsub, fneg, fadd.
    destruct (fl_bounded (a + - Z.rem a w) 1 (Z.abs a)) as (n1 & -> & Hn1 & _);
      [lia|done|done|lia|]. by exists n1. }
  assert (exists n2, fdiv (Fin n1) (Fin w) = Fin n2 /\ Z.abs n2 <= A)
    as (n2 & E2 & Hn2).
  { unfold fdiv. destruct (Z.eqb_spec w 0); [lia|].
    destruct (Z.ltb_spec w 0); [lia|].
    destruct (fl_bounded (n1 * one) w A) as (n2 & -> & Hn2 & _);
      [done|done|lia| |by exists n2].
    rewrite Z.abs_mul, (Z.abs_eq one) by lia.
    assert (Z.abs n1 <= 2048 * A) as Hb by lia.
    transitivity (2048 * A * one); [by apply Z.mul_le_mono_nonneg_r; lia|].
    rewrite Ew. nia. }
  unfold float_floor_div. cbv zeta. rewrite Hz, E0, E1, E2.
  set (cond := negb _ && negb _).
  assert (exists d, (if cond then fsub (Fin n2) (Fin one) else Fin n2) = Fin d
                    /\ Z.abs d <= 2 * A) as (d & -> & Hd).
  { destruct cond.
    - unfold fsub, fneg, fadd.
      destruct (fl_bounded (n2 + - one) 1 (2 * A)) as (n3 & -> & Hn3 & _);
        [lia|done|lia|lia|].
      by exists n3.
    - exists n2. split; [done|]. lia. }
  destruct (negb (is_zero (Fin d))); [|by eexists].
  unfold ffloor.
  destruct (fgt _ _); [|by eexists].
  unfold fadd.
  pose proof (Z.mul_div_le d one H1) as F1.
  pose proof (Z.mul_succ_div_gt d one H1) as F2.
  destruct (fl_bounded (d / one * one + one) 1 (4 * A)) as (n4 & -> & _);
    [lia|done|lia|lia|].
  by eexists.
Qed.

Lemma float_floor_div_finite a :
  representable a = true ->
  exists n, float_floor_div (Fin a) (Fin (3600 * one)) = Ok (Fin n).
Proof.
  intros [Hg Ha]%representable_spec.
  apply (float_floor_div_finite_within (2 ^ 2087));
    [ apply Z.pow_pos_nonneg; lia
    | rewrite one_eq; apply Z.pow_le_mono_r; lia
    | apply on_grid_pow2; lia
    | replace (2 * 2 ^ 2087) with (2 ^ 2088) by (by vm_compute);
      apply on_grid_pow2; lia
    | replace (4 * 2 ^ 2087) with (2 ^ 2089) by (by vm_compute);
      apply on_grid_pow2; lia
    | by vm_compute
    | by vm_compute
    | exact Hg
    | exact Ha ].
Qed.

(** The product of a fractional part and 1000 is finite. *)
Lemma fmul_1000_finite r :
  0 <= r <= one -> exists n, fmul (Fin r) (Fin (1000 * one)) = Fin n.
Proof.
  intros Hr. pose proof one_pos as H1. unfold fmul.
  destruct (fl_bounded_pow2 (r * (1000 * one)) one 1084) as (n & -> & _); [done|lia| |].
  - replace 1084 with (10 + 1074) by lia. rewrite Z.pow_add_r, <- one_eq by lia.
    change (2 ^ 10) with 1024. rewrite Z.abs_eq by nia. nia.
  - by eexists.
Qed.

Lemma int_of_float_Fin n : int_of_float (Fin n) = Ok (Z.quot n one).
Proof. reflexivity. Qed.

Lemma format_time_srt_Fin a :
  representable a = true -> exists s, format_time_srt (Fin a) = Ok s.
Proof.
  intros Ha. pose proof one_pos as H1.
  assert (forall c, 0 < c <= 3600 -> c * one < 2 ^ 53 * one) as Hsmall.
  { intros c Hc. apply Z.mul_lt_mono_pos_r; [done|].
    change (2 ^ 53) with 9007199254740992. lia. }
  destruct (float_floor_div_finite a Ha) as [h Hh].
  destruct (float_rem_range a 3600 ltac:(lia) (Hsmall 3600 ltac:(lia)))
    as (r1 & Hr1 & B1).
  destruct (float_rem_range a 60 ltac:(lia) (Hsmall 60 ltac:(lia)))
    as (r2 & Hr2 & B2).
  destruct (float_rem_range a 1 ltac:(lia) (Hsmall 1 ltac:(lia)))
    as (r3 & Hr3 & B3).
  destruct (fmul_1000_finite r3 ltac:(lia)) as [m Hm].
  unfold format_time_srt.
  destruct float_consts as (E3600 & E60 & E1 & E1000).
  rewrite E3600, E60, E1, E1000.
  rewrite Hh, Hr1, Hr2, Hr3.
  repeat (rewrite exc_bind_Ok; cbv beta).
  rewrite (float_floor_div_seconds r1 60) by (specialize (Hsmall 3600); lia).
  rewrite Hm, !int_of_float_Fin.
  repeat (rewrite exc_bind_Ok; cbv beta).
  by eexists.
Qed.

End FormatMore.

(** X17.  The formatter returns a text for every finite binary64
    offset, negative ones included, and raises [ValueError] for a NaN
    and for the infinities (whose floor quotient by 3600 is a NaN). *)
Theorem format_time_srt_raises_iff_not_finite :
  (forall a, representable a = true -> exists s, format_time_srt (Fin a) = Ok s)
  /\ format_time_srt NaN
     = Raise (Exn ValueError (u "cannot convert float NaN to integer"))
  /\ forall negative,
       format_time_srt (Inf negative)
       = Raise (Exn ValueError (u "cannot convert float NaN to integer")).
Proof.
  split; [exact format_time_srt_Fin|]. split; [by vm_compute|].
  intros []; by vm_compute.
Qed.

Lemma format_time_srt_raises_iff_not_finite_witness :
  exists s, format_time_srt (Fin (units_of (of_ratio (-5) 10))) = Ok s.
Proof.
  apply (proj1 format_time_srt_raises_iff_not_finite). vm_compute. reflexivity.
Defined.

(** *** Offsets of 100 hours and more *)

Lemma digits_aux_length fuel n acc :
  (length acc <= length (digits_aux fuel n acc))%nat.
Proof.
  revert n acc. induction fuel as [|fuel IH]; intros n acc; cbn [digits_aux]; [lia|].
  destruct (n <? 10)%N; [cbn; lia|].
  etransitivity; [|apply IH]. cbn. lia.
Qed.

Lemma digits_length_3 n : (100 <= n)%N -> (3 <= length (digits n))%nat.
Proof.
  intros Hn. unfold digits.
  assert (6 <= N.log2 n)%N as Hlog by (change 6%N with (N.log2 64); apply N.log2_le_mono; lia).
  destruct (N.to_nat (N.log2 n)) as [|[|f]] eqn:E; [lia|lia|].
  cbn [digits_aux].
  destruct (N.ltb_spec n 10); [lia|].
  assert (10 <= n / 10)%N by (apply N.div_le_lower_bound; lia).
  destruct (N.ltb_spec (n / 10) 10); [lia|].
  destruct (_ <? _)%N; [cbn; lia|].
  etransitivity; [|apply digits_aux_length]. cbn. lia.
Qed.

Lemma hhmmss_length h m s ms :
  (0 <= m < 60)%Z -> (0 <= s < 60)%Z -> (0 <= ms <= 999)%Z ->
  length (hhmmss h m s ms) = (length (format_0d 2 h) + 10)%nat.
Proof.
  intros Hm Hs Hms. unfold hhmmss. rewrite !length_app.
  destruct (format_0d_2 m ltac:(lia)) as [-> _].
  destruct (format_0d_2 s ltac:(lia)) as [-> _].
  destruct (format_0d_3 ms ltac:(lia)) as [-> _].
  cbn. lia.
Qed.

(** X18.  From 100 hours on (and below 2^53 seconds) the hours are
    written in full, so the text is longer than the 12 characters of
    [HH:MM:SS,mmm]. *)
Theorem format_time_srt_long_offsets (a : Z) :
  (360000 * one <= a < 2 ^ 53 * one)%Z -> representable a = true ->
  exists s, format_time_srt (Fin a) = Ok s /\ (12 < length s)%nat.
Proof.
  intros [Hlo Hhi] Hr. pose proof one_pos as H1.
  destruct (format_time_srt_fields a) as (ms & -> & _ & _ & Hms & _);
    [lia|apply representable_on_grid; [lia|done]|].
  eexists. split; [reflexivity|].
  assert (100 <= hours_of a)%Z as Hh.
  { unfold hours_of. apply Z.div_le_lower_bound; lia. }
  rewrite hhmmss_length.
  - unfold format_0d. destruct (Z.ltb_spec (hours_of a) 0); [lia|].
    unfold zfill. rewrite length_app.
    pose proof (digits_length_3 (Z.abs_N (hours_of a)) ltac:(lia)). lia.
  - unfold minutes_of.
    pose proof (Z.mod_pos_bound a (3600 * one) ltac:(lia)).
    split; [apply Z.div_pos; lia|apply Z.div_lt_upper_bound; lia].
  - unfold seconds_of.
    pose proof (Z.mod_pos_bound a (60 * one) ltac:(lia)).
    split; [apply Z.div_pos; lia|apply Z.div_lt_upper_bound; lia].
  - done.
Qed.

Lemma format_time_srt_long_offsets_witness :
  exists s,
    format_time_srt (Fin (units_of (of_ratio 3600005 10))) = Ok s
    /\ (12 < length s)%nat.
Proof.
  apply (format_time_srt_long_offsets (units_of (of_ratio 3600005 10))).
  - split; [apply Z.leb_le | apply Z.ltb_lt]; vm_compute; reflexivity.
  - vm_compute. reflexivity.
Defined.

(** ** The layout of the structured text *)

Lemma escape_char_plain c : json_plain c = true -> escape_char c = [c].
Proof.
  unfold json_plain, escape_char.
  intros [[H1%N.leb_le H2%negb_true_iff]%andb_true_iff H3%negb_true_iff]%andb_true_iff.
  rewrite H2, H3.
  rewrite !(proj2 (N.eqb_neq c _)) by lia.
  destruct (N.ltb_spec c 32); [lia|done].
Qed.

(** With [ensure_ascii=False] a text without quotes, backslashes and
    control characters is written between quotes as it is. *)
Lemma encode_basestring_plain s :
  forallb json_plain s = true -> encode_basestring s = quoted s.
Proof.
  intros H. unfold encode_basestring, quoted. do 2 f_equal.
  induction s as [|c s IH]; [done|]. cbn in H |- *.
  apply andb_true_iff in H as [Hc Hs]. by rewrite escape_char_plain, IH.
Qed.

Lemma digits_aux_plain fuel n acc :
  forallb json_plain acc = true -> forallb json_plain (digits_aux fuel n acc) = true.
Proof.
  revert n acc. induction fuel as [|fuel IH]; intros n acc H; [done|].
  cbn [digits_aux].
  assert (forallb json_plain ((48 + n mod 10)%N :: acc) = true) as H'.
  { cbn [forallb]. rewrite H, andb_true_r. unfold json_plain.
    pose proof (N.mod_lt n 10 ltac:(lia)) as Hd. set (d := (n mod 10)%N) in *.
    apply andb_true_iff; split; [apply andb_true_iff; split|].
    - apply N.leb_le. lia.
    - apply negb_true_iff, N.eqb_neq. lia.
    - apply negb_true_iff, N.eqb_neq. lia. }
  destruct (n <? 10)%N; [done|]. by apply IH.
Qed.

Lemma format_0d_plain w z : forallb json_plain (format_0d w z) = true.
Proof.
  assert (forall k, forallb json_plain (zfill k (digits (Z.abs_N z))) = true) as H.
  { intros k. unfold zfill. rewrite forallb_app. apply andb_true_iff. split.
    - apply forallb_forall. by intros x ->%repeat_spec.
    - by apply digits_aux_plain. }
  unfold format_0d. destruct (z <? 0)%Z; [|apply H].
  cbn [forallb]. by rewrite H.
Qed.

Lemma hhmmss_plain h m s ms : forallb json_plain (hhmmss h m s ms) = true.
Proof. unfold hhmmss. rewrite !forallb_app, !format_0d_plain. reflexivity. Qed.

Lemma format_time_srt_plain x s :
  format_time_srt x = Ok s -> forallb json_plain s = true.
Proof.
  unfold format_time_srt.
  destruct (float_floor_div x float_3600 ≫= int_of_float) as [h|]; [|done].
  rewrite exc_bind_Ok.
  destruct (float_rem x float_3600 ≫= _) as [m|]; [|done].
  rewrite exc_bind_Ok.
  destruct (float_rem x float_60 ≫= int_of_float) as [sec|]; [|done].
  rewrite exc_bind_Ok.
  destruct (float_rem x float_1 ≫= _) as [ms|]; [|done].
  rewrite exc_bind_Ok. fold (hhmmss h m sec ms). intros H.
  assert (s = hhmmss h m sec ms) as -> by congruence. apply hhmmss_plain.
Qed.

Lemma time_str_plain x : forallb json_plain (time_str x) = true.
Proof.
  unfold time_str. destruct (format_time_srt x) as [s|] eqn:E; [|done].
  by apply (format_time_srt_plain x).
Qed.

Lemma iterencode_record e : iterencode 2 1 (json_record e) = json_record_text e.
Proof.
  unfold json_record, json_record_text. cbn [iterencode map fst snd join].
  rewrite !(encode_basestring_plain (time_str _)) by apply time_str_plain.
  rewrite <- !app_assoc. reflexivity.
Qed.

(** X19.  The structured text is a JSON array laid out with an indent
    of two spaces: one record per entry, in order, each on five lines
    with the members [in_ts], [out_ts] and [text] in this order; the
    times stand between quotes as the formatter wrote them, and an empty
    transcript gives [[]]. *)
Theorem create_json_layout (data : list entry) (fuel : nat) :
  (length data < fuel)%nat -> Forall formattable data ->
  exists st,
    create_json fuel (Store data [])
    = Done match data with
           | [] => u "[]"
           | _ :: _ =>
               u "[" ++ newline ++ u "  "
               ++ join (u "," ++ newline ++ u "  ") (map json_record_text data)
               ++ newline ++ u "]"
           end st.
Proof.
  intros Hfuel Hok. eexists. rewrite create_json_run by done. f_equal.
  destruct data as [|e data]; [done|].
  unfold dumps. cbn [map iterencode].
  rewrite iterencode_record, map_map.
  rewrite (map_ext (fun x => iterencode 2 1 (json_record x)) json_record_text
             iterencode_record).
  reflexivity.
Qed.

Lemma create_json_layout_witness :
  exists st,
    create_json 3 (Store example_entries [])
    = Done (u "[" ++ newline ++ u "  "
            ++ join (u "," ++ newline ++ u "  ") (map json_record_text example_entries)
            ++ newline ++ u "]") st.
Proof.
  apply (create_json_layout example_entries 3).
  - vm_compute. lia.
  - repeat constructor; eexists; vm_compute; reflexivity.
Defined.
